(** * Satellite-Tracker front end: retry transport, token check, dashboard
      refresh and derived views.

    A shallow embedding of the JavaScript sources

      - [utils/retry.js]            (retryWithBackoff),
      - [services/httpClient.js]    (axios instance and its interceptors),
      - [services/authService.js]   (AuthService.isAuthenticated),
      - [utils/healthCheck.js]      (checkBackendHealth),
      - [services/userService.js]   (getFavorites, getUpcomingPasses),
      - [SatelliteTrackingDashboard] (loadDashboardData, refreshPositions,
        the auto-refresh effect and the two filter/sort callbacks).

    Conventions.  A promise that has settled is a value of [Settled]; an
    async function is a function from the state it reads to its settled
    result and the state it leaves.  JavaScript numbers that are counts,
    status codes or millisecond timestamps are [Z]; quantities that can
    be fractional (delays, seconds since the epoch, elevations) are
    rationals [Q].  A finite double is the rational it denotes, and
    [Double.round_binary64] rounds the exact result of an arithmetic
    operation to the double JavaScript yields for it.
    Browser built-ins whose behaviour depends on the locale or on Unicode
    tables ([toLowerCase], [localeCompare], [parseInt], the base64/JSON
    decoding of a token payload) are section variables. *)

From Stdlib Require Import String ZArith QArith Qround Qpower List Bool Lia Lqa
  DecimalString.
Import ListNotations.

Set Implicit Arguments.

Open Scope Z_scope.

(** A settled promise: [Fulfilled v] or [Rejected reason]. *)
Inductive Settled (A E : Type) : Type :=
| Fulfilled (value : A)
| Rejected (reason : E).

Arguments Fulfilled {A E} value.
Arguments Rejected {A E} reason.

(** * JavaScript numbers *)

Module Double.

(** The whole number nearest to [x], the even one of the two when [x]
    lies halfway between them. *)
Definition nearest_even (x : Q) : Z :=
  let f := Qfloor x in
  match Qcompare (x - inject_Z f) (1 # 2) with
  | Lt => f
  | Gt => f + 1
  | Eq => if Z.even f then f else f + 1
  end.

(** The exponent [e] for which the doubles around [q > 0] are the whole
    multiples of [2^e]: 52 below the exponent of the binade [q] lies in,
    and never below that of the subnormal numbers. *)
Definition ulp_exponent (q : Q) : Z :=
  let lg := if Qle_bool 1 q then Z.log2 (Qfloor q)
            else - Z.log2_up (Qceiling (/ q)) in
  Z.max (-1074) (lg - 52).

Definition round_positive (q : Q) : Q :=
  let e := ulp_exponent q in
  (inject_Z (nearest_even (q * 2 ^ (- e))) * 2 ^ e)%Q.

(** IEEE 754 binary64, round to nearest, ties to even: the double that
    an arithmetic operation yields when its exact result is [q].
    Overflow to [Infinity] (from 2^1024 on) is left out. *)
Definition round_binary64 (q : Q) : Q :=
  match Qcompare q 0 with
  | Eq => 0%Q
  | Gt => round_positive q
  | Lt => (- round_positive (- q))%Q
  end.

End Double.

(** * utils/retry.js *)

Module Retry.

(** How an [async] function body ends: [return v] or [throw e].  The
    thrown value is optional because [throw lastError] can run while
    [lastError] is still [undefined]. *)
Inductive Completion (A E : Type) : Type :=
| Return (v : A)
| Throw (e : option E).

Arguments Return {A E} v.
Arguments Throw {A E} e.

(** What one call of [retryWithBackoff] did: how it completed, the
    outcome of every [fn()] call in order, the exact value of the delay
    expression of every wait in order (the double handed to [setTimeout]
    is [backoff_delay_double] of the same attempt), and the state left
    behind by [fn]. *)
Record Run (St A E : Type) : Type := mkRun {
  completion : Completion A E;
  attempts : list (Settled A E);
  delays : list Q;
  final : St
}.

Section RetryWithBackoff.

Context {St A E : Type}.

(** [error.response?.status]: [None] when the error carries no response
    or the response carries no status. *)
Variable status_of : E -> option Z.

(** The function being retried; it takes no argument, so all it can
    depend on is the state [St] it reads and writes. *)
Variable fn : St -> Settled A E * St.

(** The jitter source: [random k] is the value of the [k]-th call of
    [Math.random()] made by this invocation. *)
Variable random : nat -> Q.

(** [maxRetries] is a whole number (the default is 3); a negative one
    makes the loop body run zero times. *)
Variable maxRetries : Z.
Variable baseDelay : Q.

(** [error.response?.status >= 400 && error.response?.status < 500 &&
     error.response?.status !== 429] *)
Definition is_client_error (error : E) : bool :=
  match status_of error with
  | Some status => (400 <=? status) && (status <? 500) && negb (status =? 429)
  | None => false
  end.

(** [baseDelay * Math.pow(2, attempt) + Math.random() * 1000], the
    exact value of the expression. *)
Definition backoff_delay (attempt : Z) (draw : nat) : Q :=
  (baseDelay * inject_Z (2 ^ attempt) + random draw * 1000)%Q.

(** The same expression as JavaScript evaluates it: the product on the
    left, the product on the right and their sum are each rounded to a
    double ([Math.pow(2, attempt)] is a power of two and exact).  This
    is the number handed to [setTimeout]. *)
Definition backoff_delay_double (attempt : Z) (draw : nat) : Q :=
  Double.round_binary64
    (Double.round_binary64 (baseDelay * inject_Z (2 ^ attempt))
     + Double.round_binary64 (random draw * 1000))%Q.

(** The [for (let attempt = 0; attempt <= maxRetries; attempt++)] loop.
    [fuel] only bounds the recursion; [retryWithBackoff_total] shows it
    is never exhausted. *)
Fixpoint loop (fuel : nat) (attempt : Z) (draw : nat)
         (lastError : option E) (s : St) : option (Run St A E) :=
  match fuel with
  | O => None
  | S fuel' =>
    if attempt <=? maxRetries then
      match fn s with
      | (Fulfilled v, s') => Some (mkRun (Return v) [Fulfilled v] [] s')
      | (Rejected error, s') =>
        if is_client_error error then
          Some (mkRun (Throw (Some error)) [Rejected error] [] s')
        else if attempt =? maxRetries then
          (* break; throw lastError *)
          Some (mkRun (Throw (Some error)) [Rejected error] [] s')
        else
          match loop fuel' (attempt + 1) (S draw) (Some error) s' with
          | Some r =>
            Some (mkRun (completion r)
                        (Rejected error :: attempts r)
                        (backoff_delay attempt draw :: delays r)
                        (final r))
          | None => None
          end
      end
    else Some (mkRun (Throw lastError) [] [] s)
  end.

Definition retryWithBackoff (s : St) : option (Run St A E) :=
  loop (S (Z.to_nat (maxRetries + 1))) 0 0 None s.

(** The number of attempts the loop allows in total: the first attempt
    plus [maxRetries] retries. *)
Definition maxAttempts : Z := maxRetries + 1.

(** An attempt that failed with an error the loop is willing to retry. *)
Definition retryable_failure (o : Settled A E) : Prop :=
  exists error, o = Rejected error /\ is_client_error error = false.

(** The outcomes of [n] successive calls of [fn] starting in state [s]. *)
Fixpoint calls (n : nat) (s : St) : list (Settled A E) :=
  match n with
  | O => []
  | S n' => let (o, s') := fn s in o :: calls n' s'
  end.

End RetryWithBackoff.

End Retry.

(** * services/httpClient.js *)

Module HttpClient.

(** The per-request configuration object.  axios builds a fresh one for
    every [httpClient.get(...)] call; [_retry] is the field the response
    interceptor writes on it. *)
Record RequestConfig : Type := mkConfig {
  url : string;
  Authorization : option string;
  _retry : bool
}.

Record Response (D : Type) : Type := mkResponse {
  status : Z;
  data : option D
}.

(** The error axios rejects with: [error.config], [error.response]
    (absent when no response arrived) and [error.message]. *)
Record AxiosError (D : Type) : Type := mkError {
  config : RequestConfig;
  response : option (Response D);
  message : string
}.

(** The parts of the browser the client touches: the entry of
    [localStorage] under [config.JWT_TOKEN_KEY], [window.location], and a
    count of the [localStorage.removeItem] calls made so far. *)
Record Browser : Type := mkBrowser {
  token : option string;
  pathname : string;
  removals : nat
}.

(** Browser, remote side and the URLs requested so far, oldest first. *)
Record World (Net : Type) : Type := mkWorld {
  browser : Browser;
  net : Net;
  requests : list string
}.

Definition getItem (b : Browser) : option string := token b.

Definition removeItem (b : Browser) : Browser :=
  mkBrowser None (pathname b) (S (removals b)).

Definition setItem (value : string) (b : Browser) : Browser :=
  mkBrowser (Some value) (pathname b) (removals b).

(** JavaScript truthiness of a possibly absent string. *)
Definition truthy (s : option string) : bool :=
  match s with
  | Some v => negb (String.eqb v "")
  | None => false
  end.

(** [error.response?.status] *)
Definition error_status {D} (error : AxiosError D) : option Z :=
  option_map (@status D) (response error).

(** axios' default [validateStatus]: a response resolves the promise
    exactly when its status is 2xx. *)
Definition validateStatus (s : Z) : bool := (200 <=? s) && (s <? 300).

Section Client.

Context {D Net : Type}.

(** The transport below axios: given the outgoing request it yields a
    response, or none (DNS failure, refused connection, timeout). *)
Variable adapter : RequestConfig -> Net -> option (Response D) * Net.

(** Request interceptor: attach the stored token when there is one. *)
Definition request_interceptor (requestConfig : RequestConfig) (b : Browser)
  : RequestConfig :=
  if truthy (getItem b) then
    match getItem b with
    | Some t => mkConfig (url requestConfig) (Some ("Bearer " ++ t)%string)
                         (_retry requestConfig)
    | None => requestConfig
    end
  else requestConfig.

(** Response interceptor, rejection branch.  It always rejects; the
    result is the (possibly rewritten) error and the browser it left. *)
Definition response_rejected (error : AxiosError D) (b : Browser)
  : AxiosError D * Browser :=
  let originalRequest := config error in
  if match error_status error with Some s => s =? 401 | None => false end
     && negb (_retry originalRequest)
  then
    let originalRequest' :=
      mkConfig (url originalRequest) (Authorization originalRequest) true in
    let b1 := removeItem b in
    let b2 := if negb (String.eqb (pathname b1) "/login")
              then mkBrowser (token b1) "/login" (removals b1)
              else b1 in
    (mkError originalRequest' (response error) (message error), b2)
  else
    let m1 := match response error with
              | None => "Network error. Please check your internet connection."%string
              | Some _ => message error
              end in
    let m2 := match error_status error with
              | Some s => if 500 <=? s
                          then "Server error. Please try again later."%string
                          else m1
              | None => m1
              end in
    let m3 := match error_status error with
              | Some s => if s =? 429
                          then "Too many requests. Please wait a moment and try again."%string
                          else m2
              | None => m2
              end in
    (mkError originalRequest (response error) m3, b).

(** [httpClient.get(url)]: a fresh config, the request interceptor, the
    transport, axios' status validation, the response interceptor. *)
Definition get (path : string) (w : World Net)
  : Settled (Response D) (AxiosError D) * World Net :=
  let requestConfig := request_interceptor (mkConfig path None false) (browser w) in
  let (raw, net') := adapter requestConfig (net w) in
  let log := (requests w ++ [path])%list in
  match raw with
  | Some resp =>
    if validateStatus (status resp) then
      (Fulfilled resp, mkWorld (browser w) net' log)
    else
      let error :=
        mkError requestConfig (Some resp)
                ("Request failed with status code "
                   ++ NilZero.string_of_int (Z.to_int (status resp)))%string in
      let (error', b') := response_rejected error (browser w) in
      (Rejected error', mkWorld b' net' log)
  | None =>
    let error := mkError requestConfig None "Network Error"%string in
    let (error', b') := response_rejected error (browser w) in
    (Rejected error', mkWorld b' net' log)
  end.

(** One [execute()]: [retryWithBackoff(() => httpClient.get(path))], as
    [satelliteService.searchSatellites] issues it. *)
Definition execute (random : nat -> Q) (maxRetries : Z) (baseDelay : Q)
           (path : string) (w : World Net) :=
  Retry.retryWithBackoff error_status (get path) random maxRetries baseDelay w.

(** Did this attempt observe a 401 response? *)
Definition saw_401 (o : Settled (Response D) (AxiosError D)) : bool :=
  match o with
  | Rejected error =>
    match error_status error with Some s => s =? 401 | None => false end
  | Fulfilled _ => false
  end.

End Client.

End HttpClient.

(** * services/authService.js *)

Module AuthService.

Import HttpClient.

(** What [JSON.parse(atob(token.split('.')[1]))] followed by reading
    [.exp] comes to: an exception anywhere on the way, or a payload whose
    [exp] is a number, or is missing / not a number ([None]; every
    comparison with it is [false]). *)
Inductive Decoded : Type :=
| Throws
| Payload (exp : option Q).

Section IsAuthenticated.

Variable decode : string -> Decoded.

(** [Date.now() / 1000]: a division of two doubles, rounded. *)
Definition currentTime (now_ms : Z) : Q :=
  Double.round_binary64 (inject_Z now_ms / 1000)%Q.

(** [a > b] on numbers. *)
Definition Qgtb (a b : Q) : bool := negb (Qle_bool a b).

Definition isAuthenticated (now_ms : Z) (b : Browser) : bool * Browser :=
  let token := getItem b in
  if negb (truthy token) then (false, b)
  else
    match token with
    | None => (false, b)
    | Some t =>
      match decode t with
      | Payload (Some exp) => (Qgtb exp (currentTime now_ms), b)
      | Payload None => (false, b)
      | Throws => (false, removeItem b)
      end
    end.

End IsAuthenticated.

End AuthService.

(** * Entities shown on the dashboard *)

Record Position : Type := mkPosition {
  latitude : Q;
  longitude : Q;
  altitude : option Q;
  velocity : option Q
}.

(** A favourite satellite; [added_at] is [new Date(added_at)] in
    milliseconds. *)
Record Satellite : Type := mkSatellite {
  id : Z;
  norad_id : Z;
  name : string;
  current_position : option Position;
  added_at : Z
}.

(** An upcoming pass; [start_time] is [new Date(start_time)] in
    milliseconds, [satellite_name] is [pass.satellite.name]. *)
Record Pass : Type := mkPass {
  satellite_name : string;
  start_time : Z;
  duration : Z;
  max_elevation : Q;
  visibility : string
}.

(** The fields of a response body that the client reads. *)
Record Body : Type := mkBody {
  body_status : option string;
  body_favorites : option (list Satellite);
  body_passes : option (list Pass);
  body_error_message : option string;
  body_detail : option string
}.

(** * utils/healthCheck.js and services/userService.js *)

Module Services.

Import HttpClient.

Section WithTransport.

Context {Net : Type}.
Variable adapter : RequestConfig -> Net -> option (Response Body) * Net.

(** [a || b] on possibly absent strings. *)
Definition or_else (a b : option string) : option string :=
  if truthy a then a else b.

(** [error.response?.data?.error?.message || error.response?.data?.detail
     || error.message || fallback] *)
Definition failure_message (error : AxiosError Body) (fallback : string) : string :=
  let body := match response error with
              | Some resp => data resp
              | None => None
              end in
  let m := or_else (match body with Some b => body_error_message b | None => None end)
             (or_else (match body with Some b => body_detail b | None => None end)
                (or_else (Some (message error)) (Some fallback))) in
  match m with
  | Some s => s
  | None => fallback
  end.

Definition checkBackendHealth (w : World Net) : bool * World Net :=
  match get adapter "/health" w with
  | (Fulfilled resp, w') =>
    ((status resp =? 200)
     && match data resp with
        | Some b => match body_status b with
                    | Some s => String.eqb s "healthy"
                    | None => false
                    end
        | None => false (* reading [.status] of no body throws; caught *)
        end, w')
  | (Rejected _, w') => (false, w')
  end.

(** Reading a field of a missing body throws a [TypeError] inside the
    [try]; the [catch] rethrows it as [new Error(error.message)]. *)
Definition no_body : string := "Cannot read properties of undefined".

Definition getFavorites (w : World Net)
  : Settled (list Satellite) string * World Net :=
  match get adapter "/users/favorites" w with
  | (Fulfilled resp, w') =>
    match data resp with
    | Some b => (Fulfilled match body_favorites b with
                           | Some l => l
                           | None => []
                           end, w')
    | None => (Rejected no_body, w')
    end
  | (Rejected error, w') =>
    if match error_status error with Some s => s =? 404 | None => false end
    then (Fulfilled [], w')
    else (Rejected (failure_message error "Failed to get favorites"), w')
  end.

Definition getUpcomingPasses (w : World Net)
  : Settled (list Pass) string * World Net :=
  match get adapter "/users/passes" w with
  | (Fulfilled resp, w') =>
    match data resp with
    | Some b => (Fulfilled match body_passes b with
                           | Some l => l
                           | None => []
                           end, w')
    | None => (Rejected no_body, w')
    end
  | (Rejected error, w') =>
    if match error_status error with Some s => s =? 404 | None => false end
    then (Fulfilled [], w')
    else if match error_status error with Some s => s =? 422 | None => false end
    then (Fulfilled [], w')
    else (Rejected (failure_message error "Failed to get upcoming passes"), w')
  end.

End WithTransport.

End Services.

(** * SatelliteTrackingDashboard: state and refresh operations *)

Module Dashboard.

Import HttpClient Services.

(** The component state ([useState] cells) that the refresh operations
    read or write. *)
Record State : Type := mkState {
  favorites : list Satellite;
  passes : list Pass;
  loading : bool;
  passesLoading : bool;
  refreshing : bool;
  error : option string;
  backendHealthy : bool;
  lastUpdate : option Z;
  autoRefresh : bool
}.

(** The values passed to [useState]. *)
Definition initial : State :=
  mkState [] [] true false false None true None true.

Definition setFavorites v (d : State) :=
  mkState v (passes d) (loading d) (passesLoading d) (refreshing d) (error d)
          (backendHealthy d) (lastUpdate d) (autoRefresh d).
Definition setPasses v (d : State) :=
  mkState (favorites d) v (loading d) (passesLoading d) (refreshing d) (error d)
          (backendHealthy d) (lastUpdate d) (autoRefresh d).
Definition setLoading v (d : State) :=
  mkState (favorites d) (passes d) v (passesLoading d) (refreshing d) (error d)
          (backendHealthy d) (lastUpdate d) (autoRefresh d).
Definition setPassesLoading v (d : State) :=
  mkState (favorites d) (passes d) (loading d) v (refreshing d) (error d)
          (backendHealthy d) (lastUpdate d) (autoRefresh d).
Definition setRefreshing v (d : State) :=
  mkState (favorites d) (passes d) (loading d) (passesLoading d) v (error d)
          (backendHealthy d) (lastUpdate d) (autoRefresh d).
Definition setError v (d : State) :=
  mkState (favorites d) (passes d) (loading d) (passesLoading d) (refreshing d) v
          (backendHealthy d) (lastUpdate d) (autoRefresh d).
Definition setBackendHealthy v (d : State) :=
  mkState (favorites d) (passes d) (loading d) (passesLoading d) (refreshing d)
          (error d) v (lastUpdate d) (autoRefresh d).
Definition setLastUpdate v (d : State) :=
  mkState (favorites d) (passes d) (loading d) (passesLoading d) (refreshing d)
          (error d) (backendHealthy d) v (autoRefresh d).
Definition setAutoRefresh v (d : State) :=
  mkState (favorites d) (passes d) (loading d) (passesLoading d) (refreshing d)
          (error d) (backendHealthy d) (lastUpdate d) v.

Definition unavailable : string :=
  "Backend service is not available. Please check if the server is running.".

(** The continuation of [refreshPositions] after [await
    userService.getFavorites()], including the [finally]. *)
Definition refreshPositions_resume
           (r : Settled (list Satellite) string) (now : Z) (d : State) : State :=
  let d := match r with
           | Fulfilled updatedFavorites =>
             setLastUpdate (Some now) (setFavorites updatedFavorites d)
           | Rejected _ => d
           end in
  setRefreshing false d.

(** [refreshPositions] up to its [await]: [None] when it returned at the
    guard, otherwise the state in which the fetch is issued.  [favorites]
    is the array the closure was created with. *)
Definition refreshPositions_begin
           (favorites : list Satellite) (d : State) : option State :=
  if (List.length favorites =? 0)%nat then None
  else Some (setRefreshing true d).

Section WithTransport.

Context {Net : Type}.
Variable adapter : RequestConfig -> Net -> option (Response Body) * Net.

(** [now] is the value of [new Date()] when the data has arrived.  The
    two fetches handed to [Promise.allSettled] are issued in source
    order; each settles on its own and neither result is read before
    both have settled.  [checkBackendHealth] catches every failure and
    [Promise.allSettled] never rejects, so the [catch] of the source is
    not reached; the [finally] is the closing [setLoading false]. *)
Definition loadDashboardData (now : Z) (d : State) (w : World Net)
  : State * World Net :=
  let d := setLoading true d in
  let d := setError None d in
  let (isHealthy, w) := checkBackendHealth adapter w in
  let d := setBackendHealthy isHealthy d in
  if negb isHealthy then
    let d := setError (Some unavailable) d in
    let d := setFavorites [] d in
    let d := setPasses [] d in
    (setLoading false d, w)
  else
    let (favoritesData, w) := getFavorites adapter w in
    let (passesData, w) := getUpcomingPasses adapter w in
    let d := match favoritesData with
             | Fulfilled value => setFavorites value d
             | Rejected _ => setFavorites [] d
             end in
    let d := match passesData with
             | Fulfilled value => setPasses value d
             | Rejected _ => setPasses [] d
             end in
    let d := setLastUpdate (Some now) d in
    (setLoading false d, w).

Definition refreshPositions (favorites : list Satellite) (now : Z)
           (d : State) (w : World Net) : State * World Net :=
  match refreshPositions_begin favorites d with
  | None => (d, w)
  | Some d1 =>
    let (updatedFavorites, w') := getFavorites adapter w in
    (refreshPositions_resume updatedFavorites now d1, w')
  end.

Definition refreshPasses (d : State) (w : World Net) : State * World Net :=
  let d := setPassesLoading true d in
  let (r, w') := getUpcomingPasses adapter w in
  let d := match r with
           | Fulfilled passesData => setPasses passesData d
           | Rejected m => setError (Some ("Failed to refresh passes: " ++ m)%string) d
           end in
  (setPassesLoading false d, w').

End WithTransport.

End Dashboard.

(** * SatelliteTrackingDashboard: timer, button and pending fetches *)

Module Scheduler.

Import HttpClient Dashboard.

(** The component between two events of the browser's event loop.
    [interval] is [Some favs] while a [setInterval] timer is armed; its
    callback calls the [refreshPositions] of the render in which the
    effect ran, and that closure reads the [favorites] array [favs] of
    that render.  [inflight] counts the [refreshPositions] calls that are
    suspended at [await userService.getFavorites()]. *)
Record State : Type := mkSched {
  dashboard : Dashboard.State;
  interval : option (list Satellite);
  inflight : nat
}.

Inductive Event : Type :=
| Tick                      (* the interval fires *)
| ClickRefreshPositions     (* the user presses "Refresh Positions" *)
| ToggleAutoRefresh         (* the user flips the auto-refresh switch *)
| PositionsSettled (r : Settled (list Satellite) string) (now : Z).
                            (* a pending getFavorites() settles *)

(** The auto-refresh effect, run after a render in which [autoRefresh]
    changed (and after the first render): arm a timer over the current
    [refreshPositions], or leave none armed. *)
Definition autoRefresh_effect (d : Dashboard.State) : option (list Satellite) :=
  if autoRefresh d then Some (favorites d) else None.

(** A call of the [refreshPositions] closure that reads [favs]. *)
Definition call_refreshPositions (favs : list Satellite) (s : State) : State :=
  match refreshPositions_begin favs (dashboard s) with
  | None => s
  | Some d => mkSched d (interval s) (S (inflight s))
  end.

(** One event.  While [loading] the component renders only a spinner, so
    neither control exists; the button carries [disabled={refreshing}]. *)
Definition step (s : State) (e : Event) : State :=
  match e with
  | Tick =>
    match interval s with
    | Some favs => call_refreshPositions favs s
    | None => s
    end
  | ClickRefreshPositions =>
    if loading (dashboard s) || refreshing (dashboard s) then s
    else call_refreshPositions (favorites (dashboard s)) s
  | ToggleAutoRefresh =>
    if loading (dashboard s) then s
    else
      let d := setAutoRefresh (negb (autoRefresh (dashboard s))) (dashboard s) in
      mkSched d (autoRefresh_effect d) (inflight s)
  | PositionsSettled r now =>
    match inflight s with
    | O => s
    | S n => mkSched (refreshPositions_resume r now (dashboard s)) (interval s) n
    end
  end.

(** The states visited while handling [events] in order, [s] excluded. *)
Fixpoint trace (s : State) (events : list Event) : list State :=
  match events with
  | [] => []
  | e :: events' => let s' := step s e in s' :: trace s' events'
  end.

(** Is the timer, if armed, holding an empty [favorites] array? *)
Definition snapshot_empty (s : State) : bool :=
  match interval s with
  | Some (_ :: _) => false
  | _ => true
  end.

(** At most one fetch pending, and [refreshing] set while it is. *)
Definition single_refresh (s : State) : Prop :=
  (inflight s <= 1)%nat /\
  (inflight s = 1%nat -> refreshing (dashboard s) = true).

Section WithTransport.

Context {Net : Type}.
Variable adapter : RequestConfig -> Net -> option (Response Body) * Net.

(** The component once mounted and the initial [loadDashboardData()]
    has run: the timer was armed in the first render, over the initial
    empty [favorites]. *)
Definition mount (now : Z) (w : World Net) : State :=
  mkSched (fst (loadDashboardData adapter now Dashboard.initial w))
          (autoRefresh_effect Dashboard.initial) 0.

Inductive reachable : State -> Prop :=
| reach_mount now w : reachable (mount now w)
| reach_step s e : reachable s -> reachable (step s e).

End WithTransport.

End Scheduler.

(** * SatelliteTrackingDashboard: filtered and sorted views *)

Module DerivedView.

(** JavaScript arrays are objects with identity; the heap maps a
    reference to the array's current contents. *)
Definition ref : Type := nat.
Definition Heap (T : Type) : Type := list (list T).

Definition read {T} (h : Heap T) (r : ref) : list T := nth r h [].

Definition alloc {T} (h : Heap T) (l : list T) : ref * Heap T :=
  (List.length h, (h ++ [l])%list).

Fixpoint write {T} (h : Heap T) (r : ref) (l : list T) : Heap T :=
  match h, r with
  | [], _ => []
  | _ :: h', O => l :: h'
  | x :: h', S r' => x :: write h' r' l
  end.

(** [Array.prototype.filter]: the result is a new array. *)
Definition array_filter {T} (p : T -> bool) (r : ref) (h : Heap T) : ref * Heap T :=
  alloc h (filter p (read h r)).

(** [Array.prototype.sort(compare)] is stable: an element moves in front
    of another only when [compare] puts it strictly first. *)
Fixpoint insert_sorted {T} (compare : T -> T -> Q) (x : T) (l : list T) : list T :=
  match l with
  | [] => [x]
  | y :: l' => if negb (Qle_bool (compare x y) 0)
               then y :: insert_sorted compare x l'
               else x :: y :: l'
  end.

Fixpoint sorted_copy {T} (compare : T -> T -> Q) (l : list T) : list T :=
  match l with
  | [] => []
  | x :: l' => insert_sorted compare x (sorted_copy compare l')
  end.

(** ... and it sorts the array in place and returns the same array. *)
Definition array_sort {T} (compare : T -> T -> Q) (r : ref) (h : Heap T)
  : ref * Heap T :=
  (r, write h r (sorted_copy compare (read h r))).

(** [String.prototype.includes] *)
Fixpoint includes (s sub : string) : bool :=
  if String.prefix sub s then true
  else match s with
       | EmptyString => false
       | String _ s' => includes s' sub
       end.

(** [Number.prototype.toString] on an integer. *)
Definition toString (n : Z) : string := NilZero.string_of_int (Z.to_int n).

Section Views.

Variable toLowerCase : string -> string.
Variable localeCompare : string -> string -> Q.
(** [parseInt]; [None] is [NaN]. *)
Variable parseInt : string -> option Z.

(** [x || 0] on a possibly missing number. *)
Definition or_zero (x : option Q) : Q :=
  match x with Some v => v | None => 0%Q end.

Definition position_altitude (s : Satellite) : Q :=
  or_zero (match current_position s with Some p => altitude p | None => None end).

Definition position_velocity (s : Satellite) : Q :=
  or_zero (match current_position s with Some p => velocity p | None => None end).

Definition satellite_matches (satelliteFilter : string) (satellite : Satellite) : bool :=
  includes (toLowerCase (name satellite)) (toLowerCase satelliteFilter)
  || includes (toString (norad_id satellite)) satelliteFilter.

Definition satellite_compare (satelliteSort : string) (a b : Satellite) : Q :=
  if String.eqb satelliteSort "name" then localeCompare (name a) (name b)
  else if String.eqb satelliteSort "norad_id" then inject_Z (norad_id a - norad_id b)
  else if String.eqb satelliteSort "altitude" then (position_altitude b - position_altitude a)%Q
  else if String.eqb satelliteSort "velocity" then (position_velocity b - position_velocity a)%Q
  else if String.eqb satelliteSort "added_at" then inject_Z (added_at b - added_at a)
  else 0%Q.

(** [favorites] is the reference held in the component state. *)
Definition filteredAndSortedSatellites
           (satelliteFilter satelliteSort : string)
           (favorites : ref) (h : Heap Satellite) : ref * Heap Satellite :=
  let (filtered, h) := array_filter (satellite_matches satelliteFilter) favorites h in
  array_sort (satellite_compare satelliteSort) filtered h.

Definition pass_compare (passSort : string) (a b : Pass) : Q :=
  if String.eqb passSort "start_time" then inject_Z (start_time a - start_time b)
  else if String.eqb passSort "elevation" then (max_elevation b - max_elevation a)%Q
  else if String.eqb passSort "duration" then inject_Z (duration b - duration a)
  else if String.eqb passSort "satellite" then localeCompare (satellite_name a) (satellite_name b)
  else 0%Q.

(** [pass.max_elevation >= minElevation]; [false] against [NaN]. *)
Definition elevation_at_least (minElevation : option Z) (pass : Pass) : bool :=
  match minElevation with
  | Some m => Qle_bool (inject_Z m) (max_elevation pass)
  | None => false
  end.

(** [passes] is the reference held in the component state. *)
Definition filteredAndSortedPasses
           (showOnlyVisible : bool) (passFilter passSort : string)
           (passes : ref) (h : Heap Pass) : ref * Heap Pass :=
  let filtered := passes in
  let (filtered, h) :=
    if showOnlyVisible
    then array_filter (fun pass => String.eqb (visibility pass) "visible") filtered h
    else (filtered, h) in
  let (filtered, h) :=
    if negb (String.eqb passFilter "all")
    then let minElevation := parseInt passFilter in
         array_filter (elevation_at_least minElevation) filtered h
    else (filtered, h) in
  array_sort (pass_compare passSort) filtered h.

End Views.

End DerivedView.

(** * Concrete inputs used to exercise the model *)

Module Samples.

Import HttpClient.

(** A request function that fails every time with the given status. *)
Definition always_fails (code : Z) (n : nat) : Settled unit Z * nat :=
  (Rejected code, S n).

(** A jitter source stuck at one half. *)
Definition half (k : nat) : Q := 1 # 2.

Definition iss : Satellite := mkSatellite 1 25544 "ISS" None 1000.

Definition evening_pass : Pass := mkPass "ISS" 7200000 300 (45 # 1) "visible".
Definition morning_pass : Pass := mkPass "Hubble" 3600000 240 (15 # 1) "daylight".

Definition ok (b : Body) : option (Response Body) :=
  Some (mkResponse 200 (Some b)).

Definition failing (code : Z) : option (Response Body) :=
  Some (mkResponse code None).

(** A healthy backend holding one favourite and one pass. *)
Definition healthy_backend (requestConfig : RequestConfig) (n : unit)
  : option (Response Body) * unit :=
  if String.eqb (url requestConfig) "/health"
  then (ok (mkBody (Some "healthy"%string) None None None None), n)
  else if String.eqb (url requestConfig) "/users/favorites"
  then (ok (mkBody None (Some [iss]) None None None), n)
  else (ok (mkBody None None (Some [evening_pass]) None None), n).

(** The same backend with the favorites endpoint answering 500. *)
Definition favorites_broken_backend (requestConfig : RequestConfig) (n : unit)
  : option (Response Body) * unit :=
  if String.eqb (url requestConfig) "/users/favorites"
  then (failing 500, n)
  else healthy_backend requestConfig n.


(** A backend that rejects the token on every request. *)
Definition unauthorized_backend (requestConfig : RequestConfig) (n : unit)
  : option (Response Body) * unit := (failing 401, n).

Definition signed_in : World unit :=
  mkWorld (mkBrowser (Some "header.payload.signature"%string) "/dashboard" 0) tt [].

(** A token payload whose [exp] is 2000 seconds after the epoch. *)
Definition decode_exp_2000 (t : string) : AuthService.Decoded :=
  if String.eqb t "header.payload.signature"
  then AuthService.Payload (Some (2000 # 1))
  else AuthService.Throws.

(** The stored passes array, later pass first. *)
Definition passes_ref : DerivedView.ref := 0%nat.
Definition stored_passes : DerivedView.Heap Pass := [[evening_pass; morning_pass]].

End Samples.

(** * utils/retry.js: the fixed-delay variant *)

From Stdlib Require Import Permutation Sorted.

Module RetrySimple.

Import Retry.

Section RetrySimple.

Context {St A E : Type}.
Variable status_of : E -> option Z.
Variable fn : St -> Settled A E * St.
Variable maxRetries : Z.
Variable delay : Q.

(** The loop of [retrySimple]: the loop of [retryWithBackoff] with
    [setTimeout(resolve, delay)] in place of the computed delay. *)
Fixpoint loop (fuel : nat) (attempt : Z) (lastError : option E) (s : St)
  : option (Run St A E) :=
  match fuel with
  | O => None
  | S fuel' =>
    if attempt <=? maxRetries then
      match fn s with
      | (Fulfilled v, s') => Some (mkRun (Return v) [Fulfilled v] [] s')
      | (Rejected error, s') =>
        if is_client_error status_of error then
          Some (mkRun (Throw (Some error)) [Rejected error] [] s')
        else if attempt =? maxRetries then
          Some (mkRun (Throw (Some error)) [Rejected error] [] s')
        else
          match loop fuel' (attempt + 1) (Some error) s' with
          | Some r =>
            Some (mkRun (completion r)
                        (Rejected error :: attempts r)
                        (delay :: delays r)
                        (final r))
          | None => None
          end
      end
    else Some (mkRun (Throw lastError) [] [] s)
  end.

Definition retrySimple (s : St) : option (Run St A E) :=
  loop (S (Z.to_nat (maxRetries + 1))) 0 None s.

End RetrySimple.

(** The time spent waiting: the sum of the delays. *)
Definition total_delay (l : list Q) : Q := fold_right Qplus 0%Q l.

End RetrySimple.

(** * The error text shown to the user *)

Module Failure.

Import HttpClient.

(** [error.response?.data?.error?.message || error.response?.data?.detail
     || error.message || fallback], for a body type whose two fields are
    read by [error_message] and [detail]. *)
Definition failure_message {D : Type}
           (error_message detail : D -> option string)
           (error : AxiosError D) (fallback : string) : string :=
  let body := match response error with
              | Some resp => data resp
              | None => None
              end in
  let m := Services.or_else
             (match body with Some b => error_message b | None => None end)
             (Services.or_else
                (match body with Some b => detail b | None => None end)
                (Services.or_else (Some (message error)) (Some fallback))) in
  match m with
  | Some s => s
  | None => fallback
  end.

End Failure.

(** * services/authService.js: register, login, logout, getCurrentUser,
      getToken *)

Module AuthApi.

Import HttpClient.

(** The body of a request to an auth endpoint. *)
Record Credentials : Type := mkCredentials {
  email : string;
  password : string;
  confirm_password : option string
}.

Section AuthApi.

(** The [user] object of the server; the client only passes it on. *)
Context {User Net : Type}.

(** The fields of an auth response body that the client reads. *)
Record AuthBody : Type := mkAuthBody {
  access_token : option string;
  user : option User;
  auth_error_message : option string;
  auth_detail : option string
}.

(** The transport for the auth endpoints; a [GET] carries no body. *)
Variable transport :
  RequestConfig -> option Credentials -> Net -> option (Response AuthBody) * Net.

(** [httpClient.post(path, payload)]: the interceptor chain is the one of
    [httpClient.get]; only what the transport is handed differs. *)
Definition post (path : string) (payload : Credentials) (w : World Net)
  : Settled (Response AuthBody) (AxiosError AuthBody) * World Net :=
  HttpClient.get (fun requestConfig => transport requestConfig (Some payload)) path w.

Definition get (path : string) (w : World Net)
  : Settled (Response AuthBody) (AxiosError AuthBody) * World Net :=
  HttpClient.get (fun requestConfig => transport requestConfig None) path w.

Definition failure_message (error : AxiosError AuthBody) (fallback : string) : string :=
  Failure.failure_message auth_error_message auth_detail error fallback.

(** [localStorage.setItem(key, value)] stores the string form of its
    argument: a missing [access_token] is stored as ["undefined"]. *)
Definition stored_form (value : option string) : string :=
  match value with
  | Some v => v
  | None => "undefined"
  end.

Definition store_token {N} (value : option string) (w : World N) : World N :=
  mkWorld (setItem (stored_form value) (browser w)) (net w) (requests w).

(** Destructuring a missing body throws a [TypeError]; the [catch]
    rethrows it as [new Error(error.message)]. *)
Definition cannot_destructure : string :=
  "Cannot destructure property 'access_token' of 'response.data'".

(** What [register] and [login] share: post, store the token, hand back
    [{ token, user }], or throw the extracted message. *)
Definition authenticate (path fallback : string) (payload : Credentials)
           (w : World Net)
  : Settled (option string * option User) string * World Net :=
  match post path payload w with
  | (Fulfilled resp, w') =>
    match data resp with
    | Some b => (Fulfilled (access_token b, user b), store_token (access_token b) w')
    | None => (Rejected cannot_destructure, w')
    end
  | (Rejected error, w') => (Rejected (failure_message error fallback), w')
  end.

Definition register (email password confirmPassword : string) (w : World Net) :=
  authenticate "/auth/register" "Registration failed"
               (mkCredentials email password (Some confirmPassword)) w.

Definition login (email password : string) (w : World Net) :=
  authenticate "/auth/login" "Login failed"
               (mkCredentials email password None) w.

Definition logout {N} (w : World N) : World N :=
  mkWorld (removeItem (browser w)) (net w) (requests w).

Definition getToken {N} (w : World N) : option string := getItem (browser w).

Definition getCurrentUser (w : World Net)
  : Settled (option AuthBody) string * World Net :=
  match get "/auth/me" w with
  | (Fulfilled resp, w') => (Fulfilled (data resp), w')
  | (Rejected error, w') =>
    (Rejected (failure_message error "Failed to get user profile"), w')
  end.

End AuthApi.

End AuthApi.

(** * contexts/AuthContext.js *)

Module AuthContext.

Import HttpClient.

Section AuthContext.

Context {User : Type}.

Record State : Type := mkAuth {
  user : option User;
  token : option string;
  isAuthenticated : bool;
  isLoading : bool;
  error : option string
}.

Definition initialState : State := mkAuth None None false true None.

Inductive Action : Type :=
| LOGIN_START
| LOGIN_SUCCESS (payload_user : option User) (payload_token : option string)
| LOGIN_FAILURE (payload : string)
| LOGOUT
| REGISTER_START
| REGISTER_SUCCESS (payload_user : option User) (payload_token : option string)
| REGISTER_FAILURE (payload : string)
| CLEAR_ERROR
| SET_LOADING (payload : bool).

Definition authReducer (state : State) (action : Action) : State :=
  match action with
  | LOGIN_START | REGISTER_START =>
    mkAuth (user state) (token state) (isAuthenticated state) true None
  | LOGIN_SUCCESS u t | REGISTER_SUCCESS u t =>
    mkAuth u t true false None
  | LOGIN_FAILURE m | REGISTER_FAILURE m =>
    mkAuth None None false false (Some m)
  | LOGOUT =>
    mkAuth None None false false None
  | CLEAR_ERROR =>
    mkAuth (user state) (token state) (isAuthenticated state) (isLoading state) None
  | SET_LOADING b =>
    mkAuth (user state) (token state) (isAuthenticated state) b (error state)
  end.

Definition dispatch (actions : list Action) (state : State) : State :=
  fold_left authReducer actions state.

(** Signed out means no user and no token; an error message means
    signed out. *)
Definition reducer_consistent (state : State) : Prop :=
  (isAuthenticated state = false -> token state = None /\ user state = None) /\
  (error state <> None -> isAuthenticated state = false).

(** The decoding of the token payload, as in [AuthService], and the user
    [{ id: tokenData.sub, email: tokenData.email }] built from it. *)
Variable decode : string -> AuthService.Decoded.
Variable claims_user : string -> User.

(** [loadStoredAuth], the effect run once when the provider mounts. *)
Definition loadStoredAuth (now_ms : Z) (state : State) (b : Browser)
  : State * Browser :=
  let storedToken := getItem b in
  let (state, b) :=
    if truthy storedToken then
      match storedToken with
      | None => (state, b)
      | Some t =>
        match decode t with
        | AuthService.Payload (Some exp) =>
          if AuthService.Qgtb exp (AuthService.currentTime now_ms)
          then (authReducer state (LOGIN_SUCCESS (Some (claims_user t)) (Some t)), b)
          else (state, removeItem b)
        | AuthService.Payload None => (state, removeItem b)
        | AuthService.Throws => (state, removeItem b)
        end
      end
    else (state, b) in
  (authReducer state (SET_LOADING false), b).

Section Provider.

Context {Net : Type}.
Variable transport :
  RequestConfig -> option AuthApi.Credentials -> Net
  -> option (Response (@AuthApi.AuthBody User)) * Net.

(** [error.message || fallback] *)
Definition message_or (m fallback : string) : string :=
  if String.eqb m "" then fallback else m.

(** The provider's [login]: the state after it, the world after it, and
    whether the returned promise was fulfilled. *)
Definition login (email password : string) (state : State) (w : World Net)
  : State * World Net * bool :=
  let state := authReducer state LOGIN_START in
  match AuthApi.login transport email password w with
  | (Fulfilled (t, u), w') => (authReducer state (LOGIN_SUCCESS u t), w', true)
  | (Rejected m, w') =>
    (authReducer state (LOGIN_FAILURE (message_or m "Login failed")), w', false)
  end.

Definition register (email password confirmPassword : string)
           (state : State) (w : World Net) : State * World Net * bool :=
  let state := authReducer state REGISTER_START in
  match AuthApi.register transport email password confirmPassword w with
  | (Fulfilled (t, u), w') => (authReducer state (REGISTER_SUCCESS u t), w', true)
  | (Rejected m, w') =>
    (authReducer state (REGISTER_FAILURE (message_or m "Registration failed")), w', false)
  end.

Definition logout (state : State) (w : World Net) : State * World Net :=
  (authReducer state LOGOUT, AuthApi.logout w).

(** What a user of the provider can do after it has mounted. *)
Inductive Operation : Type :=
| Login (email password : string)
| Register (email password confirmPassword : string)
| Logout
| ClearError.

Definition perform (sw : State * World Net) (op : Operation) : State * World Net :=
  let (state, w) := sw in
  match op with
  | Login e p => fst (login e p state w)
  | Register e p c => fst (register e p c state w)
  | Logout => logout state w
  | ClearError => (authReducer state CLEAR_ERROR, w)
  end.

(** The state says "signed in" only while a token is stored. *)
Definition token_backed (sw : State * World Net) : Prop :=
  isAuthenticated (fst sw) = true -> getItem (browser (snd sw)) <> None.

(** The provider mounted at time [now_ms], then used. *)
Definition started (now_ms : Z) (w : World Net) : State * World Net :=
  let (state, b) := loadStoredAuth now_ms initialState (browser w) in
  (state, mkWorld b (net w) (requests w)).

End Provider.

End AuthContext.

End AuthContext.

(** * services/satelliteService.js *)

Module SatelliteService.

Import HttpClient.

(** The fields of a search response body that the client reads. *)
Record SearchBody : Type := mkSearchBody {
  satellites : option (list Satellite);
  search_error_message : option string;
  search_detail : option string
}.

Definition search_path : string := "/satellites/search".

Section SatelliteService.

Context {Net : Type}.

(** The transport as it answers the search for the query at hand. *)
Variable adapter : RequestConfig -> Net -> option (Response SearchBody) * Net.
Variable random : nat -> Q.

(** [retryWithBackoff(() => httpClient.get('/satellites/search', ...))]
    with the default [maxRetries = 3] and [baseDelay = 1000]. *)
Definition search_request (w : World Net) :=
  HttpClient.execute adapter random 3 1000 search_path w.

Definition searchSatellites (w : World Net)
  : Settled (list Satellite) string * World Net :=
  match search_request w with
  | Some r =>
    match Retry.completion r with
    | Retry.Return resp =>
      match data resp with
      | Some b => (Fulfilled match satellites b with
                             | Some l => l
                             | None => []
                             end, Retry.final r)
      | None => (Rejected Services.no_body, Retry.final r)
      end
    | Retry.Throw (Some error) =>
      (Rejected (Failure.failure_message search_error_message search_detail
                   error "Failed to search satellites"), Retry.final r)
    | Retry.Throw None => (Rejected Services.no_body, Retry.final r)
    end
  | None => (Rejected Services.no_body, w)
  end.

End SatelliteService.

End SatelliteService.

(** * SatelliteTrackingDashboard: formatting helpers *)

Module Format.

(** [Math.floor(seconds / 60)] and [seconds % 60] on a whole number of
    seconds: the quotient rounds down, the remainder takes the sign of
    [seconds]. *)
Definition duration_minutes (seconds : Z) : Z := seconds / 60.
Definition duration_seconds (seconds : Z) : Z := Z.rem seconds 60.

Definition formatDuration (seconds : Z) : string :=
  (DerivedView.toString (duration_minutes seconds) ++ "m "
   ++ DerivedView.toString (duration_seconds seconds) ++ "s")%string.

(** [getElevationColor] *)
Definition getElevationColor (elevation : Q) : string :=
  if Qle_bool 60 elevation then "text-success"
  else if Qle_bool 30 elevation then "text-warning"
  else "text-muted".

End Format.

(** * More concrete inputs *)

Module MoreSamples.

Import HttpClient.

(** A request function that fails twice with 503 and then succeeds. *)
Definition third_time_lucky (n : nat) : Settled unit Z * nat :=
  if (n <? 2)%nat then (Rejected 503, S n) else (Fulfilled tt, S n).

(** A backend that answers every request with 429. *)
Definition rate_limited_backend (requestConfig : RequestConfig) (n : unit)
  : option (Response Body) * unit := (Samples.failing 429, n).

(** A backend whose every answer is a 503 that explains itself. *)
Definition overloaded_backend (requestConfig : RequestConfig) (n : unit)
  : option (Response Body) * unit :=
  (Some (mkResponse 503
           (Some (mkBody None None None (Some "database unavailable"%string) None))),
   n).

(** A backend that has neither collection endpoint. *)
Definition bare_backend (requestConfig : RequestConfig) (n : unit)
  : option (Response Body) * unit := (Samples.failing 404, n).

Definition signed_out : World unit :=
  mkWorld (mkBrowser None "/login" 0) tt [].

(** An auth server that accepts every sign-in and issues one token. *)
Definition accepting_server (requestConfig : RequestConfig)
           (payload : option AuthApi.Credentials) (n : unit)
  : option (Response (@AuthApi.AuthBody string)) * unit :=
  (Some (mkResponse 200
           (Some (AuthApi.mkAuthBody (Some "header.payload.signature"%string)
                                     (Some "ada@example.org"%string) None None))),
   n).

(** An auth server that rejects every sign-in with 401. *)
Definition rejecting_server (requestConfig : RequestConfig)
           (payload : option AuthApi.Credentials) (n : unit)
  : option (Response (@AuthApi.AuthBody string)) * unit :=
  (Some (mkResponse 401
           (Some (AuthApi.mkAuthBody None None None
                                     (Some "Invalid credentials"%string)))),
   n).

(** A search endpoint that does not know the query. *)
Definition no_such_search (requestConfig : RequestConfig) (n : unit)
  : option (Response SatelliteService.SearchBody) * unit :=
  (Some (mkResponse 404 None), n).

Definition hubble : Satellite :=
  mkSatellite 2 20580 "Hubble"
              (Some (mkPosition 0 0 (Some (540 # 1)) (Some (759 # 100)))) 2000.

(** The stored favorites array: ISS (no position yet), then Hubble. *)
Definition favorites_ref : DerivedView.ref := 0%nat.
Definition stored_favorites : DerivedView.Heap Satellite :=
  [[Samples.iss; hubble]].


(** Mounted with one favourite loaded; auto-refresh switched off and on
    again, which arms the timer over the [refreshPositions] of that
    render; then a click on the button, answered with an empty list. *)
Definition emptied_under_timer : Scheduler.State :=
  fold_left Scheduler.step
    [Scheduler.ToggleAutoRefresh; Scheduler.ToggleAutoRefresh;
     Scheduler.ClickRefreshPositions;
     Scheduler.PositionsSettled (Fulfilled []) 1]
    (Scheduler.mount Samples.healthy_backend 0 Samples.signed_in).

(** Stand-ins for the built-ins, for views that do not sort by name:
    lower-case text is its own lower case, and only "30" is parsed. *)
Definition same_text (s : string) : string := s.
Definition no_collation (a b : string) : Q := 0.
Definition parse_thirty (s : string) : option Z :=
  if String.eqb s "30" then Some 30 else None.

End MoreSamples.

(** * Properties *)

Unset Implicit Arguments.

(** ** Rounding to a double *)

Section DoubleFacts.

Import Double.

Lemma nearest_even_between (A B : Z) (x : Q) :
  (inject_Z A <= x)%Q -> (x <= inject_Z B)%Q ->
  A <= nearest_even x <= B.
Proof.
  intros HA HB. unfold nearest_even.
  pose proof (Qfloor_le x) as Hf. pose proof (Qlt_floor x) as Hf'.
  assert (HAf : A <= Qfloor x).
  { rewrite <- (Qfloor_Z A). now apply Qfloor_resp_le. }
  assert (HfB : Qfloor x <= B).
  { rewrite <- (Qfloor_Z B). now apply Qfloor_resp_le. }
  assert (Hup : (inject_Z (Qfloor x) < x)%Q -> Qfloor x + 1 <= B).
  { intros Hlt. assert (Hlt' : (inject_Z (Qfloor x) < inject_Z B)%Q) by lra.
    rewrite <- Zlt_Qlt in Hlt'. lia. }
  destruct (Qcompare_spec (x - inject_Z (Qfloor x)) (1 # 2)) as [He | Hl | Hg].
  - destruct (Z.even (Qfloor x)); [lia |].
    split; [lia | apply Hup; lra].
  - lia.
  - split; [lia | apply Hup; lra].
Qed.

Lemma ulp_exponent_small (j : Z) (q : Q) :
  0 <= j <= 52 -> (0 < q)%Q -> (q < inject_Z (2 ^ (53 - j)))%Q ->
  -1074 <= ulp_exponent q <= - j.
Proof.
  intros Hj Hpos Hq. unfold ulp_exponent.
  destruct (Qle_bool 1 q) eqn:Hone.
  - apply Qle_bool_iff in Hone.
    assert (H1 : 1 <= Qfloor q).
    { change 1 with (Qfloor (inject_Z 1)). now apply Qfloor_resp_le. }
    assert (H2 : Qfloor q < 2 ^ (53 - j)).
    { rewrite Zlt_Qlt. pose proof (Qfloor_le q). lra. }
    apply Z.log2_lt_pow2 in H2; lia.
  - pose proof (Z.log2_up_nonneg (Qceiling (/ q))). lia.
Qed.

Lemma pow2_pos (k : Z) : 0 <= k -> (0 < inject_Z (2 ^ k))%Q.
Proof.
  intros Hk. change 0%Q with (inject_Z 0). rewrite <- Zlt_Qlt.
  now apply Z.pow_pos_nonneg.
Qed.

Lemma round_positive_between (j A B : Z) (q : Q) :
  0 <= j <= 52 -> (0 < q)%Q -> (q < inject_Z (2 ^ (53 - j)))%Q ->
  (inject_Z A <= q * inject_Z (2 ^ j))%Q ->
  (q * inject_Z (2 ^ j) <= inject_Z B)%Q ->
  (inject_Z A <= round_positive q * inject_Z (2 ^ j))%Q /\
  (round_positive q * inject_Z (2 ^ j) <= inject_Z B)%Q.
Proof.
  intros Hj Hpos Hq HA HB.
  destruct (ulp_exponent_small j q Hj Hpos Hq) as [_ He].
  unfold round_positive. set (e := ulp_exponent q) in *.
  set (k := - e - j).
  assert (Hk : 0 <= k) by (unfold k; lia).
  assert (HT : (2 ^ (- e) == inject_Z (2 ^ j) * inject_Z (2 ^ k))%Q).
  { replace (- e) with (j + k) by (unfold k; lia).
    rewrite Qpower_plus by (intros H; discriminate H).
    rewrite !Zpower_Qpower by lia. reflexivity. }
  assert (HE : (2 ^ e == / (inject_Z (2 ^ j) * inject_Z (2 ^ k)))%Q).
  { replace e with (- - e) at 1 by lia. rewrite Qpower_opp, HT. reflexivity. }
  pose proof (pow2_pos j (proj1 Hj)) as HP. pose proof (pow2_pos k Hk) as HR.
  set (P := inject_Z (2 ^ j)) in *. set (R := inject_Z (2 ^ k)) in *.
  set (x := (q * 2 ^ (- e))%Q).
  assert (Hx : (x == q * P * R)%Q).
  { unfold x. rewrite HT. ring. }
  assert (HPR : (0 < P * R)%Q) by (apply Qmult_lt_0_compat; assumption).
  destruct (nearest_even_between (A * 2 ^ k) (B * 2 ^ k) x) as [Hlo Hhi].
  { rewrite inject_Z_mult. fold R. rewrite Hx. nra. }
  { rewrite inject_Z_mult. fold R. rewrite Hx. nra. }
  rewrite Zle_Qle, inject_Z_mult in Hlo. rewrite Zle_Qle, inject_Z_mult in Hhi.
  fold R in Hlo, Hhi. set (M := inject_Z (nearest_even x)) in *.
  assert (HM : (M * 2 ^ e * P == M / R)%Q).
  { rewrite HE. field. split; lra. }
  rewrite HM. split.
  - apply Qle_shift_div_l; [exact HR | exact Hlo].
  - apply Qle_shift_div_r; [exact HR | exact Hhi].
Qed.

Lemma round_binary64_between (j A B : Z) (q : Q) :
  0 <= j <= 52 -> (0 <= q)%Q -> (q < inject_Z (2 ^ (53 - j)))%Q ->
  (inject_Z A <= q * inject_Z (2 ^ j))%Q ->
  (q * inject_Z (2 ^ j) <= inject_Z B)%Q ->
  (inject_Z A <= round_binary64 q * inject_Z (2 ^ j))%Q /\
  (round_binary64 q * inject_Z (2 ^ j) <= inject_Z B)%Q.
Proof.
  intros Hj Hpos Hq HA HB. unfold round_binary64.
  destruct (Qcompare_spec q 0) as [H0 | Hneg | Hgt].
  - rewrite H0 in HA, HB. split; lra.
  - lra.
  - now apply round_positive_between.
Qed.

(** Whole numbers: rounding never leaves an interval between two of them
    (below 2^53 every whole number is a double). *)
Lemma round_binary64_between_integers (A B : Z) (q : Q) :
  (0 <= q)%Q -> (q < inject_Z (2 ^ 53))%Q ->
  (inject_Z A <= q)%Q -> (q <= inject_Z B)%Q ->
  (inject_Z A <= round_binary64 q)%Q /\ (round_binary64 q <= inject_Z B)%Q.
Proof.
  intros Hpos Hq HA HB.
  destruct (round_binary64_between 0 A B q) as [Hlo Hhi];
    try lia; try assumption.
  - change (inject_Z (2 ^ 0)) with 1%Q. lra.
  - change (inject_Z (2 ^ 0)) with 1%Q. lra.
  - change (inject_Z (2 ^ 0)) with 1%Q in Hlo, Hhi. split; lra.
Qed.

End DoubleFacts.

(** ** The retry loop *)

Section RetryFacts.

Import Retry.

Context {St A E : Type}.
Variable status_of : E -> option Z.
Variable fn : St -> Settled A E * St.
Variable random : nat -> Q.
Variable maxRetries : Z.
Variable baseDelay : Q.

Local Abbreviation is_client_error := (Retry.is_client_error status_of).
Local Abbreviation backoff_delay := (Retry.backoff_delay random baseDelay).
Local Abbreviation backoff_delay_double :=
  (Retry.backoff_delay_double random baseDelay).
Local Abbreviation loop := (Retry.loop status_of fn random maxRetries baseDelay).
Local Abbreviation retryWithBackoff :=
  (Retry.retryWithBackoff status_of fn random maxRetries baseDelay).
Local Abbreviation retryable_failure := (Retry.retryable_failure (A:=A) status_of).
Local Abbreviation calls := (Retry.calls fn).
Local Abbreviation maxAttempts := (Retry.maxAttempts maxRetries).

Lemma loop_total fuel attempt draw lastError s :
  (Z.to_nat (maxRetries + 1 - attempt) < fuel)%nat ->
  exists r, loop fuel attempt draw lastError s = Some r.
Proof.
  revert attempt draw lastError s.
  induction fuel as [|fuel IH]; intros attempt draw lastError s Hfuel; [lia|].
  cbn [Retry.loop].
  destruct (Z.leb_spec attempt maxRetries) as [Hle|Hgt]; [|eauto].
  destruct (fn s) as [[v|error] s']; [eauto|].
  destruct (is_client_error error); [eauto|].
  destruct (Z.eqb_spec attempt maxRetries) as [Heq|Hne]; [eauto|].
  destruct (IH (attempt + 1) (S draw) (Some error) s') as [r Hr]; [lia|].
  rewrite Hr. eauto.
Qed.

Lemma retryWithBackoff_total s : exists r, retryWithBackoff s = Some r.
Proof.
  unfold Retry.retryWithBackoff. apply loop_total. lia.
Qed.

Lemma loop_attempts_bound fuel attempt draw lastError s r :
  loop fuel attempt draw lastError s = Some r ->
  (length (attempts r) <= Z.to_nat (maxRetries + 1 - attempt))%nat.
Proof.
  revert attempt draw lastError s r.
  induction fuel as [|fuel IH]; intros attempt draw lastError s r; [discriminate|].
  cbn [Retry.loop].
  destruct (Z.leb_spec attempt maxRetries) as [Hle|Hgt].
  - destruct (fn s) as [[v|error] s'].
    + intros [= <-]. cbn. lia.
    + destruct (is_client_error error); [intros [= <-]; cbn; lia|].
      destruct (Z.eqb_spec attempt maxRetries) as [Heq|Hne];
        [intros [= <-]; cbn; lia|].
      destruct (loop fuel (attempt + 1) (S draw) (Some error) s') as [r'|] eqn:Hr';
        [|discriminate].
      intros [= <-]. cbn. apply IH in Hr'. lia.
  - intros [= <-]. cbn. lia.
Qed.

Lemma loop_attempts_are_calls fuel attempt draw lastError s r :
  loop fuel attempt draw lastError s = Some r ->
  attempts r = calls (length (attempts r)) s.
Proof.
  revert attempt draw lastError s r.
  induction fuel as [|fuel IH]; intros attempt draw lastError s r; [discriminate|].
  cbn [Retry.loop].
  destruct (attempt <=? maxRetries); [|intros [= <-]; reflexivity].
  destruct (fn s) as [[v|error] s'] eqn:Hfn.
  - intros [= <-]. cbn. rewrite Hfn. reflexivity.
  - destruct (is_client_error error);
      [intros [= <-]; cbn; rewrite Hfn; reflexivity|].
    destruct (attempt =? maxRetries);
      [intros [= <-]; cbn; rewrite Hfn; reflexivity|].
    destruct (loop fuel (attempt + 1) (S draw) (Some error) s') as [r'|] eqn:Hr';
      [|discriminate].
    intros [= <-]. cbn. rewrite Hfn. f_equal. apply (IH _ _ _ _ _ Hr').
Qed.

Lemma loop_delays_between_attempts fuel attempt draw lastError s r :
  loop fuel attempt draw lastError s = Some r ->
  length (delays r) = pred (length (attempts r)).
Proof.
  revert attempt draw lastError s r.
  induction fuel as [|fuel IH]; intros attempt draw lastError s r; [discriminate|].
  cbn [Retry.loop].
  destruct (Z.leb_spec attempt maxRetries) as [Hle|Hgt];
    [|intros [= <-]; reflexivity].
  destruct (fn s) as [[v|error] s']; [intros [= <-]; reflexivity|].
  destruct (is_client_error error); [intros [= <-]; reflexivity|].
  destruct (Z.eqb_spec attempt maxRetries) as [Heq|Hne];
    [intros [= <-]; reflexivity|].
  destruct (loop fuel (attempt + 1) (S draw) (Some error) s') as [r'|] eqn:Hr';
    [|discriminate].
  intros [= <-]. cbn. rewrite (IH _ _ _ _ _ Hr').
  (* the recursive call made at least one attempt *)
  destruct fuel as [|fuel']; [discriminate|]. cbn [Retry.loop] in Hr'.
  destruct (Z.leb_spec (attempt + 1) maxRetries) as [_|Hgt']; [|lia].
  destruct (fn s') as [[v'|error'] s''].
  - injection Hr' as <-. reflexivity.
  - destruct (is_client_error error'); [injection Hr' as <-; reflexivity|].
    destruct (attempt + 1 =? maxRetries); [injection Hr' as <-; reflexivity|].
    destruct (loop fuel' (attempt + 1 + 1) (S (S draw)) (Some error') s'');
      [injection Hr' as <-; reflexivity|discriminate].
Qed.

Lemma loop_nth_delay fuel attempt draw lastError s r :
  loop fuel attempt draw lastError s = Some r ->
  forall i d, nth_error (delays r) i = Some d ->
              d = backoff_delay (attempt + Z.of_nat i) (draw + i).
Proof.
  revert attempt draw lastError s r.
  induction fuel as [|fuel IH]; intros attempt draw lastError s r; [discriminate|].
  cbn [Retry.loop].
  destruct (attempt <=? maxRetries);
    [|intros [= <-] [|i] d; discriminate].
  destruct (fn s) as [[v|error] s']; [intros [= <-] [|i] d; discriminate|].
  destruct (is_client_error error); [intros [= <-] [|i] d; discriminate|].
  destruct (attempt =? maxRetries); [intros [= <-] [|i] d; discriminate|].
  destruct (loop fuel (attempt + 1) (S draw) (Some error) s') as [r'|] eqn:Hr';
    [|discriminate].
  intros [= <-] [|i] d; cbn.
  - intros [= <-]. rewrite Z.add_0_r, Nat.add_0_r. reflexivity.
  - intros Hd. rewrite (IH _ _ _ _ _ Hr' _ _ Hd).
    f_equal; lia.
Qed.

Lemma loop_exhausted fuel attempt draw lastError s r :
  loop fuel attempt draw lastError s = Some r ->
  attempt <= maxRetries ->
  Forall retryable_failure (attempts r) ->
  length (attempts r) = Z.to_nat (maxRetries + 1 - attempt) /\
  exists error,
    nth_error (attempts r) (Z.to_nat (maxRetries - attempt)) = Some (Rejected error) /\
    completion r = Throw (Some error).
Proof.
  revert attempt draw lastError s r.
  induction fuel as [|fuel IH]; intros attempt draw lastError s r; [discriminate|].
  cbn [Retry.loop]. intros Hloop Hle.
  destruct (Z.leb_spec attempt maxRetries) as [_|Hgt]; [|lia].
  destruct (fn s) as [[v|error] s'].
  - injection Hloop as <-. cbn. intros Hall.
    inversion Hall as [|? ? [e [He _]] _]. discriminate.
  - destruct (is_client_error error) eqn:Hclient.
    + injection Hloop as <-. cbn. intros Hall.
      inversion Hall as [|? ? [e [He Hretry]] _].
      injection He as <-. congruence.
    + destruct (Z.eqb_spec attempt maxRetries) as [Heq|Hne].
      * injection Hloop as <-. cbn. intros _. subst attempt.
        replace (maxRetries + 1 - maxRetries) with 1 by lia.
        rewrite Z.sub_diag. cbn. eauto.
      * destruct (loop fuel (attempt + 1) (S draw) (Some error) s') as [r'|] eqn:Hr';
          [|discriminate].
        injection Hloop as <-. cbn. intros Hall.
        inversion Hall as [|? ? _ Hall']; subst.
        destruct (IH _ _ _ _ _ Hr' ltac:(lia) Hall') as [Hlen [e [Hnth Hc]]].
        split.
        -- rewrite Hlen. lia.
        -- exists e. split; [|exact Hc].
           replace (Z.to_nat (maxRetries - attempt))
             with (S (Z.to_nat (maxRetries - (attempt + 1)))) by lia.
           exact Hnth.
Qed.

Lemma is_client_error_status error code :
  status_of error = Some code ->
  400 <= code < 500 -> code <> 429 ->
  is_client_error error = true.
Proof.
  intros Hs [Hlo Hhi] Hne. unfold Retry.is_client_error. rewrite Hs.
  apply andb_true_intro; split; [apply andb_true_intro; split|].
  - apply Z.leb_le; exact Hlo.
  - apply Z.ltb_lt; exact Hhi.
  - apply negb_true_iff, Z.eqb_neq; exact Hne.
Qed.

(** C1.  One call of [retryWithBackoff] terminates after at most
    [maxAttempts = maxRetries + 1] calls of [fn] (the first attempt plus
    [maxRetries] retries), the attempts being successive calls of [fn];
    and when every attempt failed with an error the loop retries, all
    [maxAttempts] attempts were made and the call throws the error of the
    final attempt. *)
Theorem retryWithBackoff_attempts_bounded (s : St) :
  exists r,
    retryWithBackoff s = Some r /\
    (List.length (attempts r) <= Z.to_nat maxAttempts)%nat /\
    attempts r = calls (List.length (attempts r)) s /\
    (0 <= maxRetries ->
     Forall retryable_failure (attempts r) ->
     List.length (attempts r) = Z.to_nat maxAttempts /\
     exists error,
       nth_error (attempts r) (Z.to_nat maxRetries) = Some (Rejected error) /\
       completion r = Throw (Some error)).
Proof.
  destruct (retryWithBackoff_total s) as [r Hr]. exists r.
  split; [exact Hr|]. unfold Retry.retryWithBackoff in Hr.
  split; [|split].
  - pose proof (@loop_attempts_bound _ _ _ _ _ _ Hr) as Hb.
    unfold Retry.maxAttempts. rewrite Z.sub_0_r in Hb. exact Hb.
  - exact (@loop_attempts_are_calls _ _ _ _ _ _ Hr).
  - intros Hpos Hall.
    destruct (@loop_exhausted _ _ _ _ _ _ Hr Hpos Hall) as [Hlen Hlast].
    rewrite !Z.sub_0_r in *. split; [exact Hlen|exact Hlast].
Qed.

Lemma loop_client_error_is_final fuel attempt draw lastError s r :
  loop fuel attempt draw lastError s = Some r ->
  forall i error,
    nth_error (attempts r) i = Some (Rejected error) ->
    is_client_error error = true ->
    S i = List.length (attempts r) /\ completion r = Throw (Some error).
Proof.
  revert attempt draw lastError s r.
  induction fuel as [|fuel IH]; intros attempt draw lastError s r; [discriminate|].
  cbn [Retry.loop].
  destruct (attempt <=? maxRetries);
    [|intros [= <-] [|i] error; discriminate].
  destruct (fn s) as [[v|error0] s'].
  - intros [= <-] [|[|i]] error; discriminate.
  - destruct (is_client_error error0) eqn:Hclient.
    + intros [= <-] [|[|i]] error; cbn; try discriminate.
      intros [= <-] _. split; reflexivity.
    + destruct (attempt =? maxRetries).
      * intros [= <-] [|[|i]] error; cbn; try discriminate.
        intros [= <-] Hc. congruence.
      * destruct (loop fuel (attempt + 1) (S draw) (Some error0) s') as [r'|] eqn:Hr';
          [|discriminate].
        intros [= <-] [|i] error; cbn.
        -- intros [= <-] Hc. congruence.
        -- intros Hnth Hc.
           destruct (IH _ _ _ _ _ Hr' i error Hnth Hc) as [Hlen Hthrown].
           split; [f_equal; exact Hlen|exact Hthrown].
Qed.

(** C2.  For a 4xx status other than 429 (400, 403, 404, ...): when the
    first attempt fails with it, [retryWithBackoff] makes that one
    attempt only, waits for nothing, and throws the error of that
    attempt; and whichever attempt fails with it is the last attempt of
    the call, whose error is thrown. *)
Theorem retryWithBackoff_client_error_not_retried (s : St) (code : Z) :
  400 <= code < 500 ->
  code <> 429 ->
  (forall error s',
     0 <= maxRetries ->
     fn s = (Rejected error, s') ->
     status_of error = Some code ->
     retryWithBackoff s
     = Some (mkRun (Throw (Some error)) [Rejected error] [] s')) /\
  (exists r,
     retryWithBackoff s = Some r /\
     forall i error,
       nth_error (attempts r) i = Some (Rejected error) ->
       status_of error = Some code ->
       S i = List.length (attempts r) /\ completion r = Throw (Some error)).
Proof.
  intros Hrange Hne. split.
  - intros error s' Hpos Hfn Hs.
    unfold Retry.retryWithBackoff. cbn [Retry.loop].
    destruct (Z.leb_spec 0 maxRetries) as [_|Hlt]; [|lia].
    rewrite Hfn, (is_client_error_status _ _ Hs Hrange Hne). reflexivity.
  - destruct (retryWithBackoff_total s) as [r Hr]. exists r.
    split; [exact Hr|]. intros i error Hnth Hs.
    apply (loop_client_error_is_final _ _ _ _ _ _ Hr i error Hnth).
    exact (is_client_error_status _ _ Hs Hrange Hne).
Qed.


(** The double computed for a delay, for a whole-number base delay and
    as long as [baseDelay * 2^attempt + 1000] stays below 2^53: at least
    [baseDelay * 2^attempt] and at most [baseDelay * 2^attempt + 1000]. *)
Lemma backoff_delay_double_bounds (b attempt : Z) (draw : nat) :
  baseDelay = inject_Z b ->
  0 <= b -> 0 <= attempt ->
  b * 2 ^ attempt + 1000 < 2 ^ 53 ->
  (0 <= random draw /\ random draw < 1)%Q ->
  (baseDelay * inject_Z (2 ^ attempt) <= backoff_delay_double attempt draw /\
   backoff_delay_double attempt draw
   <= baseDelay * inject_Z (2 ^ attempt) + 1000)%Q.
Proof.
  intros Hb Hpos Hattempt Hsmall [Hlo Hhi].
  unfold Retry.backoff_delay_double. rewrite Hb.
  pose proof (Z.pow_pos_nonneg 2 attempt ltac:(lia) Hattempt) as Hpow.
  assert (Hprod : 0 <= b * 2 ^ attempt) by nia.
  set (X := b * 2 ^ attempt) in *.
  assert (HX : (inject_Z b * inject_Z (2 ^ attempt) == inject_Z X)%Q)
    by (unfold X; rewrite inject_Z_mult; reflexivity).
  assert (HX0 : (0 <= inject_Z X)%Q)
    by (change 0%Q with (inject_Z 0); rewrite <- Zle_Qle; exact Hprod).
  assert (H53 : (inject_Z X + 1000 < inject_Z (2 ^ 53))%Q).
  { change 1000%Q with (inject_Z 1000). rewrite <- inject_Z_plus, <- Zlt_Qlt.
    exact Hsmall. }
  destruct (round_binary64_between_integers
              X X (inject_Z b * inject_Z (2 ^ attempt))) as [Ha Ha'];
    try lra.
  destruct (round_binary64_between_integers
              0 1000 (random draw * 1000)) as [Hj Hj'];
    try (change (inject_Z 0) with 0%Q; change (inject_Z 1000) with 1000%Q; lra).
  change (inject_Z 0) with 0%Q in Hj. change (inject_Z 1000) with 1000%Q in Hj'.
  set (left_product := Double.round_binary64 (inject_Z b * inject_Z (2 ^ attempt))) in *.
  set (jitter := Double.round_binary64 (random draw * 1000)) in *.
  destruct (round_binary64_between_integers
              X (X + 1000) (left_product + jitter)) as [Hs Hs'].
  - lra.
  - lra.
  - lra.
  - rewrite inject_Z_plus. change (inject_Z 1000) with 1000%Q. lra.
  - rewrite inject_Z_plus in Hs'. change (inject_Z 1000) with 1000%Q in Hs'.
    rewrite HX. split; [exact Hs | exact Hs'].
Qed.


End RetryFacts.


(** ** One [execute()] over the HTTP client *)

Section HttpClientFacts.

Import HttpClient.

Context {D Net : Type}.
Variable adapter : RequestConfig -> Net -> option (Response D) * Net.
Variable random : nat -> Q.
Variable maxRetries : Z.
Variable baseDelay : Q.
Variable path : string.

Local Abbreviation get := (HttpClient.get adapter path).
Local Abbreviation execute :=
  (HttpClient.execute adapter random maxRetries baseDelay path).
Local Abbreviation loop :=
  (Retry.loop (@error_status D) get random maxRetries baseDelay).

(** The number of attempts that observed a 401. *)
Local Abbreviation count_401 l := (List.length (filter (@saw_401 D) l)).

Lemma request_interceptor_keeps_retry requestConfig b :
  _retry (request_interceptor requestConfig b) = _retry requestConfig.
Proof.
  unfold request_interceptor.
  destruct (truthy (getItem b)); [|reflexivity].
  destruct (getItem b); reflexivity.
Qed.

(** The rejection interceptor keeps the response; on a first 401 it
    removes the token once, otherwise it leaves the browser alone. *)
Lemma response_rejected_effect (error : AxiosError D) b :
  _retry (config error) = false ->
  let (error', b') := response_rejected error b in
  let hit := match error_status error with Some s => s =? 401 | None => false end in
  error_status error' = error_status error /\
  removals b' = ((if hit then 1 else 0) + removals b)%nat /\
  (hit = true -> token b' = None).
Proof.
  intros Hfresh. unfold response_rejected. rewrite Hfresh.
  destruct (error_status error) as [s|] eqn:Hs; cbn [negb andb].
  - destruct (s =? 401) eqn:H401; cbn [andb].
    + unfold error_status in *. cbn.
      destruct (String.eqb (pathname b) "/login"); cbn; repeat split; auto.
    + unfold error_status in *. cbn. repeat split; auto; discriminate.
  - unfold error_status in *. cbn. repeat split; auto; discriminate.
Qed.

(** What one [httpClient.get] does to the token store. *)
Lemma get_effect w :
  let (o, w') := get w in
  removals (browser w') = ((if saw_401 o then 1 else 0) + removals (browser w))%nat /\
  (saw_401 o = true -> token (browser w') = None).
Proof.
  unfold HttpClient.get.
  set (requestConfig := request_interceptor (mkConfig path None false) (browser w)).
  assert (Hfresh : _retry requestConfig = false)
    by (unfold requestConfig; rewrite request_interceptor_keeps_retry; reflexivity).
  destruct (adapter requestConfig (net w)) as [[resp|] net'].
  - destruct (validateStatus (status resp)).
    + cbn. split; [reflexivity|discriminate].
    + match goal with
      | |- context [response_rejected ?e ?b] =>
        pose proof (response_rejected_effect e b Hfresh) as H;
          destruct (response_rejected e b) as [error' b']
      end.
      destruct H as (Hst & Hrem & Htok). cbn [saw_401 browser].
      rewrite Hst. split; assumption.
  - match goal with
    | |- context [response_rejected ?e ?b] =>
      pose proof (response_rejected_effect e b Hfresh) as H;
        destruct (response_rejected e b) as [error' b']
    end.
    destruct H as (Hst & Hrem & Htok). cbn [saw_401 browser].
    rewrite Hst. split; assumption.
Qed.

(** A 401 is a 4xx other than 429: the retry loop stops on it. *)
Lemma saw_401_is_client_error (error : AxiosError D) :
  saw_401 (Rejected (A:=Response D) error) = true ->
  Retry.is_client_error (@error_status D) error = true.
Proof.
  unfold saw_401, Retry.is_client_error.
  destruct (error_status error) as [s|]; [|discriminate].
  intros H%Z.eqb_eq. subst s. reflexivity.
Qed.

Lemma loop_invalidations fuel attempt draw lastError w r :
  loop fuel attempt draw lastError w = Some r ->
  removals (browser (Retry.final r))
  = (count_401 (Retry.attempts r) + removals (browser w))%nat /\
  (count_401 (Retry.attempts r) <= 1)%nat /\
  (count_401 (Retry.attempts r) = 1%nat -> token (browser (Retry.final r)) = None).
Proof.
  revert attempt draw lastError w r.
  induction fuel as [|fuel IH]; intros attempt draw lastError w r; [discriminate|].
  cbn [Retry.loop].
  destruct (attempt <=? maxRetries);
    [|intros [= <-]; cbn; repeat split; auto; discriminate].
  pose proof (get_effect w) as Hget.
  destruct (get w) as [[v|error] w'].
  - intros [= <-]. cbn in *. destruct Hget as [Hrem _].
    repeat split; auto; discriminate.
  - destruct Hget as [Hrem Htok].
    destruct (Retry.is_client_error (@error_status D) error) eqn:Hclient.
    + intros [= <-]. cbn [Retry.final Retry.attempts filter].
      destruct (saw_401 (Rejected error)); cbn; repeat split; auto; discriminate.
    + assert (Hno : saw_401 (Rejected (A:=Response D) error) = false).
      { destruct (saw_401 (Rejected (A:=Response D) error)) eqn:H401; [|reflexivity].
        apply saw_401_is_client_error in H401. congruence. }
      rewrite Hno in Hrem. cbn in Hrem.
      destruct (attempt =? maxRetries).
      * intros [= <-]. cbn [Retry.final Retry.attempts filter]. rewrite Hno.
        cbn. repeat split; auto; discriminate.
      * destruct (loop fuel (attempt + 1) (S draw) (Some error) w') as [r'|] eqn:Hr';
          [|discriminate].
        intros [= <-]. cbn [Retry.final Retry.attempts filter]. rewrite Hno.
        destruct (IH _ _ _ _ _ Hr') as (Hc & Hle & Ht).
        rewrite Hc, Hrem. repeat split; auto.
Qed.

(** C4.  One [execute()] removes the stored token exactly once when one
    of its attempts observed a 401 and not at all otherwise; no second
    removal can happen within the call, because the attempt that observes
    a 401 is the last one; after it the token is gone. *)
Theorem execute_invalidates_once (w : World Net) :
  exists r,
    execute w = Some r /\
    removals (browser (Retry.final r))
    = ((if existsb (@saw_401 D) (Retry.attempts r) then 1 else 0)
       + removals (browser w))%nat /\
    (count_401 (Retry.attempts r) <= 1)%nat /\
    (existsb (@saw_401 D) (Retry.attempts r) = true ->
     token (browser (Retry.final r)) = None).
Proof.
  destruct (retryWithBackoff_total (@error_status D) get random maxRetries baseDelay w)
    as [r Hr].
  exists r. split; [exact Hr|].
  destruct (loop_invalidations _ _ _ _ _ _ Hr) as (Hc & Hle & Ht).
  assert (Hex : existsb (@saw_401 D) (Retry.attempts r)
                = negb (count_401 (Retry.attempts r) =? 0)%nat).
  { clear. induction (Retry.attempts r) as [|o l IHl]; [reflexivity|].
    cbn. destruct (saw_401 o); [reflexivity|exact IHl]. }
  rewrite Hex.
  destruct (count_401 (Retry.attempts r)) as [|[|n]]; cbn in *.
  - repeat split; auto; discriminate.
  - repeat split; auto.
  - lia.
Qed.

End HttpClientFacts.

(** ** The token check *)

Section AuthServiceFacts.

Import HttpClient AuthService.

Variable decode : string -> Decoded.

Lemma Qgtb_lt (a b : Q) : Qgtb a b = true <-> (b < a)%Q.
Proof.
  unfold Qgtb. rewrite negb_true_iff. split.
  - intros H. apply Qnot_le_lt. intros Hle.
    apply Qle_bool_iff in Hle. congruence.
  - intros Hlt. destruct (Qle_bool a b) eqn:Hle; [|reflexivity].
    apply Qle_bool_iff in Hle. exfalso. exact (Qlt_not_le _ _ Hlt Hle).
Qed.

Lemma truthy_Some (t : string) : truthy (Some t) = true <-> t <> ""%string.
Proof.
  unfold truthy. rewrite negb_true_iff. split.
  - intros H ->. discriminate.
  - intros H. apply String.eqb_neq. exact H.
Qed.

(** C5.  [isAuthenticated] answers [true] exactly when a token is stored
    whose payload decodes to claims with a numeric expiry strictly
    greater than the current time, which is the double nearest to the
    clock's milliseconds divided by 1000.  For an expiry in whole seconds
    that is exactly when the clock is before the expiry: with the clock
    at the expiry, or past it, the answer is [false]. *)
Theorem isAuthenticated_iff_unexpired (now_ms : Z) (b : Browser) :
  (fst (isAuthenticated decode now_ms b) = true <->
   exists t exp,
     getItem b = Some t /\ t <> ""%string /\
     decode t = Payload (Some exp) /\
     (Double.round_binary64 (inject_Z now_ms / 1000) < exp)%Q) /\
  (forall t (seconds : Z),
     getItem b = Some t -> t <> ""%string ->
     decode t = Payload (Some (inject_Z seconds)) ->
     0 <= now_ms < 1000 * 2 ^ 43 ->
     (fst (isAuthenticated decode now_ms b) = true <-> now_ms < 1000 * seconds)).
Proof.
  assert (Hiff : fst (isAuthenticated decode now_ms b) = true <->
                 exists t exp,
                   getItem b = Some t /\ t <> ""%string /\
                   decode t = Payload (Some exp) /\
                   (Double.round_binary64 (inject_Z now_ms / 1000) < exp)%Q).
  { unfold isAuthenticated, currentTime.
    destruct (getItem b) as [t|] eqn:Hget.
    - destruct (truthy (Some t)) eqn:Htruthy; cbn [negb].
      + apply truthy_Some in Htruthy.
        destruct (decode t) as [|[exp|]] eqn:Hdec; cbn [fst].
        * split; [discriminate|].
          intros (t' & exp' & [= <-] & _ & Hd & _). congruence.
        * rewrite Qgtb_lt. split.
          -- intros Hlt. exists t, exp. auto.
          -- intros (t' & exp' & [= <-] & _ & Hd & Hlt).
             rewrite Hdec in Hd. injection Hd as <-. exact Hlt.
        * split; [discriminate|].
          intros (t' & exp' & [= <-] & _ & Hd & _). congruence.
      + cbn [fst]. split; [discriminate|].
        intros (t' & exp' & [= <-] & Hne & _).
        apply truthy_Some in Hne. congruence.
    - cbn. split; [discriminate|].
      intros (t' & exp' & Hd & _). discriminate. }
  split; [exact Hiff|].
  intros t seconds Hget Hne Hdec [Hnow Hfar].
  assert (Hclock : fst (isAuthenticated decode now_ms b) = true <->
                   (Double.round_binary64 (inject_Z now_ms / 1000)
                    < inject_Z seconds)%Q).
  { rewrite Hiff. split.
    - intros (t' & exp' & Hget' & _ & Hdec' & Hlt).
      rewrite Hget in Hget'. injection Hget' as <-.
      rewrite Hdec in Hdec'. injection Hdec' as <-. exact Hlt.
    - intros Hlt. exists t, (inject_Z seconds). auto. }
  rewrite Hclock. clear Hclock Hiff.
  set (q := (inject_Z now_ms / 1000)%Q).
  assert (Hq : (q * 1000 == inject_Z now_ms)%Q) by (unfold q; field).
  assert (Hq0 : (0 <= q)%Q).
  { assert (H : (inject_Z 0 <= inject_Z now_ms)%Q) by (rewrite <- Zle_Qle; exact Hnow).
    change (inject_Z 0) with 0%Q in H. lra. }
  assert (Hq43 : (q < inject_Z (2 ^ 43))%Q).
  { assert (H : (inject_Z now_ms < inject_Z (1000 * 2 ^ 43))%Q)
      by (rewrite <- Zlt_Qlt; exact Hfar).
    rewrite inject_Z_mult in H. change (inject_Z 1000) with 1000%Q in H. lra. }
  split.
  - intros Hlt. apply Z.lt_nge. intros Hge.
    assert (H : (inject_Z (1000 * seconds) <= inject_Z now_ms)%Q)
      by (rewrite <- Zle_Qle; exact Hge).
    rewrite inject_Z_mult in H. change (inject_Z 1000) with 1000%Q in H.
    destruct (round_binary64_between_integers seconds (2 ^ 53) q) as [Hlo _];
      try lra.
    { assert (H53 : (inject_Z (2 ^ 43) <= inject_Z (2 ^ 53))%Q)
        by (rewrite <- Zle_Qle; lia).
      lra. }
    { assert (H53 : (inject_Z (2 ^ 43) <= inject_Z (2 ^ 53))%Q)
        by (rewrite <- Zle_Qle; lia).
      lra. }
  - intros Hlt.
    assert (H : (inject_Z now_ms <= inject_Z (1000 * seconds - 1))%Q)
      by (rewrite <- Zle_Qle; lia).
    unfold Z.sub in H. rewrite inject_Z_plus, inject_Z_mult in H.
    change (inject_Z 1000) with 1000%Q in H. change (inject_Z (- (1))) with (-1)%Q in H.
    destruct (round_binary64_between 10 0 (1024 * seconds - 1) q) as [_ Hhi];
      try lia; try assumption.
    + change (inject_Z 0) with 0%Q. change (inject_Z (2 ^ 10)) with 1024%Q. lra.
    + unfold Z.sub. rewrite inject_Z_plus, inject_Z_mult.
      change (inject_Z 1024) with 1024%Q. change (inject_Z (- (1))) with (-1)%Q.
      change (inject_Z (2 ^ 10)) with 1024%Q. lra.
    + unfold Z.sub in Hhi. rewrite inject_Z_plus, inject_Z_mult in Hhi.
      change (inject_Z 1024) with 1024%Q in Hhi.
      change (inject_Z (- (1))) with (-1)%Q in Hhi.
      change (inject_Z (2 ^ 10)) with 1024%Q in Hhi. lra.
Qed.

End AuthServiceFacts.

(** ** The dashboard's refresh operations *)

Section DashboardFacts.

Import HttpClient Services Dashboard.

Context {Net : Type}.
Variable adapter : RequestConfig -> Net -> option (Response Body) * Net.

Lemma get_logs_request (path : string) (w : World Net) :
  requests (snd (HttpClient.get adapter path w)) = (requests w ++ [path])%list.
Proof.
  unfold HttpClient.get.
  destruct (adapter _ (net w)) as [[resp|] net'].
  - destruct (validateStatus (status resp)); [reflexivity|].
    destruct (response_rejected _ (browser w)); reflexivity.
  - destruct (response_rejected _ (browser w)); reflexivity.
Qed.

Lemma checkBackendHealth_requests (w : World Net) :
  requests (snd (checkBackendHealth adapter w)) = (requests w ++ ["/health"%string])%list.
Proof.
  unfold checkBackendHealth.
  pose proof (get_logs_request "/health" w) as H.
  destruct (HttpClient.get adapter "/health" w) as [[resp|e] w']; exact H.
Qed.


(** C7.  In a cycle whose probe is healthy, each collection ends up
    holding what its own fetch delivered, or [[]] if that fetch failed,
    whatever happened to the other fetch; and [lastUpdate] is set to the
    time of completion even if a fetch failed. *)
Theorem loadDashboardData_partial_failure
        (now : Z) (d : State) (w w1 w2 w3 : World Net)
        (favoritesData : Settled (list Satellite) string)
        (passesData : Settled (list Pass) string) :
  checkBackendHealth adapter w = (true, w1) ->
  getFavorites adapter w1 = (favoritesData, w2) ->
  getUpcomingPasses adapter w2 = (passesData, w3) ->
  let d' := fst (loadDashboardData adapter now d w) in
  lastUpdate d' = Some now /\
  (forall reason value,
     favoritesData = Rejected reason -> passesData = Fulfilled value ->
     favorites d' = [] /\ passes d' = value) /\
  (forall value reason,
     favoritesData = Fulfilled value -> passesData = Rejected reason ->
     favorites d' = value /\ passes d' = []).
Proof.
  intros Hprobe Hfav Hpass. unfold loadDashboardData.
  rewrite Hprobe. cbn [negb]. rewrite Hfav, Hpass.
  split; [|split].
  - destruct favoritesData, passesData; reflexivity.
  - intros reason value -> ->. split; reflexivity.
  - intros value reason -> ->. split; reflexivity.
Qed.

(** Called from the render that is current, so that the array its
    closure reads is the collection itself, [refreshPositions] returns
    at once when the collection is empty: the component state is
    unchanged and so is the world, no request has been issued. *)
Lemma refreshPositions_empty_favorites (now : Z) (d : State) (w : World Net) :
  favorites d = [] ->
  refreshPositions adapter (favorites d) now d w = (d, w).
Proof.
  intros Hempty. unfold refreshPositions, refreshPositions_begin.
  rewrite Hempty. reflexivity.
Qed.

End DashboardFacts.

(** ** Timer, button and pending fetches *)

Section SchedulerFacts.

Import HttpClient Dashboard Scheduler.

Context {Net : Type}.
Variable adapter : RequestConfig -> Net -> option (Response Body) * Net.

Lemma call_refreshPositions_empty (s : Scheduler.State) :
  call_refreshPositions [] s = s.
Proof. reflexivity. Qed.

Lemma call_refreshPositions_nonempty (favs : list Satellite) (s : Scheduler.State) :
  favs <> [] ->
  call_refreshPositions favs s
  = mkSched (setRefreshing true (dashboard s)) (interval s) (S (inflight s)).
Proof.
  intros Hne. destruct favs as [|x favs]; [congruence|reflexivity].
Qed.

Lemma click_without_favorites (s : Scheduler.State) :
  favorites (dashboard s) = [] -> step s ClickRefreshPositions = s.
Proof.
  intros Hempty. cbn [step].
  destruct (loading (dashboard s) || refreshing (dashboard s)); [reflexivity|].
  rewrite Hempty. reflexivity.
Qed.

Lemma tick_with_empty_snapshot (s : Scheduler.State) :
  interval s = Some [] -> step s Tick = s.
Proof.
  intros Hint. cbn [step]. rewrite Hint. reflexivity.
Qed.

Lemma step_keeps_single_refresh (s : Scheduler.State) (e : Event) :
  snapshot_empty s = true ->
  single_refresh s ->
  single_refresh (step s e).
Proof.
  intros Hsnap Hinv. destruct e as [| | |r now]; cbn [step].
  - (* Tick *)
    unfold snapshot_empty in Hsnap.
    destruct (interval s) as [[|x favs]|]; [exact Hinv|discriminate|exact Hinv].
  - (* ClickRefreshPositions *)
    destruct (loading (dashboard s)); cbn [orb]; [exact Hinv|].
    destruct (refreshing (dashboard s)) eqn:Hrefreshing; [exact Hinv|].
    destruct (favorites (dashboard s)) as [|x favs]; [exact Hinv|].
    destruct Hinv as [Hle Hflag]. rewrite Hrefreshing in Hflag.
    unfold single_refresh. cbn.
    assert (inflight s = 0%nat) as ->.
    { destruct (inflight s) as [|[|n]]; [reflexivity| |lia].
      specialize (Hflag eq_refl). discriminate. }
    split; [lia|reflexivity].
  - (* ToggleAutoRefresh *)
    destruct (loading (dashboard s)); exact Hinv.
  - (* PositionsSettled *)
    destruct (inflight s) as [|n] eqn:Hn; [exact Hinv|].
    destruct Hinv as [Hle _]. unfold single_refresh. cbn.
    split; [lia|]. intros ->. lia.
Qed.

Lemma trace_keeps_single_refresh (events : list Event) (s : Scheduler.State) :
  snapshot_empty s = true ->
  single_refresh s ->
  Forall (fun s' => snapshot_empty s' = true) (trace s events) ->
  Forall (fun s' => (inflight s' <= 1)%nat) (trace s events).
Proof.
  revert s. induction events as [|e events IH]; intros s Hsnap Hinv Hall.
  - constructor.
  - cbn [trace] in *. inversion Hall as [|? ? Hsnap' Hall']; subst.
    pose proof (step_keeps_single_refresh s e Hsnap Hinv) as Hinv'.
    constructor; [exact (proj1 Hinv')|].
    apply IH; assumption.
Qed.

(** C8, as the code has it.  While the armed timer's callback holds an
    empty [favorites] array (so from mount until auto-refresh is switched
    off and on again with favorites loaded), at most one positions fetch
    is pending in every state visited; a click while [refreshing] is set
    starts nothing.  [refreshPositions] itself checks nothing about
    pending fetches: a tick whose callback holds a non-empty array adds a
    pending fetch whatever is already pending. *)
Theorem single_refresh_while_snapshot_empty
        (now : Z) (w : World Net) (events : list Event) :
  (Forall (fun s => snapshot_empty s = true) (trace (mount adapter now w) events) ->
   Forall (fun s => (inflight s <= 1)%nat) (trace (mount adapter now w) events)) /\
  (forall s, refreshing (dashboard s) = true -> step s ClickRefreshPositions = s) /\
  (forall s favs, interval s = Some favs -> favs <> [] ->
                  inflight (step s Tick) = S (inflight s)).
Proof.
  split; [|split].
  - apply trace_keeps_single_refresh.
    + reflexivity.
    + split; [cbn; lia|cbn; discriminate].
  - intros s Hrefreshing. cbn [step]. rewrite Hrefreshing, orb_true_r. reflexivity.
  - intros s favs Hint Hne. cbn [step]. rewrite Hint.
    rewrite (call_refreshPositions_nonempty favs s Hne). reflexivity.
Qed.

End SchedulerFacts.

(** C8 as stated fails: after auto-refresh has been switched off and on
    again with a favourite loaded, a click starts a fetch and the next
    tick starts a second one while the first is still pending. *)
Lemma timer_tick_overlaps_manual_refresh :
  ~ (forall s : Scheduler.State,
        Scheduler.reachable Samples.healthy_backend s ->
        (Scheduler.inflight s <= 1)%nat).
Proof.
  intros Hclaim.
  specialize
    (Hclaim
       (Scheduler.step
          (Scheduler.step
             (Scheduler.step
                (Scheduler.step
                   (Scheduler.mount Samples.healthy_backend 0 Samples.signed_in)
                   Scheduler.ToggleAutoRefresh)
                Scheduler.ToggleAutoRefresh)
             Scheduler.ClickRefreshPositions)
          Scheduler.Tick)).
  assert (Hreach : Scheduler.reachable Samples.healthy_backend
                     (Scheduler.step
                        (Scheduler.step
                           (Scheduler.step
                              (Scheduler.step
                                 (Scheduler.mount Samples.healthy_backend 0 Samples.signed_in)
                                 Scheduler.ToggleAutoRefresh)
                              Scheduler.ToggleAutoRefresh)
                           Scheduler.ClickRefreshPositions)
                        Scheduler.Tick))
    by (repeat apply Scheduler.reach_step; apply Scheduler.reach_mount).
  specialize (Hclaim Hreach). vm_compute in Hclaim. lia.
Qed.

(** C10 at the failing input.  The state [emptied_under_timer] is
    reachable, its favorites collection is empty and nothing is pending.
    A click on the button returns at once, as the guard intends.  A timer
    tick does not: its callback is the [refreshPositions] of the render
    in which the timer was armed, whose [favorites] still holds the ISS,
    so it sets [refreshing] and starts a fetch; and once that fetch is
    answered the favorites collection and the time of the last update
    have changed. *)
Theorem stale_tick_fetches_for_empty_collection :
  Scheduler.reachable Samples.healthy_backend MoreSamples.emptied_under_timer /\
  Dashboard.favorites (Scheduler.dashboard MoreSamples.emptied_under_timer) = [] /\
  Scheduler.inflight MoreSamples.emptied_under_timer = 0%nat /\
  Scheduler.step MoreSamples.emptied_under_timer Scheduler.ClickRefreshPositions
  = MoreSamples.emptied_under_timer /\
  Scheduler.interval MoreSamples.emptied_under_timer = Some [Samples.iss] /\
  Scheduler.inflight
    (Scheduler.step MoreSamples.emptied_under_timer Scheduler.Tick) = 1%nat /\
  Dashboard.refreshing
    (Scheduler.dashboard
       (Scheduler.step MoreSamples.emptied_under_timer Scheduler.Tick)) = true /\
  Dashboard.favorites
    (Scheduler.dashboard
       (Scheduler.step
          (Scheduler.step MoreSamples.emptied_under_timer Scheduler.Tick)
          (Scheduler.PositionsSettled (Fulfilled [Samples.iss]) 2)))
  = [Samples.iss] /\
  Dashboard.lastUpdate (Scheduler.dashboard MoreSamples.emptied_under_timer)
  = Some 1 /\
  Dashboard.lastUpdate
    (Scheduler.dashboard
       (Scheduler.step
          (Scheduler.step MoreSamples.emptied_under_timer Scheduler.Tick)
          (Scheduler.PositionsSettled (Fulfilled [Samples.iss]) 2)))
  = Some 2.
Proof.
  split.
  - unfold MoreSamples.emptied_under_timer. cbn [fold_left].
    repeat apply Scheduler.reach_step. apply Scheduler.reach_mount.
  - repeat split; reflexivity.
Qed.

(** ** Filtered and sorted views *)

Section DerivedViewFacts.

Import DerivedView.

Variable toLowerCase : string -> string.
Variable localeCompare : string -> string -> Q.
Variable parseInt : string -> option Z.

Lemma read_alloc_old {T} (h : Heap T) (l : list T) (r : ref) :
  (r < List.length h)%nat -> read (snd (alloc h l)) r = read h r.
Proof.
  intros Hr. unfold read, alloc. cbn [snd]. apply app_nth1. exact Hr.
Qed.

Lemma read_alloc_new {T} (h : Heap T) (l : list T) :
  read (snd (alloc h l)) (fst (alloc h l)) = l.
Proof.
  unfold read, alloc. cbn [fst snd].
  rewrite app_nth2, Nat.sub_diag; [reflexivity|lia].
Qed.

Lemma length_write {T} (h : Heap T) (r : ref) (l : list T) :
  List.length (write h r l) = List.length h.
Proof.
  revert r. induction h as [|x h IH]; intros [|r]; cbn; auto.
Qed.

Lemma read_write_same {T} (h : Heap T) (r : ref) (l : list T) :
  (r < List.length h)%nat -> read (write h r l) r = l.
Proof.
  revert r. induction h as [|x h IH]; intros [|r] Hr; cbn in *; try lia.
  - reflexivity.
  - apply IH. lia.
Qed.

Lemma read_write_other {T} (h : Heap T) (r r' : ref) (l : list T) :
  r <> r' -> read (write h r l) r' = read h r'.
Proof.
  revert r r'. induction h as [|x h IH]; intros [|r] [|r'] Hne; cbn;
    try reflexivity; try congruence.
  apply IH. congruence.
Qed.

(** The satellite view never touches an array that existed before the
    call: it filters into a new array and sorts that one. *)
Lemma filteredAndSortedSatellites_keeps_store
      (satelliteFilter satelliteSort : string) (favorites : ref)
      (h : Heap Satellite) (r : ref) :
  (r < List.length h)%nat ->
  read (snd (filteredAndSortedSatellites toLowerCase localeCompare
               satelliteFilter satelliteSort favorites h)) r
  = read h r.
Proof.
  intros Hr. unfold filteredAndSortedSatellites, array_filter, array_sort.
  cbn [alloc snd]. rewrite read_write_other by lia.
  exact (read_alloc_old h _ r Hr).
Qed.

(** The pass view with a filter switched on does not either. *)
Lemma filteredAndSortedPasses_filtered_keeps_store
      (showOnlyVisible : bool) (passFilter passSort : string) (passes : ref)
      (h : Heap Pass) (r : ref) :
  showOnlyVisible = true \/ passFilter <> "all"%string ->
  (r < List.length h)%nat ->
  read (snd (filteredAndSortedPasses localeCompare parseInt
               showOnlyVisible passFilter passSort passes h)) r
  = read h r.
Proof.
  intros Hfilter Hr. unfold filteredAndSortedPasses, array_filter, array_sort.
  destruct showOnlyVisible; cbn [alloc].
  - destruct (String.eqb passFilter "all"); cbn [negb alloc snd].
    + rewrite read_write_other by lia. exact (read_alloc_old h _ r Hr).
    + rewrite read_write_other by (rewrite length_app; cbn; lia).
      rewrite <- (read_alloc_old h (filter (fun pass : Pass => String.eqb (visibility pass) "visible") (read h passes)) r Hr).
      apply (read_alloc_old (T:=Pass)). cbn. rewrite length_app. cbn. lia.
  - destruct Hfilter as [Hv|Hne]; [discriminate|].
    apply String.eqb_neq in Hne. rewrite Hne. cbn [negb alloc snd].
    rewrite read_write_other by lia. exact (read_alloc_old h _ r Hr).
Qed.

(** With no filter switched on (the initial view parameters), the array
    that is sorted in place is the stored [passes] array itself. *)
Lemma filteredAndSortedPasses_unfiltered_sorts_store
      (passSort : string) (passes : ref) (h : Heap Pass) :
  (passes < List.length h)%nat ->
  fst (filteredAndSortedPasses localeCompare parseInt false "all" passSort passes h)
  = passes /\
  read (snd (filteredAndSortedPasses localeCompare parseInt false "all"
               passSort passes h)) passes
  = sorted_copy (pass_compare localeCompare passSort) (read h passes).
Proof.
  intros Hr. unfold filteredAndSortedPasses, array_sort. cbn.
  split; [reflexivity|]. apply read_write_same. exact Hr.
Qed.

(** C9 fails on the pass view.  With the initial view parameters (no
    visibility filter, all elevations, sorted by start time) the callback
    hands back the stored array and has reordered it: stored as
    [[evening_pass; morning_pass]], it reads [[morning_pass;
    evening_pass]] afterwards. *)
Theorem filteredAndSortedPasses_sorts_stored_array :
  fst (filteredAndSortedPasses localeCompare parseInt false "all" "start_time"
         Samples.passes_ref Samples.stored_passes)
  = Samples.passes_ref /\
  read Samples.stored_passes Samples.passes_ref
  = [Samples.evening_pass; Samples.morning_pass] /\
  read (snd (filteredAndSortedPasses localeCompare parseInt false "all" "start_time"
               Samples.passes_ref Samples.stored_passes))
       Samples.passes_ref
  = [Samples.morning_pass; Samples.evening_pass].
Proof.
  repeat split.
Qed.

End DerivedViewFacts.

(** ** The properties at concrete inputs *)

(** Four failures with status 503 under [maxRetries = 3]: four attempts,
    and the 503 of the fourth is thrown. *)
Lemma retryWithBackoff_attempts_bounded_witness :
  exists r,
    Retry.retryWithBackoff Some (Samples.always_fails 503) Samples.half 3 1000 0%nat
    = Some r /\
    List.length (Retry.attempts r) = 4%nat /\
    Retry.completion r = Retry.Throw (Some 503).
Proof.
  destruct (retryWithBackoff_attempts_bounded
              Some (Samples.always_fails 503) Samples.half 3 1000 0%nat)
    as (r & Hr & _ & _ & Hexhausted).
  exists r. split; [exact Hr|].
  vm_compute in Hr. injection Hr as Hr. subst r.
  destruct Hexhausted as (Hlen & error & Hnth & Hthrown).
  - lia.
  - repeat constructor; eexists; split; reflexivity.
  - cbn in Hnth. injection Hnth as <-.
    split; [exact Hlen|exact Hthrown].
Defined.

(** A 404 on the first attempt under [maxRetries = 3]. *)
Lemma retryWithBackoff_client_error_not_retried_witness :
  Retry.retryWithBackoff Some (Samples.always_fails 404) Samples.half 3 1000 0%nat
  = Some (Retry.mkRun (Retry.Throw (Some 404)) [Rejected 404] [] 1%nat).
Proof.
  assert (Hrange : 400 <= 404 < 500) by lia.
  assert (Hne : 404 <> 429) by discriminate.
  destruct (retryWithBackoff_client_error_not_retried
              Some (Samples.always_fails 404) Samples.half 3 1000 0%nat 404
              Hrange Hne) as [Hfirst _].
  apply (Hfirst 404 1%nat).
  - lia.
  - reflexivity.
  - reflexivity.
Defined.


(** A backend answering 401: one attempt, one removal, token gone. *)
Lemma execute_invalidates_once_witness :
  exists r,
    HttpClient.execute Samples.unauthorized_backend Samples.half 3 1000
                       "/satellites/search" Samples.signed_in = Some r /\
    HttpClient.removals (HttpClient.browser (Retry.final r)) = 1%nat /\
    HttpClient.token (HttpClient.browser (Retry.final r)) = None.
Proof.
  destruct (execute_invalidates_once
              Samples.unauthorized_backend Samples.half 3 1000
              "/satellites/search" Samples.signed_in)
    as (r & Hr & Hremovals & _ & Htoken).
  exists r. split; [exact Hr|].
  vm_compute in Hr. injection Hr as Hr. subst r.
  split; [exact Hremovals|].
  apply Htoken. reflexivity.
Defined.

(** Expiry 2000 s: one millisecond before it the token is accepted, at
    exactly 2000 s it no longer is. *)
Lemma isAuthenticated_iff_unexpired_witness :
  fst (AuthService.isAuthenticated Samples.decode_exp_2000 1999999
         (HttpClient.browser Samples.signed_in)) = true /\
  fst (AuthService.isAuthenticated Samples.decode_exp_2000 2000000
         (HttpClient.browser Samples.signed_in)) = false.
Proof.
  split.
  - apply (proj2 (isAuthenticated_iff_unexpired
                    Samples.decode_exp_2000 1999999
                    (HttpClient.browser Samples.signed_in))
                 "header.payload.signature"%string 2000).
    + reflexivity.
    + discriminate.
    + reflexivity.
    + lia.
    + lia.
  - destruct (fst (AuthService.isAuthenticated Samples.decode_exp_2000 2000000
                     (HttpClient.browser Samples.signed_in))) eqn:Hanswer;
      [|reflexivity].
    exfalso.
    assert (Hbefore : 2000000 < 1000 * 2000).
    { apply (proj2 (isAuthenticated_iff_unexpired
                      Samples.decode_exp_2000 2000000
                      (HttpClient.browser Samples.signed_in))
                   "header.payload.signature"%string 2000).
      - reflexivity.
      - discriminate.
      - reflexivity.
      - lia.
      - exact Hanswer. }
    lia.
Defined.


(** Favorites answering 500 while passes succeed. *)
Lemma loadDashboardData_partial_failure_witness :
  Dashboard.favorites
    (fst (Dashboard.loadDashboardData Samples.favorites_broken_backend 42
            Dashboard.initial Samples.signed_in)) = [] /\
  Dashboard.passes
    (fst (Dashboard.loadDashboardData Samples.favorites_broken_backend 42
            Dashboard.initial Samples.signed_in)) = [Samples.evening_pass] /\
  Dashboard.lastUpdate
    (fst (Dashboard.loadDashboardData Samples.favorites_broken_backend 42
            Dashboard.initial Samples.signed_in)) = Some 42.
Proof.
  destruct (loadDashboardData_partial_failure
              Samples.favorites_broken_backend 42 Dashboard.initial
              Samples.signed_in _ _ _ _ _
              eq_refl eq_refl eq_refl)
    as (Hupdate & Hfavorites_failed & _).
  destruct (Hfavorites_failed _ _ eq_refl eq_refl) as [Hfav Hpasses].
  split; [exact Hfav|split; [exact Hpasses|exact Hupdate]].
Defined.

(** Ticks and clicks straight after mount: never more than one pending. *)
Lemma single_refresh_while_snapshot_empty_witness :
  Forall (fun s => (Scheduler.inflight s <= 1)%nat)
         (Scheduler.trace
            (Scheduler.mount Samples.healthy_backend 0 Samples.signed_in)
            [Scheduler.Tick; Scheduler.ClickRefreshPositions; Scheduler.Tick]) /\
  Scheduler.inflight
    (Scheduler.step
       (Scheduler.mkSched Dashboard.initial (Some [Samples.iss]) 1)
       Scheduler.Tick) = 2%nat.
Proof.
  destruct (single_refresh_while_snapshot_empty
              Samples.healthy_backend 0 Samples.signed_in
              [Scheduler.Tick; Scheduler.ClickRefreshPositions; Scheduler.Tick])
    as (Hquiet & _ & Htick).
  split.
  - apply Hquiet. repeat constructor.
  - apply (Htick (Scheduler.mkSched Dashboard.initial (Some [Samples.iss]) 1)
                  [Samples.iss]); [reflexivity|discriminate].
Defined.

(** * Further properties *)

(** ** The retry loops *)

Section RetryMore.

Import Retry.

Context {St A E : Type}.
Variable status_of : E -> option Z.
Variable fn : St -> Settled A E * St.
Variable random : nat -> Q.
Variable maxRetries : Z.
Variable baseDelay : Q.

Local Abbreviation is_client_error := (Retry.is_client_error status_of).
Local Abbreviation loop := (Retry.loop status_of fn random maxRetries baseDelay).
Local Abbreviation retryWithBackoff :=
  (Retry.retryWithBackoff status_of fn random maxRetries baseDelay).
Local Abbreviation retryable_failure := (Retry.retryable_failure (A:=A) status_of).

Lemma simple_loop_agrees (delay : Q) fuel attempt draw lastError s :
  match loop fuel attempt draw lastError s,
        RetrySimple.loop status_of fn maxRetries delay fuel attempt lastError s with
  | Some r, Some r' =>
    completion r' = completion r /\ attempts r' = attempts r /\
    final r' = final r /\
    List.length (delays r') = List.length (delays r) /\
    Forall (fun d => d = delay) (delays r')
  | None, None => True
  | _, _ => False
  end.
Proof.
  revert attempt draw lastError s.
  induction fuel as [|fuel IH]; intros attempt draw lastError s; [exact I|].
  cbn [Retry.loop RetrySimple.loop].
  destruct (attempt <=? maxRetries); [|cbn; auto].
  destruct (fn s) as [[v|error] s']; [cbn; auto|].
  destruct (Retry.is_client_error status_of error); [cbn; auto|].
  destruct (attempt =? maxRetries); [cbn; auto|].
  specialize (IH (attempt + 1) (S draw) (Some error) s').
  destruct (Retry.loop status_of fn random maxRetries baseDelay fuel
                       (attempt + 1) (S draw) (Some error) s') as [r|];
    destruct (RetrySimple.loop status_of fn maxRetries delay fuel
                               (attempt + 1) (Some error) s') as [r'|];
    try contradiction; [|exact I].
  destruct IH as (Hc & Ha & Hf & Hl & Hd). cbn.
  repeat split; auto; congruence.
Qed.

(** [retrySimple] calls [fn] exactly as [retryWithBackoff] does and ends
    the same way in the same state; between two attempts it waits the
    given [delay], whatever the attempt. *)
Theorem retrySimple_same_attempts_fixed_delay (delay : Q) (s : St) :
  exists r r',
    retryWithBackoff s = Some r /\
    RetrySimple.retrySimple status_of fn maxRetries delay s = Some r' /\
    completion r' = completion r /\
    attempts r' = attempts r /\
    final r' = final r /\
    List.length (delays r') = pred (List.length (attempts r')) /\
    Forall (fun d => d = delay) (delays r').
Proof.
  destruct (retryWithBackoff_total status_of fn random maxRetries baseDelay s)
    as [r Hr].
  pose proof (simple_loop_agrees delay (S (Z.to_nat (maxRetries + 1))) 0 0%nat None s)
    as Hagree.
  unfold Retry.retryWithBackoff in Hr. rewrite Hr in Hagree.
  unfold RetrySimple.retrySimple.
  destruct (RetrySimple.loop status_of fn maxRetries delay
                             (S (Z.to_nat (maxRetries + 1))) 0 None s) as [r'|];
    [|contradiction].
  destruct Hagree as (Hc & Ha & Hf & Hl & Hd).
  exists r, r'. repeat split; auto.
  rewrite Hl, Ha.
  exact (loop_delays_between_attempts status_of fn random maxRetries baseDelay
           _ _ _ _ _ _ Hr).
Qed.

Lemma loop_shape fuel attempt draw lastError s r :
  loop fuel attempt draw lastError s = Some r ->
  (forall i o, nth_error (attempts r) i = Some o ->
               (S i < List.length (attempts r))%nat -> retryable_failure o) /\
  (forall v, completion r = Return v <->
             nth_error (attempts r) (pred (List.length (attempts r)))
             = Some (Fulfilled v)) /\
  (attempt <= maxRetries -> attempts r <> [] /\ completion r <> Throw None) /\
  (maxRetries < attempt -> attempts r = [] /\ completion r = Throw lastError).
Proof.
  revert attempt draw lastError s r.
  induction fuel as [|fuel IH]; intros attempt draw lastError s r; [discriminate|].
  cbn [Retry.loop].
  assert (Hsingle : forall (o : Settled A E) (c : Completion A E) (s' : St),
             (forall v, c = Return v <-> o = Fulfilled v) ->
             c <> Throw None ->
             attempt <= maxRetries ->
             let r0 := mkRun c [o] [] s' in
             (forall i o', nth_error (attempts r0) i = Some o' ->
                           (S i < List.length (attempts r0))%nat ->
                           retryable_failure o') /\
             (forall v, completion r0 = Return v <->
                        nth_error (attempts r0) (pred (List.length (attempts r0)))
                        = Some (Fulfilled v)) /\
             (attempt <= maxRetries ->
              attempts r0 <> [] /\ completion r0 <> Throw None) /\
             (maxRetries < attempt ->
              attempts r0 = [] /\ completion r0 = Throw lastError)).
  { intros o c s' Hiff Hc Hle. cbn. split; [|split; [|split]].
    - intros i o' _ Hi. lia.
    - intros v. rewrite Hiff. split; [intros ->; reflexivity|intros [= ->]; reflexivity].
    - intros _. split; [discriminate|exact Hc].
    - lia. }
  destruct (Z.leb_spec attempt maxRetries) as [Hle|Hgt].
  - destruct (fn s) as [[v|error] s'].
    + intros [= <-]. apply Hsingle; [|discriminate|exact Hle].
      intros v'. split; [intros [= ->]; reflexivity|intros [= ->]; reflexivity].
    + destruct (Retry.is_client_error status_of error) eqn:Hclient.
      * intros [= <-]. apply Hsingle; [|discriminate|exact Hle].
        intros v'. split; discriminate.
      * destruct (Z.eqb_spec attempt maxRetries) as [Heq|Hne].
        -- intros [= <-]. apply Hsingle; [|discriminate|exact Hle].
           intros v'. split; discriminate.
        -- destruct (Retry.loop status_of fn random maxRetries baseDelay fuel
                                (attempt + 1) (S draw) (Some error) s')
             as [r'|] eqn:Hr'; [|discriminate].
           intros [= <-]. cbn [attempts completion].
           destruct (IH _ _ _ _ _ Hr') as (Hinit & Hlast & Hin & _).
           destruct (Hin ltac:(lia)) as [Hne' Hthrown].
           split; [|split; [|split]].
           ++ intros [|i] o Ho Hi.
              ** injection Ho as <-. exists error. split; [reflexivity|exact Hclient].
              ** cbn in Ho, Hi. apply (Hinit i o Ho). lia.
           ++ intros v. rewrite Hlast. cbn [List.length pred].
              destruct (attempts r') as [|o l]; [congruence|reflexivity].
           ++ intros _. split; [discriminate|exact Hthrown].
           ++ lia.
  - intros [= <-]. cbn. split; [|split; [|split]].
    + intros [|i] o Ho Hi; discriminate.
    + intros v. split; intros H; discriminate.
    + lia.
    + intros _. split; reflexivity.
Qed.

(** One call returns a value exactly when its last attempt succeeded,
    and that value is the one it returns; every earlier attempt failed
    with an error the loop retries. *)
Theorem retryWithBackoff_returns_first_success (s : St) :
  exists r,
    retryWithBackoff s = Some r /\
    (forall i o, nth_error (attempts r) i = Some o ->
                 (S i < List.length (attempts r))%nat -> retryable_failure o) /\
    (forall v, completion r = Return v <->
               nth_error (attempts r) (pred (List.length (attempts r)))
               = Some (Fulfilled v)).
Proof.
  destruct (retryWithBackoff_total status_of fn random maxRetries baseDelay s)
    as [r Hr].
  exists r. split; [exact Hr|].
  destruct (loop_shape _ _ _ _ _ _ Hr) as (Hinit & Hlast & _).
  split; assumption.
Qed.

(** [undefined] is thrown only when no attempt was made, and no attempt
    is made exactly when [maxRetries] is negative: with [maxRetries >= 0]
    the call returns what [fn] returned or throws what [fn] threw. *)
Theorem retryWithBackoff_throws_undefined_iff_negative (s : St) :
  exists r,
    retryWithBackoff s = Some r /\
    (completion r = Throw None <-> maxRetries < 0) /\
    (attempts r = [] <-> maxRetries < 0).
Proof.
  destruct (retryWithBackoff_total status_of fn random maxRetries baseDelay s)
    as [r Hr].
  exists r. split; [exact Hr|].
  destruct (loop_shape _ _ _ _ _ _ Hr) as (_ & _ & Hin & Hout).
  destruct (Z.lt_ge_cases maxRetries 0) as [Hneg|Hpos].
  - destruct (Hout Hneg) as [Ha Hc]. split; split; auto.
  - destruct (Hin Hpos) as [Ha Hc]. split; split; intros; try lia; contradiction.
Qed.

Lemma inject_pow2_succ (a : Z) :
  0 <= a -> (inject_Z (2 ^ (a + 1)) == 2 * inject_Z (2 ^ a))%Q.
Proof.
  intros Ha. rewrite Z.pow_add_r by lia. rewrite inject_Z_mult.
  change (2 ^ 1) with 2. ring.
Qed.

Lemma inject_pow2_ge1 (a : Z) : 0 <= a -> (1 <= inject_Z (2 ^ a))%Q.
Proof.
  intros Ha. change 1%Q with (inject_Z 1). rewrite <- Zle_Qle.
  pose proof (Z.pow_pos_nonneg 2 a ltac:(lia) Ha). lia.
Qed.

Lemma inject_pow2_mono (a b : Z) :
  0 <= a <= b -> (inject_Z (2 ^ a) <= inject_Z (2 ^ b))%Q.
Proof.
  intros Hab. rewrite <- Zle_Qle. apply Z.pow_le_mono_r; lia.
Qed.

Lemma loop_total_delay fuel attempt draw lastError s r :
  (0 <= baseDelay)%Q ->
  (forall k, 0 <= random k /\ random k < 1)%Q ->
  0 <= attempt ->
  loop fuel attempt draw lastError s = Some r ->
  (RetrySimple.total_delay (delays r)
   + baseDelay * inject_Z (2 ^ attempt) + 1000 * inject_Z attempt
   <= baseDelay * inject_Z (2 ^ Z.max attempt maxRetries)
      + 1000 * inject_Z (Z.max attempt maxRetries))%Q.
Proof.
  intros Hbase Hrandom. revert attempt draw lastError s r.
  induction fuel as [|fuel IH]; intros attempt draw lastError s r Hattempt;
    [discriminate|].
  cbn [Retry.loop].
  assert (Hstop : attempt <= maxRetries ->
                  (0 + baseDelay * inject_Z (2 ^ attempt) + 1000 * inject_Z attempt
                   <= baseDelay * inject_Z (2 ^ Z.max attempt maxRetries)
                      + 1000 * inject_Z (Z.max attempt maxRetries))%Q).
  { intros Hle. rewrite Z.max_r by lia.
    pose proof (inject_pow2_mono attempt maxRetries ltac:(lia)) as Hpow.
    assert (Hinj : (inject_Z attempt <= inject_Z maxRetries)%Q)
      by (rewrite <- Zle_Qle; exact Hle).
    nra. }
  destruct (Z.leb_spec attempt maxRetries) as [Hle|Hgt].
  - destruct (fn s) as [[v|error] s']; [intros [= <-]; exact (Hstop Hle)|].
    destruct (Retry.is_client_error status_of error);
      [intros [= <-]; exact (Hstop Hle)|].
    destruct (Z.eqb_spec attempt maxRetries) as [Heq|Hne];
      [intros [= <-]; exact (Hstop Hle)|].
    destruct (Retry.loop status_of fn random maxRetries baseDelay fuel
                         (attempt + 1) (S draw) (Some error) s')
      as [r'|] eqn:Hr'; [|discriminate].
    intros [= <-]. cbn [delays RetrySimple.total_delay fold_right].
    fold (RetrySimple.total_delay (delays r')).
    assert (Hnext : 0 <= attempt + 1) by lia.
    pose proof (IH _ _ _ _ _ Hnext Hr') as Hrest.
    rewrite Z.max_r in Hrest by lia. rewrite Z.max_r by lia.
    rewrite (inject_pow2_succ attempt Hattempt) in Hrest.
    rewrite inject_Z_plus in Hrest. change (inject_Z 1) with 1%Q in Hrest.
    unfold Retry.backoff_delay.
    destruct (Hrandom draw) as [_ Hhi].
    lra.
  - intros [= <-]. cbn. rewrite Z.max_l by lia. lra.
Qed.

(** With a non-negative base delay and jitter in [0, 1), the time one
    call spends waiting is at most
    [baseDelay * (2^maxRetries - 1) + 1000 * maxRetries]
    (nothing when [maxRetries] is negative): ten seconds under the
    defaults [maxRetries = 3], [baseDelay = 1000]. *)
Theorem retryWithBackoff_total_wait_bounded (s : St) :
  (0 <= baseDelay)%Q ->
  (forall k, 0 <= random k /\ random k < 1)%Q ->
  exists r,
    retryWithBackoff s = Some r /\
    (RetrySimple.total_delay (delays r)
     <= baseDelay * inject_Z (2 ^ Z.max 0 maxRetries) - baseDelay
        + 1000 * inject_Z (Z.max 0 maxRetries))%Q.
Proof.
  intros Hbase Hrandom.
  destruct (retryWithBackoff_total status_of fn random maxRetries baseDelay s)
    as [r Hr].
  exists r. split; [exact Hr|].
  pose proof (loop_total_delay _ _ _ _ _ _ Hbase Hrandom (Z.le_refl 0) Hr) as Hsum.
  change (inject_Z (2 ^ 0)) with 1%Q in Hsum.
  change (inject_Z 0) with 0%Q in Hsum.
  lra.
Qed.

(** With a base delay of at least one second (the default) and jitter in
    [0, 1), the waits never get shorter: the exact value of each delay
    expression is strictly greater than the one before it, and for a
    whole-number base delay the double computed for each wait is at
    least the one computed before it (as long as
    [baseDelay * 2^attempt + 1000] stays below 2^53). *)
Theorem retryWithBackoff_delays_never_shrink (s : St) :
  (1000 <= baseDelay)%Q ->
  (forall k, 0 <= random k /\ random k < 1)%Q ->
  exists r,
    retryWithBackoff s = Some r /\
    forall i d d',
      nth_error (delays r) i = Some d ->
      nth_error (delays r) (S i) = Some d' ->
      (d < d')%Q /\
      forall b : Z,
        baseDelay = inject_Z b ->
        b * 2 ^ (Z.of_nat i + 1) + 1000 < 2 ^ 53 ->
        (Retry.backoff_delay_double random baseDelay (Z.of_nat i) i
         <= Retry.backoff_delay_double random baseDelay (Z.of_nat i + 1) (S i))%Q.
Proof.
  intros Hbase Hrandom.
  destruct (retryWithBackoff_total status_of fn random maxRetries baseDelay s)
    as [r Hr].
  exists r. split; [exact Hr|].
  intros i d d' Hd Hd'.
  pose proof (inject_pow2_ge1 (Z.of_nat i) ltac:(lia)) as Hpow.
  pose proof (inject_pow2_succ (Z.of_nat i) ltac:(lia)) as Hsucc.
  split.
  - rewrite (loop_nth_delay status_of fn random maxRetries baseDelay
               _ _ _ _ _ _ Hr _ _ Hd).
    rewrite (loop_nth_delay status_of fn random maxRetries baseDelay
               _ _ _ _ _ _ Hr _ _ Hd').
    unfold Retry.backoff_delay.
    replace (0 + Z.of_nat (S i)) with (Z.of_nat i + 1) by lia.
    rewrite Hsucc. change (0 + Z.of_nat i) with (Z.of_nat i).
    destruct (Hrandom (0 + i)%nat) as [_ Hhi].
    destruct (Hrandom (0 + S i)%nat) as [Hlo _].
    nra.
  - intros b Hb Hsmall.
    assert (Hb1000 : 1000 <= b).
    { rewrite Hb in Hbase. change 1000%Q with (inject_Z 1000) in Hbase.
      rewrite <- Zle_Qle in Hbase. exact Hbase. }
    assert (Hpow2 : 2 ^ (Z.of_nat i + 1) = 2 * 2 ^ Z.of_nat i)
      by (rewrite Z.add_1_r, Z.pow_succ_r by lia; reflexivity).
    pose proof (Z.pow_pos_nonneg 2 (Z.of_nat i) ltac:(lia) ltac:(lia)) as Hpos.
    destruct (backoff_delay_double_bounds random baseDelay b (Z.of_nat i) i)
      as [_ Hupper]; try assumption; try lia; try nia; [apply Hrandom|].
    destruct (backoff_delay_double_bounds random baseDelay b (Z.of_nat i + 1) (S i))
      as [Hlower _]; try assumption; try lia; [apply Hrandom|].
    rewrite Hsucc in Hlower. nra.
Qed.

End RetryMore.

(** ** The HTTP client *)

Section HttpClientMore.

Import HttpClient.

Context {D Net : Type}.
Variable adapter : RequestConfig -> Net -> option (Response D) * Net.

Local Abbreviation get := (HttpClient.get adapter).

Lemma response_rejected_not_401 (error : AxiosError D) (b : Browser) :
  match error_status error with Some s => s =? 401 | None => false end = false ->
  snd (response_rejected error b) = b /\
  config (fst (response_rejected error b)) = config error /\
  response (fst (response_rejected error b)) = response error.
Proof.
  intros Hno. unfold response_rejected. rewrite Hno. cbn. auto.
Qed.

Lemma response_rejected_401 (error : AxiosError D) (b : Browser) :
  match error_status error with Some s => s =? 401 | None => false end = true ->
  _retry (config error) = false ->
  token (snd (response_rejected error b)) = None /\
  pathname (snd (response_rejected error b)) = "/login"%string /\
  message (fst (response_rejected error b)) = message error /\
  response (fst (response_rejected error b)) = response error.
Proof.
  intros Hyes Hfresh. unfold response_rejected. rewrite Hyes, Hfresh. cbn.
  destruct (String.eqb (pathname b) "/login") eqn:Hat; cbn; repeat split.
  apply String.eqb_eq. exact Hat.
Qed.

Lemma get_session_effect (path : string) (w : World Net) :
  (forall resp, fst (get path w) = Fulfilled resp ->
                200 <= status resp < 300) /\
  (forall error, fst (get path w) = Rejected error ->
                 forall s, error_status error = Some s -> ~ 200 <= s < 300) /\
  (saw_401 (fst (get path w)) = false ->
   browser (snd (get path w)) = browser w) /\
  (saw_401 (fst (get path w)) = true ->
   token (browser (snd (get path w))) = None /\
   pathname (browser (snd (get path w))) = "/login"%string).
Proof.
  unfold HttpClient.get.
  set (requestConfig := request_interceptor (mkConfig path None false) (browser w)).
  assert (Hfresh : _retry requestConfig = false)
    by (unfold requestConfig; rewrite request_interceptor_keeps_retry; reflexivity).
  assert (Hout : forall s, validateStatus s = false -> ~ 200 <= s < 300).
  { intros s Hvalid. unfold validateStatus in Hvalid.
    apply andb_false_iff in Hvalid.
    destruct Hvalid as [H|H]; [apply Z.leb_gt in H|apply Z.ltb_ge in H]; lia. }
  destruct (adapter requestConfig (net w)) as [[resp|] net'].
  - destruct (validateStatus (status resp)) eqn:Hvalid.
    + cbn. unfold validateStatus in Hvalid.
      apply andb_true_iff in Hvalid. destruct Hvalid as [Hlo Hhi].
      apply Z.leb_le in Hlo. apply Z.ltb_lt in Hhi.
      split; [|split; [|split]].
      * intros r [= <-]. lia.
      * intros e He. discriminate.
      * reflexivity.
      * discriminate.
    + set (error := mkError requestConfig (Some resp) _).
      assert (Hstatus : error_status error = Some (status resp)) by reflexivity.
      destruct (status resp =? 401) eqn:H401.
      * destruct (response_rejected_401 error (browser w)) as (Ht & Hp & _ & Hr);
          [rewrite Hstatus; exact H401|exact Hfresh|].
        destruct (response_rejected error (browser w)) as [error' b'].
        cbn in *. unfold error_status. rewrite Hr. cbn. rewrite H401.
        split; [|split; [|split]].
        -- intros r Hr'. discriminate.
        -- intros e [= <-] s. rewrite Hr. cbn. intros [= <-]. exact (Hout _ Hvalid).
        -- discriminate.
        -- intros _. split; assumption.
      * destruct (response_rejected_not_401 error (browser w)) as (Hb & _ & Hr);
          [rewrite Hstatus; exact H401|].
        destruct (response_rejected error (browser w)) as [error' b'].
        cbn in *. unfold error_status. rewrite Hr. cbn. rewrite H401.
        split; [|split; [|split]].
        -- intros r Hr'. discriminate.
        -- intros e [= <-] s. rewrite Hr. cbn. intros [= <-]. exact (Hout _ Hvalid).
        -- intros _. exact Hb.
        -- discriminate.
  - set (error := mkError requestConfig None _).
    destruct (response_rejected_not_401 error (browser w)) as (Hb & _ & Hr);
      [reflexivity|].
    destruct (response_rejected error (browser w)) as [error' b'].
    cbn in *. unfold error_status. rewrite Hr. cbn.
    split; [|split; [|split]].
    + intros r Hr'. discriminate.
    + intros e [= <-] s. rewrite Hr. discriminate.
    + intros _. exact Hb.
    + discriminate.
Qed.

(** A request resolves only with a 2xx status and then leaves the token
    store and the location alone; a rejection carries no response or a
    status outside 2xx.  Whatever the outcome, the browser changes only
    when the response was a 401, and then the token is gone and the
    location is [/login]. *)
Theorem get_touches_session_only_on_401 (path : string) (w : World Net) :
  (forall resp, fst (get path w) = Fulfilled resp ->
                200 <= status resp < 300) /\
  (forall error, fst (get path w) = Rejected error ->
                 forall s, error_status error = Some s -> ~ 200 <= s < 300) /\
  (saw_401 (fst (get path w)) = false ->
   browser (snd (get path w)) = browser w) /\
  (saw_401 (fst (get path w)) = true ->
   token (browser (snd (get path w))) = None /\
   pathname (browser (snd (get path w))) = "/login"%string).
Proof.
  exact (get_session_effect path w).
Qed.

(** The text a rejected request carries: the connection message when no
    response arrived, the rate-limit message for 429 and the server
    message for 500 and above, whatever text the error had before. *)
Theorem get_rejection_message (path : string) (w : World Net) (error : AxiosError D) :
  fst (get path w) = Rejected error ->
  (error_status error = None ->
   message error
   = "Network error. Please check your internet connection."%string) /\
  (error_status error = Some 429 ->
   message error
   = "Too many requests. Please wait a moment and try again."%string) /\
  (forall s, error_status error = Some s -> 500 <= s ->
             message error = "Server error. Please try again later."%string).
Proof.
  unfold HttpClient.get.
  set (requestConfig := request_interceptor (mkConfig path None false) (browser w)).
  assert (Hfresh : _retry requestConfig = false)
    by (unfold requestConfig; rewrite request_interceptor_keeps_retry; reflexivity).
  destruct (adapter requestConfig (net w)) as [[resp|] net'].
  - destruct (validateStatus (status resp)) eqn:Hvalid; [discriminate|].
    unfold response_rejected, error_status. cbn. rewrite Hfresh. cbn.
    destruct (Z.eqb_spec (status resp) 401) as [H401|H401]; cbn.
    + intros [= <-]. cbn. rewrite H401.
      split; [discriminate|]. split; [discriminate|].
      intros s [= <-]. lia.
    + intros [= <-]. cbn.
      split; [discriminate|]. split.
      * intros [= ->]. reflexivity.
      * intros s [= <-] Hs.
        destruct (Z.eqb_spec (status resp) 429) as [H429|_]; [lia|].
        destruct (Z.leb_spec 500 (status resp)); [reflexivity|lia].
  - unfold response_rejected, error_status. cbn. intros [= <-]. cbn.
    split; [reflexivity|]. split; [discriminate|discriminate].
Qed.

(** The [Authorization] header is ["Bearer " ++ token] exactly when a
    non-empty token is stored; in particular the request that follows a
    401 goes out without one. *)
Theorem request_carries_token_until_401
        (path : string) (w : World Net) (requestConfig : RequestConfig) :
  (forall t, getItem (browser w) = Some t -> t <> ""%string ->
             request_interceptor requestConfig (browser w)
             = mkConfig (url requestConfig) (Some ("Bearer " ++ t)%string)
                        (_retry requestConfig)) /\
  (saw_401 (fst (get path w)) = true ->
   request_interceptor requestConfig (browser (snd (get path w))) = requestConfig).
Proof.
  split.
  - intros t Hget Hne. unfold request_interceptor. rewrite Hget.
    rewrite (proj2 (truthy_Some t) Hne). reflexivity.
  - intros H401.
    destruct (get_session_effect path w) as (_ & _ & _ & Hgone).
    destruct (Hgone H401) as [Htoken _].
    unfold request_interceptor, getItem. rewrite Htoken. reflexivity.
Qed.

Variable random : nat -> Q.
Variable maxRetries : Z.
Variable baseDelay : Q.

Lemma get_appends_request (path : string) (w : World Net) :
  requests (snd (get path w)) = (requests w ++ [path])%list.
Proof.
  unfold HttpClient.get.
  destruct (adapter _ (net w)) as [[resp|] net'].
  - destruct (validateStatus (status resp)); [reflexivity|].
    destruct (response_rejected _ (browser w)); reflexivity.
  - destruct (response_rejected _ (browser w)); reflexivity.
Qed.

Lemma loop_requests (path : string) fuel attempt draw lastError w r :
  Retry.loop (@error_status D) (get path) random maxRetries baseDelay
             fuel attempt draw lastError w = Some r ->
  requests (Retry.final r)
  = (requests w ++ repeat path (List.length (Retry.attempts r)))%list.
Proof.
  revert attempt draw lastError w r.
  induction fuel as [|fuel IH]; intros attempt draw lastError w r; [discriminate|].
  cbn [Retry.loop].
  destruct (attempt <=? maxRetries);
    [|intros [= <-]; cbn; rewrite app_nil_r; reflexivity].
  pose proof (get_appends_request path w) as Hlog.
  destruct (get path w) as [[v|error] w']; cbn [snd] in Hlog.
  - intros [= <-]. exact Hlog.
  - destruct (Retry.is_client_error (@error_status D) error);
      [intros [= <-]; exact Hlog|].
    destruct (attempt =? maxRetries); [intros [= <-]; exact Hlog|].
    destruct (Retry.loop (@error_status D) (get path) random maxRetries baseDelay
                         fuel (attempt + 1) (S draw) (Some error) w')
      as [r'|] eqn:Hr'; [|discriminate].
    intros [= <-]. cbn. rewrite (IH _ _ _ _ _ Hr'), Hlog, <- app_assoc.
    reflexivity.
Qed.

(** Each attempt of one [execute()] is one request to the same path, and
    nothing else is requested. *)
Theorem execute_requests_one_per_attempt (path : string) (w : World Net) :
  exists r,
    HttpClient.execute adapter random maxRetries baseDelay path w = Some r /\
    requests (Retry.final r)
    = (requests w ++ repeat path (List.length (Retry.attempts r)))%list /\
    (List.length (Retry.attempts r) <= Z.to_nat (maxRetries + 1))%nat.
Proof.
  destruct (retryWithBackoff_total (@error_status D) (get path) random
              maxRetries baseDelay w) as [r Hr].
  exists r. split; [exact Hr|]. split.
  - exact (loop_requests _ _ _ _ _ _ _ Hr).
  - pose proof (loop_attempts_bound _ _ _ _ _ _ _ _ _ _ _ Hr) as Hb.
    rewrite Z.sub_0_r in Hb. exact Hb.
Qed.

End HttpClientMore.

(** ** Signing in and out *)

Section AuthServiceMore.

Import HttpClient AuthService.

Variable decode : string -> Decoded.

(** [isAuthenticated] writes to the store in one case only: it removes a
    stored token whose payload cannot be decoded.  A token that decodes
    stays, expired or not.  Asking again at the same time gives the same
    answer and changes nothing further. *)
Theorem isAuthenticated_only_drops_undecodable (now_ms : Z) (b : Browser) :
  (snd (isAuthenticated decode now_ms b) = b \/
   (exists t, getItem b = Some t /\ t <> ""%string /\ decode t = Throws) /\
   snd (isAuthenticated decode now_ms b) = removeItem b /\
   fst (isAuthenticated decode now_ms b) = false) /\
  (forall t exp, getItem b = Some t -> decode t = Payload exp ->
                 snd (isAuthenticated decode now_ms b) = b) /\
  isAuthenticated decode now_ms (snd (isAuthenticated decode now_ms b))
  = isAuthenticated decode now_ms b.
Proof.
  unfold isAuthenticated.
  destruct (getItem b) as [t|] eqn:Hget.
  - destruct (truthy (Some t)) eqn:Htruthy; cbn [negb].
    + destruct (decode t) as [|[exp|]] eqn:Hdec; cbn [fst snd].
      * split; [|split].
        -- right. split; [|split; reflexivity].
           exists t. split; [reflexivity|]. split; [|exact Hdec].
           apply truthy_Some. exact Htruthy.
        -- intros t' exp' [= <-]. congruence.
        -- reflexivity.
      * split; [left; reflexivity|]. split; [reflexivity|].
        rewrite Hget, Htruthy. cbn [negb]. rewrite Hdec. reflexivity.
      * split; [left; reflexivity|]. split; [reflexivity|].
        rewrite Hget, Htruthy. cbn [negb]. rewrite Hdec. reflexivity.
    + cbn [fst snd]. split; [left; reflexivity|]. split; [reflexivity|].
      rewrite Hget, Htruthy. reflexivity.
  - cbn. split; [left; reflexivity|]. split; [reflexivity|].
    rewrite Hget. reflexivity.
Qed.

End AuthServiceMore.

Section AuthApiMore.

Import HttpClient.

Context {User Net : Type}.
Variable transport :
  RequestConfig -> option AuthApi.Credentials -> Net
  -> option (Response (@AuthApi.AuthBody User)) * Net.

Lemma authenticate_fulfilled path fallback payload (w w' : World Net) t u :
  AuthApi.authenticate transport path fallback payload w = (Fulfilled (t, u), w') ->
  AuthApi.getToken w' = Some (AuthApi.stored_form t) /\
  pathname (browser w') = pathname (browser w) /\
  requests w' = (requests w ++ [path])%list.
Proof.
  unfold AuthApi.authenticate, AuthApi.post.
  pose proof (get_session_effect
                (fun requestConfig => transport requestConfig (Some payload))
                path w) as (_ & _ & Hkeep & _).
  pose proof (get_appends_request
                (fun requestConfig => transport requestConfig (Some payload))
                path w) as Hlog.
  destruct (HttpClient.get _ path w) as [[resp|error] w1]; [|discriminate].
  destruct (data resp) as [body|]; [|discriminate].
  intros [= <- <- <-]. cbn in *. specialize (Hkeep eq_refl).
  rewrite Hkeep. auto.
Qed.

Lemma authenticate_rejected path fallback payload (w w' : World Net) m :
  AuthApi.authenticate transport path fallback payload w = (Rejected m, w') ->
  match fst (transport (request_interceptor (mkConfig path None false) (browser w))
                       (Some payload) (net w)) with
  | Some answer =>
    if status answer =? 401
    then token (browser w') = None /\
         pathname (browser w') = "/login"%string /\
         removals (browser w') = S (removals (browser w))
    else browser w' = browser w
  | None => browser w' = browser w
  end.
Proof.
  unfold AuthApi.authenticate, AuthApi.post, HttpClient.get.
  set (requestConfig := request_interceptor (mkConfig path None false) (browser w)).
  assert (Hfresh : _retry requestConfig = false)
    by (unfold requestConfig; rewrite request_interceptor_keeps_retry; reflexivity).
  destruct (transport requestConfig (Some payload) (net w)) as [[answer|] net'];
    cbn [fst].
  - destruct (validateStatus (status answer)) eqn:Hvalid.
    + destruct (data answer) as [body|]; [discriminate|].
      intros [= _ <-]. cbn [browser].
      destruct (Z.eqb_spec (status answer) 401) as [H401|_]; [|reflexivity].
      rewrite H401 in Hvalid. discriminate Hvalid.
    + set (error := mkError requestConfig (Some answer) _).
      assert (Hstatus : error_status error = Some (status answer)) by reflexivity.
      destruct (status answer =? 401) eqn:H401.
      * destruct (response_rejected_401 error (browser w)) as (Ht & Hp & _);
          [rewrite Hstatus; exact H401|exact Hfresh|].
        pose proof (response_rejected_effect error (browser w) Hfresh) as Heffect.
        destruct (response_rejected error (browser w)) as [error' b'].
        rewrite Hstatus, H401 in Heffect. destruct Heffect as (_ & Hremovals & _).
        cbn [snd] in Ht, Hp. intros [= _ <-]. cbn [browser].
        split; [exact Ht|]. split; [exact Hp|exact Hremovals].
      * destruct (response_rejected_not_401 error (browser w)) as (Hb & _);
          [rewrite Hstatus; exact H401|].
        destruct (response_rejected error (browser w)) as [error' b'].
        cbn [snd] in Hb. intros [= _ <-]. exact Hb.
  - set (error := mkError requestConfig None _).
    destruct (response_rejected_not_401 error (browser w)) as (Hb & _);
      [reflexivity|].
    destruct (response_rejected error (browser w)) as [error' b'].
    cbn [snd] in Hb. intros [= _ <-]. exact Hb.
Qed.

(** A fulfilled [login] leaves the server's [access_token] in the store
    (the text ["undefined"] when the body had none): [getToken] returns
    it, the next request carries it as a bearer token, and after
    [logout] nothing is stored.  Exactly one request was sent. *)
Theorem login_stores_token_logout_clears
        (email password : string) (w w' : World Net)
        (t : option string) (u : option User) :
  AuthApi.login transport email password w = (Fulfilled (t, u), w') ->
  AuthApi.getToken w' = Some (AuthApi.stored_form t) /\
  (forall requestConfig,
     AuthApi.stored_form t <> ""%string ->
     Authorization (request_interceptor requestConfig (browser w'))
     = Some ("Bearer " ++ AuthApi.stored_form t)%string) /\
  AuthApi.getToken (AuthApi.logout w') = None /\
  requests w' = (requests w ++ ["/auth/login"%string])%list.
Proof.
  intros Hlogin. unfold AuthApi.login in Hlogin.
  destruct (authenticate_fulfilled _ _ _ _ _ _ _ Hlogin) as (Htoken & _ & Hlog).
  split; [exact Htoken|]. split; [|split; [reflexivity|exact Hlog]].
  intros requestConfig Hne. unfold request_interceptor.
  unfold AuthApi.getToken in Htoken. rewrite Htoken.
  rewrite (proj2 (truthy_Some _) Hne). reflexivity.
Qed.

(** A rejected [login] or [register] stores nothing.  Unless the server
    answered the request with status 401 the browser is exactly as
    before; when it did answer 401, the token that was stored has been
    removed (one [removeItem]) and the location is [/login]. *)
Theorem failed_sign_in_stores_nothing
        (email password confirmPassword : string) (w w' : World Net) (m : string) :
  (AuthApi.login transport email password w = (Rejected m, w') ->
   match fst (transport
                (request_interceptor (mkConfig "/auth/login" None false) (browser w))
                (Some (AuthApi.mkCredentials email password None)) (net w)) with
   | Some answer =>
     if status answer =? 401
     then token (browser w') = None /\
          pathname (browser w') = "/login"%string /\
          removals (browser w') = S (removals (browser w))
     else browser w' = browser w
   | None => browser w' = browser w
   end) /\
  (AuthApi.register transport email password confirmPassword w = (Rejected m, w') ->
   match fst (transport
                (request_interceptor (mkConfig "/auth/register" None false) (browser w))
                (Some (AuthApi.mkCredentials email password (Some confirmPassword)))
                (net w)) with
   | Some answer =>
     if status answer =? 401
     then token (browser w') = None /\
          pathname (browser w') = "/login"%string /\
          removals (browser w') = S (removals (browser w))
     else browser w' = browser w
   | None => browser w' = browser w
   end).
Proof.
  split; intros H; exact (authenticate_rejected _ _ _ _ _ _ H).
Qed.

End AuthApiMore.

Section AuthContextMore.

Import HttpClient AuthContext.

Context {User : Type}.

(** Whatever actions are dispatched from the initial state, a signed-out
    state holds neither user nor token, and an error message is only
    ever present in a signed-out state. *)
Theorem authReducer_keeps_state_consistent (actions : list (@Action User)) :
  reducer_consistent (dispatch actions initialState).
Proof.
  unfold dispatch.
  assert (Hgen : forall state : @State User,
             reducer_consistent state ->
             reducer_consistent (fold_left authReducer actions state)).
  { induction actions as [|action actions IH]; intros state Hinv; [exact Hinv|].
    cbn [fold_left]. apply IH. destruct Hinv as [Hout Herr].
    destruct action; cbn; split; cbn; intros H;
      try discriminate; try congruence; auto. }
  apply Hgen. split; cbn; [auto|congruence].
Qed.

Variable decode : string -> AuthService.Decoded.
Variable claims_user : string -> User.

Lemma loadStoredAuth_effect (now_ms : Z) (b : Browser) :
  let result := loadStoredAuth decode claims_user now_ms initialState b in
  isAuthenticated (fst result)
  = fst (AuthService.isAuthenticated decode now_ms b) /\
  isAuthenticated (fst result) = truthy (getItem (snd result)) /\
  isLoading (fst result) = false /\
  (isAuthenticated (fst result) = true ->
   token (fst result) = getItem b /\ snd result = b).
Proof.
  unfold loadStoredAuth, AuthService.isAuthenticated.
  destruct (getItem b) as [t|] eqn:Hget.
  - destruct (truthy (Some t)) eqn:Htruthy; cbn [negb].
    + destruct (decode t) as [|[exp|]]; cbn.
      * repeat split; discriminate.
      * destruct (AuthService.Qgtb exp (AuthService.currentTime now_ms)); cbn.
        -- rewrite Hget, Htruthy. repeat split.
        -- repeat split; discriminate.
      * repeat split; discriminate.
    + cbn. rewrite Hget, Htruthy. repeat split; discriminate.
  - cbn. rewrite Hget. repeat split; discriminate.
Qed.

(** At start-up the provider restores the session exactly when
    [AuthService.isAuthenticated] would accept the stored token; unlike
    that function it also removes a token that has expired or carries no
    expiry.  Afterwards the state says "signed in" exactly when a
    non-empty token is still stored, and loading has ended. *)
Theorem loadStoredAuth_restores_valid_session (now_ms : Z) (b : Browser) :
  let result := loadStoredAuth decode claims_user now_ms initialState b in
  isAuthenticated (fst result)
  = fst (AuthService.isAuthenticated decode now_ms b) /\
  isAuthenticated (fst result) = truthy (getItem (snd result)) /\
  isLoading (fst result) = false /\
  (isAuthenticated (fst result) = true ->
   token (fst result) = getItem b /\ snd result = b) /\
  (forall t exp, getItem b = Some t -> t <> ""%string ->
                 decode t = AuthService.Payload exp ->
                 isAuthenticated (fst result) = false ->
                 getItem (snd result) = None).
Proof.
  destruct (loadStoredAuth_effect now_ms b) as (H1 & H2 & H3 & H4).
  cbn zeta. repeat (split; [assumption|]).
  intros t exp Hget Hne Hdec.
  apply truthy_Some in Hne.
  unfold loadStoredAuth. rewrite Hget, Hne, Hdec.
  destruct exp as [exp|]; cbn.
  - destruct (AuthService.Qgtb exp (AuthService.currentTime now_ms)); cbn;
      [discriminate|reflexivity].
  - reflexivity.
Qed.

Context {Net : Type}.
Variable transport :
  RequestConfig -> option AuthApi.Credentials -> Net
  -> option (Response (@AuthApi.AuthBody User)) * Net.

Lemma perform_keeps_token_backed (sw : State * World Net) (op : Operation) :
  token_backed sw -> token_backed (perform transport sw op).
Proof.
  destruct sw as [state w]. unfold token_backed. cbn [fst snd].
  intros Hinv. destruct op as [e p|e p c| |]; cbn [perform].
  - unfold login.
    destruct (AuthApi.login transport e p w) as [[[t u]|m] w'] eqn:Hlogin; cbn.
    + intros _. unfold AuthApi.login in Hlogin.
      destruct (authenticate_fulfilled _ _ _ _ _ _ _ _ Hlogin) as (Htoken & _).
      unfold AuthApi.getToken in Htoken. rewrite Htoken. discriminate.
    + discriminate.
  - unfold register.
    destruct (AuthApi.register transport e p c w) as [[[t u]|m] w'] eqn:Hreg; cbn.
    + intros _. unfold AuthApi.register in Hreg.
      destruct (authenticate_fulfilled _ _ _ _ _ _ _ _ Hreg) as (Htoken & _).
      unfold AuthApi.getToken in Htoken. rewrite Htoken. discriminate.
    + discriminate.
  - cbn. discriminate.
  - cbn. exact Hinv.
Qed.

(** From start-up on, through any sequence of logins, registrations,
    logouts and error dismissals, the provider's state says "signed in"
    only while a token is stored. *)
Theorem provider_signed_in_only_with_token
        (now_ms : Z) (w : World Net) (ops : list Operation) :
  token_backed
    (fold_left (perform transport) ops
               (started decode claims_user now_ms w)).
Proof.
  assert (Hgen : forall sw, token_backed sw ->
                            token_backed (fold_left (perform transport) ops sw)).
  { induction ops as [|op ops IH]; intros sw Hinv; [exact Hinv|].
    cbn [fold_left]. apply IH. apply perform_keeps_token_backed. exact Hinv. }
  apply Hgen. unfold started, token_backed.
  destruct (loadStoredAuth_effect now_ms (browser w)) as (_ & Htruthy & _).
  destruct (loadStoredAuth decode claims_user now_ms initialState (browser w))
    as [state b']. cbn in *. intros Hauth. rewrite Hauth in Htruthy.
  destruct (getItem b'); [discriminate|discriminate].
Qed.

End AuthContextMore.

(** ** Services over the client *)

Section ServicesMore.

Import HttpClient Services.

Context {Net : Type}.
Variable adapter : RequestConfig -> Net -> option (Response Body) * Net.

(** The request as the transport sees it. *)
Local Abbreviation outgoing path w :=
  (request_interceptor (mkConfig path None false) (browser w)).

Lemma get_rejected_with (path : string) (w : World Net)
      (resp : Response Body) (net' : Net) :
  adapter (outgoing path w) (net w) = (Some resp, net') ->
  validateStatus (status resp) = false ->
  exists error w',
    HttpClient.get adapter path w = (Rejected error, w') /\
    response error = Some resp /\
    (status resp <> 401 ->
     browser w' = browser w /\
     message error
     = if status resp =? 429
       then "Too many requests. Please wait a moment and try again."%string
       else if 500 <=? status resp
       then "Server error. Please try again later."%string
       else ("Request failed with status code "
               ++ NilZero.string_of_int (Z.to_int (status resp)))%string).
Proof.
  intros Hadapter Hvalid. unfold HttpClient.get. rewrite Hadapter, Hvalid.
  unfold response_rejected, error_status. cbn.
  rewrite request_interceptor_keeps_retry. cbn.
  destruct (status resp =? 401) eqn:H401; cbn.
  - eexists _, _. split; [reflexivity|]. split; [reflexivity|].
    apply Z.eqb_eq in H401. congruence.
  - eexists _, _. split; [reflexivity|]. split; [reflexivity|].
    intros _. split; [reflexivity|].
    destruct (status resp =? 429); [reflexivity|].
    destruct (500 <=? status resp); reflexivity.
Qed.

(** A 404 from either collection endpoint, and a 422 from the passes
    endpoint, reads as an empty collection and leaves the browser alone;
    a 422 from the favorites endpoint is a failure. *)
Theorem missing_endpoint_reads_as_empty
        (w : World Net) (resp : Response Body) (net' : Net) :
  (adapter (outgoing "/users/passes" w) (net w) = (Some resp, net') ->
   status resp = 404 \/ status resp = 422 ->
   fst (getUpcomingPasses adapter w) = Fulfilled [] /\
   browser (snd (getUpcomingPasses adapter w)) = browser w) /\
  (adapter (outgoing "/users/favorites" w) (net w) = (Some resp, net') ->
   (status resp = 404 ->
    fst (getFavorites adapter w) = Fulfilled [] /\
    browser (snd (getFavorites adapter w)) = browser w) /\
   (status resp = 422 ->
    exists reason, fst (getFavorites adapter w) = Rejected reason)).
Proof.
  split.
  - intros Hadapter Hstatus.
    destruct (get_rejected_with "/users/passes" w resp net' Hadapter)
      as (error & w' & Hget & Hresp & Hrest);
      [destruct Hstatus as [-> | ->]; reflexivity|].
    destruct Hrest as [Hbrowser _]; [destruct Hstatus as [-> | ->]; discriminate|].
    unfold getUpcomingPasses. rewrite Hget. unfold error_status. rewrite Hresp. cbn [option_map].
    destruct Hstatus as [-> | ->]; cbn; auto.
  - intros Hadapter. split.
    + intros Hstatus.
      destruct (get_rejected_with "/users/favorites" w resp net' Hadapter)
        as (error & w' & Hget & Hresp & Hrest); [rewrite Hstatus; reflexivity|].
      destruct Hrest as [Hbrowser _]; [rewrite Hstatus; discriminate|].
      unfold getFavorites. rewrite Hget. unfold error_status. rewrite Hresp. cbn [option_map].
      rewrite Hstatus. cbn. auto.
    + intros Hstatus.
      destruct (get_rejected_with "/users/favorites" w resp net' Hadapter)
        as (error & w' & Hget & Hresp & _); [rewrite Hstatus; reflexivity|].
      unfold getFavorites. rewrite Hget. unfold error_status. rewrite Hresp. cbn [option_map].
      rewrite Hstatus. cbn. eauto.
Qed.

(** When the favorites endpoint answers with a status of 500 or above,
    the reason [getFavorites] rejects with is the server's own
    [error.message] if the body has a non-empty one, else the body's
    non-empty [detail], else the interceptor's "Server error" text; the
    fallback text of the service is not used. *)
Theorem getFavorites_failure_reason
        (w : World Net) (resp : Response Body) (net' : Net) :
  adapter (outgoing "/users/favorites" w) (net w) = (Some resp, net') ->
  500 <= status resp ->
  let server_message :=
      match data resp with Some b => body_error_message b | None => None end in
  let server_detail :=
      match data resp with Some b => body_detail b | None => None end in
  fst (getFavorites adapter w)
  = Rejected
      match server_message, server_detail with
      | Some m, Some d => if String.eqb m "" then
                            if String.eqb d ""
                            then "Server error. Please try again later."%string
                            else d
                          else m
      | Some m, None => if String.eqb m ""
                        then "Server error. Please try again later."%string
                        else m
      | None, Some d => if String.eqb d ""
                        then "Server error. Please try again later."%string
                        else d
      | None, None => "Server error. Please try again later."%string
      end.
Proof.
  intros Hadapter Hstatus.
  assert (Hvalid : validateStatus (status resp) = false).
  { unfold validateStatus. apply andb_false_iff. right. apply Z.ltb_ge. lia. }
  destruct (get_rejected_with "/users/favorites" w resp net' Hadapter Hvalid)
    as (error & w' & Hget & Hresp & Hrest).
  destruct Hrest as [_ Hmessage]; [lia|].
  assert (H429 : (status resp =? 429) = false) by (apply Z.eqb_neq; lia).
  assert (H500 : (500 <=? status resp) = true) by (apply Z.leb_le; lia).
  assert (H404 : (status resp =? 404) = false) by (apply Z.eqb_neq; lia).
  rewrite H429, H500 in Hmessage.
  unfold getFavorites. rewrite Hget. unfold error_status. rewrite Hresp.
  cbn [option_map]. rewrite H404. cbn [fst]. f_equal.
  unfold failure_message. rewrite Hresp, Hmessage.
  unfold or_else, truthy.
  destruct (data resp) as [b|]; cbn.
  - destruct (body_error_message b) as [m|], (body_detail b) as [d|]; cbn;
      repeat match goal with
             | |- context [String.eqb ?x ""] => destruct (String.eqb x ""); cbn
             end; reflexivity.
  - reflexivity.
Qed.

(** The probe reports healthy exactly when the transport answered
    [/health] with status 200 and a body whose [status] is ["healthy"];
    any other answer, another 2xx included, or none, reads as unhealthy. *)
Theorem checkBackendHealth_true_iff (w : World Net) :
  fst (checkBackendHealth adapter w) = true <->
  exists b net',
    adapter (outgoing "/health" w) (net w) = (Some (mkResponse 200 (Some b)), net') /\
    body_status b = Some "healthy"%string.
Proof.
  unfold checkBackendHealth, HttpClient.get.
  destruct (adapter (outgoing "/health" w) (net w)) as [[resp|] net'] eqn:Hadapter.
  - destruct (validateStatus (status resp)) eqn:Hvalid.
    + cbn. destruct resp as [s body]. cbn in *.
      destruct (Z.eqb_spec s 200) as [->|Hne]; cbn.
      * destruct body as [b|].
        -- destruct (body_status b) as [t|] eqn:Hstatus.
           ++ destruct (String.eqb_spec t "healthy") as [->|Hne].
              ** split; [intros _; eauto|reflexivity].
              ** split; [discriminate|].
                 intros (b' & n' & [= <- _] & Hb'). congruence.
           ++ split; [discriminate|].
              intros (b' & n' & [= <- _] & Hb'). congruence.
        -- split; [discriminate|]. intros (b' & n' & Heq & _). discriminate.
      * split; [discriminate|]. intros (b' & n' & [= Hs _ _] & _). congruence.
    + destruct (response_rejected _ (browser w)) as [error' b'].
      cbn. split; [discriminate|].
      intros (b0 & n' & [= -> _] & _). discriminate.
  - destruct (response_rejected _ (browser w)) as [error' b'].
    cbn. split; [discriminate|]. intros (b0 & n' & Heq & _). discriminate.
Qed.

End ServicesMore.

(** ** The dashboard's refresh operations, continued *)

Section DashboardMore.

Import HttpClient Services Dashboard.

Context {Net : Type}.
Variable adapter : RequestConfig -> Net -> option (Response Body) * Net.

Lemma getFavorites_requests (w : World Net) :
  requests (snd (getFavorites adapter w))
  = (requests w ++ ["/users/favorites"%string])%list.
Proof.
  unfold getFavorites.
  pose proof (get_logs_request adapter "/users/favorites" w) as H.
  destruct (HttpClient.get adapter "/users/favorites" w) as [[resp|e] w'];
    cbn [snd] in H.
  - destruct (data resp); exact H.
  - destruct (match error_status e with Some s => s =? 404 | None => false end);
      exact H.
Qed.

Lemma getUpcomingPasses_requests (w : World Net) :
  requests (snd (getUpcomingPasses adapter w))
  = (requests w ++ ["/users/passes"%string])%list.
Proof.
  unfold getUpcomingPasses.
  pose proof (get_logs_request adapter "/users/passes" w) as H.
  destruct (HttpClient.get adapter "/users/passes" w) as [[resp|e] w'];
    cbn [snd] in H.
  - destruct (data resp); exact H.
  - destruct (match error_status e with Some s => s =? 404 | None => false end);
      [exact H|].
    destruct (match error_status e with Some s => s =? 422 | None => false end);
      exact H.
Qed.

(** After a healthy probe [loadDashboardData] sends exactly the two
    collection requests, favorites first; it ends with [loading] off,
    the backend marked healthy and no error message, also when one or
    both fetches failed: a failed fetch is logged, not shown. *)
Theorem loadDashboardData_healthy_cycle (now : Z) (d : State) (w : World Net) :
  fst (checkBackendHealth adapter w) = true ->
  requests (snd (loadDashboardData adapter now d w))
  = (requests w ++ ["/health"; "/users/favorites"; "/users/passes"]%string)%list /\
  error (fst (loadDashboardData adapter now d w)) = None /\
  loading (fst (loadDashboardData adapter now d w)) = false /\
  backendHealthy (fst (loadDashboardData adapter now d w)) = true /\
  autoRefresh (fst (loadDashboardData adapter now d w)) = autoRefresh d.
Proof.
  intros Hprobe. unfold loadDashboardData.
  pose proof (checkBackendHealth_requests adapter w) as Hlog0.
  destruct (checkBackendHealth adapter w) as [isHealthy w1].
  cbn in Hprobe, Hlog0. subst isHealthy. cbn [negb].
  pose proof (getFavorites_requests w1) as Hlog1.
  destruct (getFavorites adapter w1) as [favoritesData w2]. cbn [snd] in Hlog1.
  pose proof (getUpcomingPasses_requests w2) as Hlog2.
  destruct (getUpcomingPasses adapter w2) as [passesData w3]. cbn [snd] in Hlog2.
  cbn [fst snd]. split.
  - rewrite Hlog2, Hlog1, Hlog0, <- !app_assoc. reflexivity.
  - destruct favoritesData, passesData; cbn; repeat split; auto.
Qed.

(** A positions refresh started with a non-empty [favorites] sends one
    request to the favorites endpoint.  If it succeeds the collection is
    replaced by the answer and the update time is set; if it fails both
    stay as they were.  Either way [refreshing] is off at the end and
    neither the passes nor the error message is touched. *)
Theorem refreshPositions_effect
        (favorites0 : list Satellite) (now : Z) (d : State) (w : World Net) :
  favorites0 <> [] ->
  let result := refreshPositions adapter favorites0 now d w in
  requests (snd result) = (requests w ++ ["/users/favorites"%string])%list /\
  refreshing (fst result) = false /\
  passes (fst result) = passes d /\
  error (fst result) = error d /\
  match fst (getFavorites adapter w) with
  | Fulfilled updatedFavorites =>
    favorites (fst result) = updatedFavorites /\ lastUpdate (fst result) = Some now
  | Rejected _ =>
    favorites (fst result) = favorites d /\ lastUpdate (fst result) = lastUpdate d
  end.
Proof.
  intros Hne. unfold refreshPositions, refreshPositions_begin.
  destruct favorites0 as [|x l]; [congruence|]. cbn [List.length Nat.eqb].
  pose proof (getFavorites_requests w) as Hlog.
  destruct (getFavorites adapter w) as [[updated|reason] w']; cbn in *;
    repeat split; auto.
Qed.

(** A passes refresh sends one request to the passes endpoint.  If it
    succeeds the collection is replaced and the error message is left as
    it was (an earlier message is not cleared); if it fails the passes
    stay and the message becomes "Failed to refresh passes: " followed
    by the reason.  The favorites and the update time are never touched. *)
Theorem refreshPasses_effect (d : State) (w : World Net) :
  let result := refreshPasses adapter d w in
  requests (snd result) = (requests w ++ ["/users/passes"%string])%list /\
  passesLoading (fst result) = false /\
  favorites (fst result) = favorites d /\
  lastUpdate (fst result) = lastUpdate d /\
  match fst (getUpcomingPasses adapter w) with
  | Fulfilled passesData =>
    passes (fst result) = passesData /\ error (fst result) = error d
  | Rejected reason =>
    passes (fst result) = passes d /\
    error (fst result) = Some ("Failed to refresh passes: " ++ reason)%string
  end.
Proof.
  unfold refreshPasses.
  pose proof (getUpcomingPasses_requests w) as Hlog.
  destruct (getUpcomingPasses adapter w) as [[passesData|reason] w']; cbn in *;
    repeat split; auto.
Qed.

End DashboardMore.

(** ** Timer, button and pending fetches, continued *)

Section SchedulerMore.

Import HttpClient Dashboard Scheduler.

Context {Net : Type}.
Variable adapter : RequestConfig -> Net -> option (Response Body) * Net.

Lemma loadDashboardData_keeps_autoRefresh
      (now : Z) (d : Dashboard.State) (w : World Net) :
  autoRefresh (fst (loadDashboardData adapter now d w)) = autoRefresh d.
Proof.
  unfold loadDashboardData.
  destruct (Services.checkBackendHealth adapter w) as [[|] w1]; cbn [negb];
    [|reflexivity].
  destruct (Services.getFavorites adapter w1) as [[?|?] w2];
    destruct (Services.getUpcomingPasses adapter w2) as [[?|?] w3]; reflexivity.
Qed.

Lemma timer_follows_switch (s : Scheduler.State) :
  reachable adapter s ->
  (interval s = None <-> autoRefresh (dashboard s) = false).
Proof.
  induction 1 as [now w|s e Hreach IH].
  - cbn. rewrite loadDashboardData_keeps_autoRefresh. cbn.
    split; discriminate.
  - destruct e as [| | |r now]; cbn [step].
    + destruct (interval s) as [favs|] eqn:Hint; [|rewrite Hint; exact IH].
      unfold call_refreshPositions, refreshPositions_begin.
      destruct (List.length favs =? 0)%nat; cbn; rewrite ?Hint; exact IH.
    + destruct (loading (dashboard s) || refreshing (dashboard s)); [exact IH|].
      unfold call_refreshPositions, refreshPositions_begin.
      destruct (List.length (favorites (dashboard s)) =? 0)%nat; cbn; exact IH.
    + destruct (loading (dashboard s)); [exact IH|].
      cbn. unfold autoRefresh_effect. cbn.
      destruct (autoRefresh (dashboard s)); cbn; split; congruence.
    + destruct (inflight s) as [|n]; [exact IH|].
      cbn. destruct r; cbn; exact IH.
Qed.

(** Once auto-refresh is switched off no timer is armed: until it is
    switched on again a tick changes nothing and starts no fetch. *)
Theorem no_refresh_while_switched_off (s : Scheduler.State) :
  reachable adapter s ->
  autoRefresh (dashboard s) = false ->
  interval s = None /\ step s Tick = s.
Proof.
  intros Hreach Hoff.
  pose proof (proj2 (timer_follows_switch s Hreach) Hoff) as Hint.
  split; [exact Hint|]. cbn [step]. rewrite Hint. reflexivity.
Qed.

Lemma untoggled_run_keeps_snapshot (events : list Event) (s : Scheduler.State) :
  interval s = Some [] ->
  ~ In ToggleAutoRefresh events ->
  Forall (fun s' => interval s' = Some [] /\ step s' Tick = s')
         (trace s events).
Proof.
  revert s. induction events as [|e events IH]; intros s Hint Hno; [constructor|].
  cbn [trace].
  assert (Hint' : interval (step s e) = Some []).
  { destruct e as [| | |r now]; cbn [step].
    - rewrite Hint. exact Hint.
    - destruct (loading (dashboard s) || refreshing (dashboard s)); [exact Hint|].
      unfold call_refreshPositions.
      destruct (refreshPositions_begin (favorites (dashboard s)) (dashboard s));
        exact Hint.
    - exfalso. apply Hno. left. reflexivity.
    - destruct (inflight s); exact Hint. }
  constructor.
  - split; [exact Hint'|]. cbn [step]. rewrite Hint'. reflexivity.
  - apply IH; [exact Hint'|]. intros Hin. apply Hno. right. exact Hin.
Qed.

(** From mount, for as long as the auto-refresh switch is not touched,
    the timer's callback keeps reading the empty [favorites] of the
    first render: every tick returns at the guard, so auto-refresh
    fetches nothing, whatever the collection holds by then. *)
Theorem auto_refresh_idle_until_toggled
        (now : Z) (w : World Net) (events : list Event) :
  ~ In ToggleAutoRefresh events ->
  Forall (fun s => interval s = Some [] /\ step s Tick = s)
         (mount adapter now w :: trace (mount adapter now w) events).
Proof.
  intros Hno. constructor.
  - split; reflexivity.
  - apply untoggled_run_keeps_snapshot; [reflexivity|exact Hno].
Qed.

End SchedulerMore.

(** ** Satellite search *)

Section SatelliteServiceMore.

Import HttpClient SatelliteService.

Context {Net : Type}.
Variable adapter : RequestConfig -> Net -> option (Response SearchBody) * Net.
Variable random : nat -> Q.

(** One [searchSatellites] sends at least one and at most four requests,
    all to the search endpoint; when the first answer is a 4xx other
    than 429 it sends exactly one. *)
Theorem searchSatellites_request_count (w : World Net) :
  (exists n,
      (1 <= n <= 4)%nat /\
      requests (snd (searchSatellites adapter random w))
      = (requests w ++ repeat search_path n)%list) /\
  (forall error w',
      HttpClient.get adapter search_path w = (Rejected error, w') ->
      Retry.is_client_error (@error_status SearchBody) error = true ->
      requests (snd (searchSatellites adapter random w))
      = (requests w ++ [search_path])%list).
Proof.
  unfold searchSatellites, search_request, HttpClient.execute.
  destruct (retryWithBackoff_total (@error_status SearchBody)
              (HttpClient.get adapter search_path) random 3 1000 w) as [r Hr].
  split.
  - rewrite Hr. exists (List.length (Retry.attempts r)).
    pose proof (loop_attempts_bound _ _ _ _ _ _ _ _ _ _ _ Hr) as Hb.
    destruct (loop_shape _ _ _ _ _ _ _ _ _ _ _ Hr) as (_ & _ & Hin & _).
    destruct (Hin ltac:(lia)) as [Hne _].
    pose proof (loop_requests adapter random 3 1000 search_path _ _ _ _ _ _ Hr) as Hlog.
    split.
    + destruct (Retry.attempts r); [congruence|]. cbn in *. lia.
    + destruct (Retry.completion r) as [resp|[error|]]; [destruct (data resp)| |];
        exact Hlog.
  - intros error w' Hget Hclient.
    unfold Retry.retryWithBackoff. cbn [Retry.loop Z.to_nat Pos.to_nat Z.add].
    cbn. rewrite Hget, Hclient. cbn.
    pose proof (get_appends_request adapter search_path w) as Hlog.
    rewrite Hget in Hlog. exact Hlog.
Qed.

End SatelliteServiceMore.

(** ** Sorting with a comparator *)

Section SortFacts.

Import DerivedView.

Context {T : Type}.
Variable compare : T -> T -> Q.

(** [x] does not have to come after [y]. *)
Local Abbreviation before x y := (compare x y <= 0)%Q.

Lemma insert_sorted_perm (x : T) (l : list T) :
  Permutation (insert_sorted compare x l) (x :: l).
Proof.
  induction l as [|y l IH]; cbn; [reflexivity|].
  destruct (negb (Qle_bool (compare x y) 0)); [|reflexivity].
  rewrite IH. apply perm_swap.
Qed.

Lemma sorted_copy_perm (l : list T) : Permutation (sorted_copy compare l) l.
Proof.
  induction l as [|x l IH]; cbn; [reflexivity|].
  rewrite insert_sorted_perm. constructor. exact IH.
Qed.

Lemma comparator_test (x y : T) :
  negb (Qle_bool (compare x y) 0) = false <-> before x y.
Proof.
  rewrite negb_false_iff. apply Qle_bool_iff.
Qed.

(** Members of a class [p] whose elements never have to come after one
    another keep their order. *)
Lemma insert_sorted_stable (p : T -> bool) (x : T) (l : list T) :
  (forall a b, p a = true -> p b = true -> before a b) ->
  filter p (insert_sorted compare x l) = filter p (x :: l).
Proof.
  intros Hclass. induction l as [|y l IH]; cbn; [reflexivity|].
  destruct (negb (Qle_bool (compare x y) 0)) eqn:Htest; [|reflexivity].
  cbn. rewrite IH. cbn.
  destruct (p x) eqn:Hx, (p y) eqn:Hy; try reflexivity.
  exfalso. pose proof (proj2 (comparator_test x y) (Hclass x y Hx Hy)).
  congruence.
Qed.

Lemma sorted_copy_stable (p : T -> bool) (l : list T) :
  (forall a b, p a = true -> p b = true -> before a b) ->
  filter p (sorted_copy compare l) = filter p l.
Proof.
  intros Hclass. induction l as [|x l IH]; cbn; [reflexivity|].
  rewrite (insert_sorted_stable p x _ Hclass). cbn. rewrite IH. reflexivity.
Qed.

Lemma sorted_copy_constant (l : list T) :
  (forall a b, before a b) -> sorted_copy compare l = l.
Proof.
  intros Hflat.
  pose proof (sorted_copy_stable (fun _ => true) l (fun a b _ _ => Hflat a b)) as H.
  assert (Hall : forall l' : list T, filter (fun _ => true) l' = l')
    by (induction l' as [|x l' IH]; cbn; congruence).
  rewrite !Hall in H. exact H.
Qed.

Hypothesis before_total : forall x y, ~ before x y -> before y x.
Hypothesis before_trans : forall x y z, before x y -> before y z -> before x z.

Lemma insert_sorted_sorted (x : T) (l : list T) :
  StronglySorted (fun a b => before a b) l ->
  StronglySorted (fun a b => before a b) (insert_sorted compare x l).
Proof.
  induction 1 as [|y l Hsorted IH Hall]; cbn.
  - constructor; constructor.
  - destruct (negb (Qle_bool (compare x y) 0)) eqn:Htest.
    + constructor; [exact IH|].
      assert (Hyx : before y x).
      { apply before_total. intros Hxy.
        apply comparator_test in Hxy. congruence. }
      assert (Hperm : Permutation (x :: l) (insert_sorted compare x l))
        by (symmetry; apply insert_sorted_perm).
      apply (Permutation_Forall Hperm).
      constructor; assumption.
    + apply comparator_test in Htest.
      constructor; [constructor; assumption|].
      constructor; [exact Htest|].
      apply (Forall_impl _ (fun z Hyz => before_trans x y z Htest Hyz) Hall).
Qed.

Lemma sorted_copy_sorted (l : list T) :
  StronglySorted (fun a b => before a b) (sorted_copy compare l).
Proof.
  induction l as [|x l IH]; cbn; [constructor|].
  apply insert_sorted_sorted. exact IH.
Qed.

Lemma sorted_copy_of_sorted (l : list T) :
  StronglySorted (fun a b => before a b) l -> sorted_copy compare l = l.
Proof.
  induction 1 as [|x l Hsorted IH Hall]; cbn; [reflexivity|].
  rewrite IH. destruct l as [|y l]; [reflexivity|]. cbn.
  inversion Hall as [|? ? Hxy _]; subst.
  rewrite (proj2 (comparator_test x y) Hxy). reflexivity.
Qed.

Lemma sorted_copy_idempotent (l : list T) :
  sorted_copy compare (sorted_copy compare l) = sorted_copy compare l.
Proof.
  apply sorted_copy_of_sorted, sorted_copy_sorted.
Qed.

End SortFacts.

Lemma StronglySorted_weaken {T} (R R' : T -> T -> Prop) (l : list T) :
  (forall a b, R a b -> R' a b) -> StronglySorted R l -> StronglySorted R' l.
Proof.
  intros Himpl. induction 1 as [|x l Hsorted IH Hall]; constructor.
  - exact IH.
  - apply (Forall_impl _ (Himpl x) Hall).
Qed.

Lemma filter_filter {T} (p q : T -> bool) (l : list T) :
  filter q (filter p l) = filter (fun x => p x && q x) l.
Proof.
  induction l as [|x l IH]; cbn; [reflexivity|].
  destruct (p x); cbn; [destruct (q x)|]; rewrite IH; reflexivity.
Qed.

(** ** Filtered and sorted views, continued *)

Section DerivedViewMore.

Import DerivedView.

Variable toLowerCase : string -> string.
Variable localeCompare : string -> string -> Q.
Variable parseInt : string -> option Z.

(** What the satellite callback returns: the contents of the array it
    hands back. *)
Local Abbreviation satellite_view satelliteFilter satelliteSort favorites h :=
  (read (snd (filteredAndSortedSatellites toLowerCase localeCompare
                satelliteFilter satelliteSort favorites h))
        (fst (filteredAndSortedSatellites toLowerCase localeCompare
                satelliteFilter satelliteSort favorites h))).

Local Abbreviation pass_view showOnlyVisible passFilter passSort passes h :=
  (read (snd (filteredAndSortedPasses localeCompare parseInt
                showOnlyVisible passFilter passSort passes h))
        (fst (filteredAndSortedPasses localeCompare parseInt
                showOnlyVisible passFilter passSort passes h))).

(** The passes that the two pass filters let through. *)
Local Abbreviation pass_selected showOnlyVisible passFilter :=
  (fun pass : Pass =>
     (if showOnlyVisible then String.eqb (visibility pass) "visible" else true)
     && (if String.eqb passFilter "all" then true
         else elevation_at_least (parseInt passFilter) pass)).

Lemma write_out_of_range {T} (h : Heap T) (r : ref) (l : list T) :
  (List.length h <= r)%nat -> write h r l = h.
Proof.
  revert r. induction h as [|x h IH]; intros [|r] Hr; cbn in *;
    try reflexivity; try lia.
  f_equal. apply IH. lia.
Qed.

Lemma sort_in_place_view {T} (compare : T -> T -> Q) (r : ref) (h : Heap T) :
  read (snd (array_sort compare r h)) (fst (array_sort compare r h))
  = sorted_copy compare (read h r).
Proof.
  unfold array_sort. cbn [fst snd].
  destruct (Nat.lt_ge_cases r (List.length h)) as [Hin|Hout].
  - apply read_write_same. exact Hin.
  - rewrite (write_out_of_range h r _ Hout).
    unfold read. rewrite (nth_overflow h [] Hout). reflexivity.
Qed.

Lemma filter_then_sort_view {T} (p : T -> bool) (compare : T -> T -> Q)
      (r : ref) (h : Heap T) :
  read (snd (array_sort compare (fst (array_filter p r h)) (snd (array_filter p r h))))
       (fst (array_sort compare (fst (array_filter p r h)) (snd (array_filter p r h))))
  = sorted_copy compare (filter p (read h r)).
Proof.
  rewrite sort_in_place_view. unfold array_filter.
  rewrite read_alloc_new. reflexivity.
Qed.

Lemma satellite_view_eq satelliteFilter satelliteSort favorites (h : Heap Satellite) :
  satellite_view satelliteFilter satelliteSort favorites h
  = sorted_copy (satellite_compare localeCompare satelliteSort)
                (filter (satellite_matches toLowerCase satelliteFilter)
                        (read h favorites)).
Proof.
  unfold filteredAndSortedSatellites.
  pose proof (filter_then_sort_view
                (satellite_matches toLowerCase satelliteFilter)
                (satellite_compare localeCompare satelliteSort) favorites h) as H.
  destruct (array_filter (satellite_matches toLowerCase satelliteFilter) favorites h)
    as [filtered h1]. exact H.
Qed.

Lemma pass_view_eq showOnlyVisible passFilter passSort passes (h : Heap Pass) :
  pass_view showOnlyVisible passFilter passSort passes h
  = sorted_copy (pass_compare localeCompare passSort)
                (filter (pass_selected showOnlyVisible passFilter)
                        (read h passes)).
Proof.
  assert (Hall : forall l : list Pass, filter (fun _ => true) l = l)
    by (induction l as [|x l IH]; cbn; congruence).
  unfold filteredAndSortedPasses.
  destruct showOnlyVisible; destruct (String.eqb passFilter "all"); cbn [negb].
  - pose proof (filter_then_sort_view
                  (fun pass => String.eqb (visibility pass) "visible")
                  (pass_compare localeCompare passSort) passes h) as H.
    destruct (array_filter (fun pass => String.eqb (visibility pass) "visible")
                           passes h) as [filtered h1].
    etransitivity; [exact H|]. f_equal. apply filter_ext. intros p.
    rewrite andb_true_r. reflexivity.
  - destruct (array_filter (fun pass => String.eqb (visibility pass) "visible")
                           passes h) as [filtered h1] eqn:Hfirst.
    pose proof (filter_then_sort_view
                  (elevation_at_least (parseInt passFilter))
                  (pass_compare localeCompare passSort) filtered h1) as H.
    destruct (array_filter (elevation_at_least (parseInt passFilter)) filtered h1)
      as [filtered2 h2].
    etransitivity; [exact H|]. f_equal.
    unfold array_filter in Hfirst. injection Hfirst as <- <-.
    pose proof (read_alloc_new h
                  (filter (fun pass : Pass => String.eqb (visibility pass) "visible")
                          (read h passes))) as Hnew.
    cbn [alloc fst snd] in Hnew. rewrite Hnew. apply filter_filter.
  - rewrite sort_in_place_view. f_equal. symmetry. apply Hall.
  - pose proof (filter_then_sort_view
                  (elevation_at_least (parseInt passFilter))
                  (pass_compare localeCompare passSort) passes h) as H.
    destruct (array_filter (elevation_at_least (parseInt passFilter)) passes h)
      as [filtered h1].
    etransitivity; [exact H|]. reflexivity.
Qed.

Lemma includes_empty (s : string) : includes s "" = true.
Proof. destruct s; reflexivity. Qed.

(** The satellite view holds exactly the favourites that match the
    filter, each as often as the collection holds it; with the filter
    box empty it holds every favourite. *)
Theorem satellite_view_shows_the_matches
        (satelliteFilter satelliteSort : string) (favorites : ref)
        (h : Heap Satellite) :
  Permutation (satellite_view satelliteFilter satelliteSort favorites h)
              (filter (satellite_matches toLowerCase satelliteFilter)
                      (read h favorites)) /\
  (forall satellite,
     In satellite (satellite_view satelliteFilter satelliteSort favorites h) <->
     In satellite (read h favorites) /\
     (includes (toLowerCase (name satellite)) (toLowerCase satelliteFilter) = true \/
      includes (toString (norad_id satellite)) satelliteFilter = true)) /\
  Permutation (satellite_view "" satelliteSort favorites h) (read h favorites).
Proof.
  split; [|split].
  - rewrite satellite_view_eq. apply sorted_copy_perm.
  - intros satellite. rewrite satellite_view_eq.
    split.
    + intros Hin.
      apply (Permutation_in _ (sorted_copy_perm _ _)) in Hin.
      apply filter_In in Hin. destruct Hin as [Hin Hmatch].
      split; [exact Hin|]. apply orb_true_iff. exact Hmatch.
    + intros [Hin Hmatch].
      apply (Permutation_in _ (Permutation_sym (sorted_copy_perm _ _))).
      apply filter_In. split; [exact Hin|]. apply orb_true_iff. exact Hmatch.
  - rewrite satellite_view_eq. rewrite sorted_copy_perm.
    assert (Hall : forall l : list Satellite,
               filter (satellite_matches toLowerCase "") l = l).
    { induction l as [|x l IH]; cbn; [reflexivity|].
      unfold satellite_matches at 1. rewrite (includes_empty (toString _)).
      rewrite orb_true_r. congruence. }
    rewrite Hall. reflexivity.
Qed.

(** The pass view holds exactly the passes that pass the switched-on
    filters: visibility equal to ["visible"] when "visible only" is on,
    and elevation at least the parsed minimum when an elevation filter
    is chosen.  A filter value that does not parse to a number lets
    nothing through. *)
Theorem pass_view_shows_the_selected
        (showOnlyVisible : bool) (passFilter passSort : string) (passes : ref)
        (h : Heap Pass) :
  Permutation (pass_view showOnlyVisible passFilter passSort passes h)
              (filter (pass_selected showOnlyVisible passFilter) (read h passes)) /\
  (forall pass,
     In pass (pass_view showOnlyVisible passFilter passSort passes h) <->
     In pass (read h passes) /\
     (showOnlyVisible = true -> visibility pass = "visible"%string) /\
     (passFilter <> "all"%string ->
      exists minElevation,
        parseInt passFilter = Some minElevation /\
        (inject_Z minElevation <= max_elevation pass)%Q)) /\
  (passFilter <> "all"%string -> parseInt passFilter = None ->
   pass_view showOnlyVisible passFilter passSort passes h = []).
Proof using localeCompare parseInt.
  assert (Hselected : forall pass,
             pass_selected showOnlyVisible passFilter pass = true <->
             (showOnlyVisible = true -> visibility pass = "visible"%string) /\
             (passFilter <> "all"%string ->
              exists minElevation,
                parseInt passFilter = Some minElevation /\
                (inject_Z minElevation <= max_elevation pass)%Q)).
  { intros pass. rewrite andb_true_iff.
    assert (Hboth : forall A B C D : Prop, (A <-> C) -> (B <-> D) -> (A /\ B <-> C /\ D))
      by (intros A B C D [H1 H2] [H3 H4]; split; intros [? ?]; split; auto).
    apply Hboth.
    - destruct showOnlyVisible.
      + rewrite String.eqb_eq. split; [auto|intros H; exact (H eq_refl)].
      + split; [discriminate|reflexivity].
    - destruct (String.eqb_spec passFilter "all") as [Heq|Hne].
      + split; [intros _ H; contradiction|reflexivity].
      + unfold elevation_at_least. destruct (parseInt passFilter) as [m|].
        * rewrite Qle_bool_iff. split.
          -- intros Hle _. exists m. auto.
          -- intros H. destruct (H Hne) as (m' & [= <-] & Hle). exact Hle.
        * split; [discriminate|].
          intros H. destruct (H Hne) as (m' & Hm & _). discriminate. }
  split; [|split].
  - rewrite pass_view_eq. apply sorted_copy_perm.
  - intros pass. rewrite pass_view_eq, <- Hselected. split.
    + intros Hin. apply (Permutation_in _ (sorted_copy_perm _ _)) in Hin.
      apply filter_In in Hin. exact Hin.
    + intros Hin. apply (Permutation_in _ (Permutation_sym (sorted_copy_perm _ _))).
      apply filter_In. exact Hin.
  - intros Hne Hnan. rewrite pass_view_eq.
    assert (Hnone : forall l : list Pass,
               filter (pass_selected showOnlyVisible passFilter) l = []).
    { induction l as [|x l IH]; cbn; [reflexivity|].
      apply String.eqb_neq in Hne. rewrite Hne, Hnan. cbn.
      rewrite andb_false_r. cbn in IH. rewrite Hne, Hnan in IH. exact IH. }
    rewrite Hnone. reflexivity.
Qed.

Lemma inject_Z_nonpos (z : Z) : (inject_Z z <= 0)%Q <-> z <= 0.
Proof.
  change 0%Q with (inject_Z 0). rewrite <- Zle_Qle. reflexivity.
Qed.

(** Apart from the name, every satellite sort key orders by a number. *)
Lemma satellite_compare_numeric (satelliteSort : string) :
  satelliteSort <> "name"%string ->
  (forall x y, ~ (satellite_compare localeCompare satelliteSort x y <= 0)%Q ->
               (satellite_compare localeCompare satelliteSort y x <= 0)%Q) /\
  (forall x y z, (satellite_compare localeCompare satelliteSort x y <= 0)%Q ->
                 (satellite_compare localeCompare satelliteSort y z <= 0)%Q ->
                 (satellite_compare localeCompare satelliteSort x z <= 0)%Q).
Proof.
  intros Hname. apply String.eqb_neq in Hname.
  unfold satellite_compare. rewrite Hname.
  destruct (String.eqb satelliteSort "norad_id");
    [split; intros *; rewrite !inject_Z_nonpos; lia|].
  destruct (String.eqb satelliteSort "altitude"); [split; intros *; lra|].
  destruct (String.eqb satelliteSort "velocity"); [split; intros *; lra|].
  destruct (String.eqb satelliteSort "added_at");
    [split; intros *; rewrite !inject_Z_nonpos; lia|].
  split; intros; apply Qle_refl.
Qed.

(** Apart from the satellite name, every pass sort key orders by a
    number. *)
Lemma pass_compare_numeric (passSort : string) :
  passSort <> "satellite"%string ->
  (forall x y, ~ (pass_compare localeCompare passSort x y <= 0)%Q ->
               (pass_compare localeCompare passSort y x <= 0)%Q) /\
  (forall x y z, (pass_compare localeCompare passSort x y <= 0)%Q ->
                 (pass_compare localeCompare passSort y z <= 0)%Q ->
                 (pass_compare localeCompare passSort x z <= 0)%Q).
Proof.
  intros Hname. apply String.eqb_neq in Hname.
  unfold pass_compare.
  destruct (String.eqb passSort "start_time");
    [split; intros *; rewrite !inject_Z_nonpos; lia|].
  destruct (String.eqb passSort "elevation"); [split; intros *; lra|].
  destruct (String.eqb passSort "duration");
    [split; intros *; rewrite !inject_Z_nonpos; lia|].
  rewrite Hname. split; intros; apply Qle_refl.
Qed.

Lemma satellite_view_sorted satelliteFilter satelliteSort favorites
      (h : Heap Satellite) :
  satelliteSort <> "name"%string ->
  StronglySorted
    (fun a b => (satellite_compare localeCompare satelliteSort a b <= 0)%Q)
    (satellite_view satelliteFilter satelliteSort favorites h).
Proof.
  intros Hname. rewrite satellite_view_eq.
  destruct (satellite_compare_numeric satelliteSort Hname) as [Htotal Htrans].
  apply sorted_copy_sorted; assumption.
Qed.

Lemma pass_view_sorted showOnlyVisible passFilter passSort passes (h : Heap Pass) :
  passSort <> "satellite"%string ->
  StronglySorted
    (fun a b => (pass_compare localeCompare passSort a b <= 0)%Q)
    (pass_view showOnlyVisible passFilter passSort passes h).
Proof.
  intros Hname. rewrite pass_view_eq.
  destruct (pass_compare_numeric passSort Hname) as [Htotal Htrans].
  apply sorted_copy_sorted; assumption.
Qed.

(** Under each numeric sort key the view comes out in the advertised
    order: NORAD id ascending; altitude and velocity descending, a
    missing position counting as 0; added-at descending; and for passes
    start time ascending, elevation and duration descending. *)
Theorem views_sorted_by_chosen_key
        (satelliteFilter : string) (favorites : ref) (hs : Heap Satellite)
        (showOnlyVisible : bool) (passFilter : string) (passes : ref)
        (hp : Heap Pass) :
  StronglySorted (fun a b => norad_id a <= norad_id b)
                 (satellite_view satelliteFilter "norad_id" favorites hs) /\
  StronglySorted (fun a b => (position_altitude b <= position_altitude a)%Q)
                 (satellite_view satelliteFilter "altitude" favorites hs) /\
  StronglySorted (fun a b => (position_velocity b <= position_velocity a)%Q)
                 (satellite_view satelliteFilter "velocity" favorites hs) /\
  StronglySorted (fun a b => added_at b <= added_at a)
                 (satellite_view satelliteFilter "added_at" favorites hs) /\
  StronglySorted (fun a b => start_time a <= start_time b)
                 (pass_view showOnlyVisible passFilter "start_time" passes hp) /\
  StronglySorted (fun a b => (max_elevation b <= max_elevation a)%Q)
                 (pass_view showOnlyVisible passFilter "elevation" passes hp) /\
  StronglySorted (fun a b => duration b <= duration a)
                 (pass_view showOnlyVisible passFilter "duration" passes hp).
Proof.
  repeat split.
  - pose proof (satellite_view_sorted satelliteFilter "norad_id" favorites hs
                  ltac:(discriminate)) as H.
    revert H. apply StronglySorted_weaken. cbn. intros a b H.
    apply (proj1 (inject_Z_nonpos _)) in H. lia.
  - pose proof (satellite_view_sorted satelliteFilter "altitude" favorites hs
                  ltac:(discriminate)) as H.
    revert H. apply StronglySorted_weaken. cbn. intros a b H. lra.
  - pose proof (satellite_view_sorted satelliteFilter "velocity" favorites hs
                  ltac:(discriminate)) as H.
    revert H. apply StronglySorted_weaken. cbn. intros a b H. lra.
  - pose proof (satellite_view_sorted satelliteFilter "added_at" favorites hs
                  ltac:(discriminate)) as H.
    revert H. apply StronglySorted_weaken. cbn. intros a b H.
    apply (proj1 (inject_Z_nonpos _)) in H. lia.
  - pose proof (pass_view_sorted showOnlyVisible passFilter "start_time" passes hp
                  ltac:(discriminate)) as H.
    revert H. apply StronglySorted_weaken. cbn. intros a b H.
    apply (proj1 (inject_Z_nonpos _)) in H. lia.
  - pose proof (pass_view_sorted showOnlyVisible passFilter "elevation" passes hp
                  ltac:(discriminate)) as H.
    revert H. apply StronglySorted_weaken. cbn. intros a b H. lra.
  - pose proof (pass_view_sorted showOnlyVisible passFilter "duration" passes hp
                  ltac:(discriminate)) as H.
    revert H. apply StronglySorted_weaken. cbn. intros a b H.
    apply (proj1 (inject_Z_nonpos _)) in H. lia.
Qed.

(** Rows that tie keep the order of the collection: satellites of equal
    altitude (all those without a position among them) under the
    altitude sort, passes of equal elevation under the elevation sort.
    A sort key that is none of the known ones leaves the whole filtered
    list in collection order. *)
Theorem ties_and_unknown_keys_keep_collection_order
        (satelliteFilter : string) (favorites : ref) (hs : Heap Satellite)
        (showOnlyVisible : bool) (passFilter : string) (passes : ref)
        (hp : Heap Pass) :
  (forall altitude0,
     filter (fun s => Qeq_bool (position_altitude s) altitude0)
            (satellite_view satelliteFilter "altitude" favorites hs)
     = filter (fun s => Qeq_bool (position_altitude s) altitude0)
              (filter (satellite_matches toLowerCase satelliteFilter)
                      (read hs favorites))) /\
  (forall elevation0,
     filter (fun p => Qeq_bool (max_elevation p) elevation0)
            (pass_view showOnlyVisible passFilter "elevation" passes hp)
     = filter (fun p => Qeq_bool (max_elevation p) elevation0)
              (filter (pass_selected showOnlyVisible passFilter)
                      (read hp passes))) /\
  (forall satelliteSort,
     ~ In satelliteSort ["name"; "norad_id"; "altitude"; "velocity"; "added_at"]%string ->
     satellite_view satelliteFilter satelliteSort favorites hs
     = filter (satellite_matches toLowerCase satelliteFilter) (read hs favorites)) /\
  (forall passSort,
     ~ In passSort ["start_time"; "elevation"; "duration"; "satellite"]%string ->
     pass_view showOnlyVisible passFilter passSort passes hp
     = filter (pass_selected showOnlyVisible passFilter) (read hp passes)).
Proof.
  split; [|split; [|split]].
  - intros altitude0. rewrite satellite_view_eq. apply sorted_copy_stable.
    intros a b Ha Hb. apply Qeq_bool_iff in Ha, Hb. cbn. lra.
  - intros elevation0. rewrite pass_view_eq. apply sorted_copy_stable.
    intros a b Ha Hb. apply Qeq_bool_iff in Ha, Hb. cbn. lra.
  - intros satelliteSort Hunknown. rewrite satellite_view_eq.
    apply sorted_copy_constant. intros a b. unfold satellite_compare.
    repeat match goal with
           | |- context [String.eqb satelliteSort ?k] =>
             destruct (String.eqb_spec satelliteSort k) as [->|_];
               [exfalso; apply Hunknown; cbn; tauto|]
           end.
    lra.
  - intros passSort Hunknown. rewrite pass_view_eq.
    apply sorted_copy_constant. intros a b. unfold pass_compare.
    repeat match goal with
           | |- context [String.eqb passSort ?k] =>
             destruct (String.eqb_spec passSort k) as [->|_];
               [exfalso; apply Hunknown; cbn; tauto|]
           end.
    lra.
Qed.

Lemma write_read_same {T} (h : Heap T) (r : ref) : write h r (read h r) = h.
Proof.
  revert r. induction h as [|x h IH]; intros [|r]; cbn; try reflexivity.
  f_equal. apply IH.
Qed.

(** With no filter switched on and a numeric sort key, rendering the
    pass view a second time finds the stored array already in order:
    the store is not changed again and the same rows come back. *)
Theorem unfiltered_pass_view_rerender (passSort : string) (passes : ref)
        (h : Heap Pass) :
  passSort <> "satellite"%string ->
  let first := filteredAndSortedPasses localeCompare parseInt false "all"
                                       passSort passes h in
  let second := filteredAndSortedPasses localeCompare parseInt false "all"
                                        passSort (fst first) (snd first) in
  fst first = passes /\
  snd second = snd first /\
  read (snd second) (fst second) = read (snd first) (fst first).
Proof.
  intros Hname.
  destruct (pass_compare_numeric passSort Hname) as [Htotal Htrans].
  unfold filteredAndSortedPasses.
  change (String.eqb "all" "all") with true. cbn [negb].
  unfold array_sort. cbn [fst snd].
  assert (Hstore :
            write (write h passes
                         (sorted_copy (pass_compare localeCompare passSort)
                                      (read h passes)))
                  passes
                  (sorted_copy (pass_compare localeCompare passSort)
                               (read (write h passes
                                            (sorted_copy (pass_compare localeCompare passSort)
                                                         (read h passes)))
                                     passes))
            = write h passes
                    (sorted_copy (pass_compare localeCompare passSort)
                                 (read h passes))).
  { destruct (Nat.lt_ge_cases passes (List.length h)) as [Hin|Hout].
    - rewrite (read_write_same h passes _ Hin).
      rewrite (sorted_copy_idempotent _ Htotal Htrans).
      rewrite <- (read_write_same h passes
                    (sorted_copy (pass_compare localeCompare passSort)
                                 (read h passes)) Hin) at 2.
      apply write_read_same.
    - rewrite !(write_out_of_range h passes _ Hout). reflexivity. }
  split; [reflexivity|]. split; [exact Hstore|].
  rewrite Hstore. reflexivity.
Qed.

End DerivedViewMore.

(** ** Formatting *)

(** For a duration of zero or more whole seconds the two parts shown are
    the minutes and the seconds below sixty that add up to it.  For a
    negative duration that is not a whole number of minutes the parts
    shown add up to one minute less. *)
Theorem formatDuration_parts (seconds : Z) :
  Format.formatDuration seconds
  = (DerivedView.toString (Format.duration_minutes seconds) ++ "m "
     ++ DerivedView.toString (Format.duration_seconds seconds) ++ "s")%string /\
  (0 <= seconds ->
   0 <= Format.duration_seconds seconds < 60 /\
   60 * Format.duration_minutes seconds + Format.duration_seconds seconds
   = seconds) /\
  (seconds < 0 -> Format.duration_seconds seconds <> 0 ->
   60 * Format.duration_minutes seconds + Format.duration_seconds seconds
   = seconds - 60).
Proof.
  unfold Format.duration_minutes, Format.duration_seconds.
  split; [reflexivity|].
  pose proof (Z.quot_rem' seconds 60) as Hquot.
  pose proof (Z.div_mod seconds 60 ltac:(lia)) as Hdiv.
  pose proof (Z.mod_pos_bound seconds 60 ltac:(lia)) as Hmod.
  split.
  - intros Hpos.
    pose proof (Z.rem_bound_pos seconds 60 Hpos ltac:(lia)) as Hrem.
    split; [exact Hrem|]. lia.
  - intros Hneg Hrem.
    pose proof (Z.rem_bound_pos_neg seconds 60 ltac:(lia) ltac:(lia)) as Hbound.
    lia.
Qed.

(** ** The further properties at concrete inputs *)

(** Two 503s and then a success: three attempts, the value returned. *)
Lemma retryWithBackoff_returns_first_success_witness :
  exists r,
    Retry.retryWithBackoff Some MoreSamples.third_time_lucky Samples.half 3 1000 0%nat
    = Some r /\
    Retry.completion r = Retry.Return tt /\
    List.length (Retry.attempts r) = 3%nat.
Proof.
  destruct (retryWithBackoff_returns_first_success
              Some MoreSamples.third_time_lucky Samples.half 3 1000 0%nat)
    as (r & Hr & _ & Hlast).
  exists r. split; [exact Hr|].
  vm_compute in Hr. injection Hr as Hr. subst r.
  split; [|reflexivity]. apply Hlast. reflexivity.
Defined.

(** [maxRetries = -1]: no attempt, [undefined] thrown. *)
Lemma retryWithBackoff_throws_undefined_iff_negative_witness :
  exists r,
    Retry.retryWithBackoff Some (Samples.always_fails 503) Samples.half (-1) 1000 0%nat
    = Some r /\
    Retry.completion r = Retry.Throw None /\ Retry.attempts r = [].
Proof.
  destruct (retryWithBackoff_throws_undefined_iff_negative
              Some (Samples.always_fails 503) Samples.half (-1) 1000 0%nat)
    as (r & Hr & Hthrown & Hnone).
  exists r. split; [exact Hr|].
  split; [apply Hthrown|apply Hnone]; lia.
Defined.

(** The defaults: at most ten seconds of waiting. *)
Lemma retryWithBackoff_total_wait_bounded_witness :
  exists r,
    Retry.retryWithBackoff Some (Samples.always_fails 503) Samples.half 3 1000 0%nat
    = Some r /\
    (RetrySimple.total_delay (Retry.delays r)
     <= 1000 * inject_Z (2 ^ Z.max 0 3) - 1000 + 1000 * inject_Z (Z.max 0 3))%Q.
Proof.
  apply (retryWithBackoff_total_wait_bounded
           Some (Samples.always_fails 503) Samples.half 3 1000 0%nat).
  - unfold Qle. cbn. lia.
  - intros k. unfold Samples.half, Qle, Qlt. cbn. lia.
Defined.

(** The defaults with jitter one half: 1500 then 2500. *)
Lemma retryWithBackoff_delays_never_shrink_witness :
  exists r,
    Retry.retryWithBackoff Some (Samples.always_fails 503) Samples.half 3 1000 0%nat
    = Some r /\
    nth_error (Retry.delays r) 0 = Some (3000 # 2) /\
    nth_error (Retry.delays r) 1 = Some (5000 # 2) /\
    (3000 # 2 < 5000 # 2)%Q /\
    (Retry.backoff_delay_double Samples.half 1000 (Z.of_nat 0) 0
     <= Retry.backoff_delay_double Samples.half 1000 (Z.of_nat 0 + 1) 1)%Q.
Proof.
  destruct (retryWithBackoff_delays_never_shrink
              Some (Samples.always_fails 503) Samples.half 3 1000 0%nat)
    as (r & Hr & Hgrow).
  - unfold Qle. cbn. lia.
  - intros k. unfold Samples.half, Qle, Qlt. cbn. lia.
  - exists r. split; [exact Hr|].
    vm_compute in Hr. injection Hr as Hr. subst r.
    split; [reflexivity|]. split; [reflexivity|].
    destruct (Hgrow 0%nat (3000 # 2) (5000 # 2) eq_refl eq_refl) as [Hexact Hdouble].
    split; [exact Hexact|].
    apply (Hdouble 1000); [reflexivity|vm_compute; reflexivity].
Defined.

(** A 401 on a signed-in browser. *)
Lemma get_touches_session_only_on_401_witness :
  HttpClient.token
    (HttpClient.browser
       (snd (HttpClient.get Samples.unauthorized_backend "/users/favorites"
                            Samples.signed_in))) = None /\
  HttpClient.browser
    (snd (HttpClient.get MoreSamples.rate_limited_backend "/users/favorites"
                         Samples.signed_in))
  = HttpClient.browser Samples.signed_in.
Proof.
  destruct (get_touches_session_only_on_401
              Samples.unauthorized_backend "/users/favorites" Samples.signed_in)
    as (_ & _ & _ & Hgone).
  destruct (get_touches_session_only_on_401
              MoreSamples.rate_limited_backend "/users/favorites" Samples.signed_in)
    as (_ & _ & Hkept & _).
  split.
  - exact (proj1 (Hgone eq_refl)).
  - exact (Hkept eq_refl).
Defined.

(** A 429 carries the rate-limit text. *)
Lemma get_rejection_message_witness :
  exists error,
    fst (HttpClient.get MoreSamples.rate_limited_backend "/users/favorites"
                        Samples.signed_in) = Rejected error /\
    HttpClient.message error
    = "Too many requests. Please wait a moment and try again."%string.
Proof.
  eexists. split; [reflexivity|].
  destruct (get_rejection_message
              MoreSamples.rate_limited_backend "/users/favorites" Samples.signed_in
              _ eq_refl) as (_ & Hlimited & _).
  apply Hlimited. reflexivity.
Defined.

(** The request after a 401 has no [Authorization] header. *)
Lemma request_carries_token_until_401_witness :
  HttpClient.request_interceptor
    (HttpClient.mkConfig "/users/passes" None false)
    (HttpClient.browser Samples.signed_in)
  = HttpClient.mkConfig "/users/passes"
                        (Some "Bearer header.payload.signature"%string) false /\
  HttpClient.request_interceptor
    (HttpClient.mkConfig "/users/passes" None false)
    (HttpClient.browser
       (snd (HttpClient.get Samples.unauthorized_backend "/users/favorites"
                            Samples.signed_in)))
  = HttpClient.mkConfig "/users/passes" None false.
Proof.
  destruct (request_carries_token_until_401
              Samples.unauthorized_backend "/users/favorites" Samples.signed_in
              (HttpClient.mkConfig "/users/passes" None false))
    as [Hcarried Hdropped].
  split.
  - apply (Hcarried "header.payload.signature"%string); [reflexivity|discriminate].
  - apply Hdropped. reflexivity.
Defined.

(** A payload that cannot be decoded is removed. *)
Lemma isAuthenticated_only_drops_undecodable_witness :
  snd (AuthService.isAuthenticated Samples.decode_exp_2000 0
         (HttpClient.mkBrowser (Some "garbage"%string) "/" 0))
  = HttpClient.removeItem (HttpClient.mkBrowser (Some "garbage"%string) "/" 0) /\
  snd (AuthService.isAuthenticated Samples.decode_exp_2000 3000000
         (HttpClient.browser Samples.signed_in))
  = HttpClient.browser Samples.signed_in.
Proof.
  destruct (isAuthenticated_only_drops_undecodable
              Samples.decode_exp_2000 0
              (HttpClient.mkBrowser (Some "garbage"%string) "/" 0))
    as ([Hkept|(_ & Hremoved & _)] & _ & _).
  - vm_compute in Hkept. discriminate Hkept.
  - destruct (isAuthenticated_only_drops_undecodable
                Samples.decode_exp_2000 3000000
                (HttpClient.browser Samples.signed_in))
      as (_ & Hdecodes & _).
    split; [exact Hremoved|].
    apply (Hdecodes "header.payload.signature"%string (Some (2000 # 1)));
      reflexivity.
Defined.

(** Signing in against a server that accepts. *)
Lemma login_stores_token_logout_clears_witness :
  exists w',
    AuthApi.login MoreSamples.accepting_server "ada@example.org" "secret"
                  MoreSamples.signed_out
    = (Fulfilled (Some "header.payload.signature"%string,
                  Some "ada@example.org"%string), w') /\
    AuthApi.getToken w' = Some "header.payload.signature"%string /\
    AuthApi.getToken (AuthApi.logout w') = None.
Proof.
  eexists. split; [reflexivity|].
  destruct (login_stores_token_logout_clears
              MoreSamples.accepting_server "ada@example.org" "secret"
              MoreSamples.signed_out _ _ _ eq_refl)
    as (Hstored & _ & Hcleared & _).
  split; [exact Hstored|exact Hcleared].
Defined.

(** Signing in against a server that answers 401, with a token stored. *)
Lemma failed_sign_in_stores_nothing_witness :
  exists m w',
    AuthApi.login MoreSamples.rejecting_server "ada@example.org" "wrong"
                  Samples.signed_in = (Rejected m, w') /\
    HttpClient.token (HttpClient.browser w') = None /\
    HttpClient.pathname (HttpClient.browser w') = "/login"%string /\
    HttpClient.removals (HttpClient.browser w')
    = S (HttpClient.removals (HttpClient.browser Samples.signed_in)).
Proof.
  eexists _, _. split; [reflexivity|].
  exact (proj1 (failed_sign_in_stores_nothing
                  MoreSamples.rejecting_server "ada@example.org" "wrong" ""
                  Samples.signed_in _ _) eq_refl).
Defined.

(** An expired token at start-up is removed and nobody is signed in. *)
Lemma loadStoredAuth_restores_valid_session_witness :
  HttpClient.getItem
    (snd (AuthContext.loadStoredAuth Samples.decode_exp_2000 (fun t => t) 3000000
            AuthContext.initialState (HttpClient.browser Samples.signed_in)))
  = None.
Proof.
  destruct (loadStoredAuth_restores_valid_session
              Samples.decode_exp_2000 (fun t : string => t) 3000000
              (HttpClient.browser Samples.signed_in))
    as (_ & _ & _ & _ & Hexpired).
  apply (Hexpired "header.payload.signature"%string (Some (2000 # 1)));
    try reflexivity.
  discriminate.
Defined.

(** A backend without the collection endpoints. *)
Lemma missing_endpoint_reads_as_empty_witness :
  fst (Services.getUpcomingPasses MoreSamples.bare_backend Samples.signed_in)
  = Fulfilled [] /\
  fst (Services.getFavorites MoreSamples.bare_backend Samples.signed_in)
  = Fulfilled [].
Proof.
  destruct (missing_endpoint_reads_as_empty
              MoreSamples.bare_backend Samples.signed_in
              (HttpClient.mkResponse 404 None) tt)
    as [Hpasses Hfavorites].
  split.
  - exact (proj1 (Hpasses eq_refl (or_introl eq_refl))).
  - exact (proj1 (proj1 (Hfavorites eq_refl) eq_refl)).
Defined.

(** A 503 that explains itself: the explanation is the reason. *)
Lemma getFavorites_failure_reason_witness :
  fst (Services.getFavorites MoreSamples.overloaded_backend Samples.signed_in)
  = Rejected "database unavailable"%string.
Proof.
  apply (getFavorites_failure_reason
           MoreSamples.overloaded_backend Samples.signed_in
           (HttpClient.mkResponse 503
              (Some (mkBody None None None (Some "database unavailable"%string) None)))
           tt).
  - reflexivity.
  - cbn. lia.
Defined.

(** The healthy sample backend is reported healthy. *)
Lemma checkBackendHealth_true_iff_witness :
  fst (Services.checkBackendHealth Samples.healthy_backend Samples.signed_in) = true.
Proof.
  apply (checkBackendHealth_true_iff Samples.healthy_backend Samples.signed_in).
  exists (mkBody (Some "healthy"%string) None None None None), tt.
  split; reflexivity.
Defined.

(** A healthy cycle with the favorites endpoint broken: no error shown. *)
Lemma loadDashboardData_healthy_cycle_witness :
  HttpClient.requests
    (snd (Dashboard.loadDashboardData Samples.favorites_broken_backend 42
            Dashboard.initial Samples.signed_in))
  = ["/health"; "/users/favorites"; "/users/passes"]%string /\
  Dashboard.error
    (fst (Dashboard.loadDashboardData Samples.favorites_broken_backend 42
            Dashboard.initial Samples.signed_in)) = None.
Proof.
  destruct (loadDashboardData_healthy_cycle
              Samples.favorites_broken_backend 42 Dashboard.initial
              Samples.signed_in eq_refl)
    as (Hlog & Herror & _).
  split; [exact Hlog|exact Herror].
Defined.

(** Refreshing positions while the favorites endpoint answers 500. *)
Lemma refreshPositions_effect_witness :
  Dashboard.favorites
    (fst (Dashboard.refreshPositions Samples.favorites_broken_backend
            [Samples.iss] 42
            (Dashboard.setFavorites [Samples.iss] Dashboard.initial)
            Samples.signed_in))
  = [Samples.iss] /\
  Dashboard.refreshing
    (fst (Dashboard.refreshPositions Samples.favorites_broken_backend
            [Samples.iss] 42
            (Dashboard.setFavorites [Samples.iss] Dashboard.initial)
            Samples.signed_in))
  = false.
Proof.
  assert (Hne : [Samples.iss] <> []) by discriminate.
  destruct (refreshPositions_effect
              Samples.favorites_broken_backend [Samples.iss] 42
              (Dashboard.setFavorites [Samples.iss] Dashboard.initial)
              Samples.signed_in Hne)
    as (_ & Hrefreshing & _ & _ & Hkept).
  split; [exact (proj1 Hkept)|exact Hrefreshing].
Defined.

(** Auto-refresh switched off after mount: a tick does nothing. *)
Lemma no_refresh_while_switched_off_witness :
  Scheduler.step
    (Scheduler.step (Scheduler.mount Samples.healthy_backend 0 Samples.signed_in)
                    Scheduler.ToggleAutoRefresh)
    Scheduler.Tick
  = Scheduler.step (Scheduler.mount Samples.healthy_backend 0 Samples.signed_in)
                   Scheduler.ToggleAutoRefresh.
Proof.
  apply (no_refresh_while_switched_off Samples.healthy_backend).
  - apply Scheduler.reach_step. apply Scheduler.reach_mount.
  - reflexivity.
Defined.

(** With a favourite loaded, ticks straight after mount still do nothing. *)
Lemma auto_refresh_idle_until_toggled_witness :
  Forall (fun s => Scheduler.interval s = Some [] /\ Scheduler.step s Scheduler.Tick = s)
         (Scheduler.mount Samples.healthy_backend 0 Samples.signed_in
          :: Scheduler.trace
               (Scheduler.mount Samples.healthy_backend 0 Samples.signed_in)
               [Scheduler.Tick; Scheduler.ClickRefreshPositions; Scheduler.Tick]).
Proof.
  apply (auto_refresh_idle_until_toggled Samples.healthy_backend).
  cbn. intros [H|[H|[H|[]]]]; discriminate H.
Defined.

(** A search the server answers with 404: one request. *)
Lemma searchSatellites_request_count_witness :
  HttpClient.requests
    (snd (SatelliteService.searchSatellites MoreSamples.no_such_search
            Samples.half MoreSamples.signed_out))
  = ["/satellites/search"%string].
Proof.
  destruct (searchSatellites_request_count
              MoreSamples.no_such_search Samples.half MoreSamples.signed_out)
    as [_ Hone].
  apply (Hone _ _ eq_refl). reflexivity.
Defined.

(** Filtering the favourites by "hub". *)
Lemma satellite_view_shows_the_matches_witness :
  In MoreSamples.hubble
     (DerivedView.read
        (snd (DerivedView.filteredAndSortedSatellites
                MoreSamples.same_text MoreSamples.no_collation "205" "norad_id"
                MoreSamples.favorites_ref MoreSamples.stored_favorites))
        (fst (DerivedView.filteredAndSortedSatellites
                MoreSamples.same_text MoreSamples.no_collation "205" "norad_id"
                MoreSamples.favorites_ref MoreSamples.stored_favorites))).
Proof.
  destruct (satellite_view_shows_the_matches
              MoreSamples.same_text MoreSamples.no_collation "205" "norad_id"
              MoreSamples.favorites_ref MoreSamples.stored_favorites)
    as (_ & Hshown & _).
  apply Hshown. split.
  - right. left. reflexivity.
  - right. reflexivity.
Defined.

(** A minimum elevation of 30 keeps the 45 degree pass only. *)
Lemma pass_view_shows_the_selected_witness :
  In Samples.evening_pass
     (DerivedView.read
        (snd (DerivedView.filteredAndSortedPasses
                MoreSamples.no_collation MoreSamples.parse_thirty false "30"%string
                "start_time"%string Samples.passes_ref Samples.stored_passes))
        (fst (DerivedView.filteredAndSortedPasses
                MoreSamples.no_collation MoreSamples.parse_thirty false "30"%string
                "start_time"%string Samples.passes_ref Samples.stored_passes))) /\
  DerivedView.read
    (snd (DerivedView.filteredAndSortedPasses
            MoreSamples.no_collation MoreSamples.parse_thirty false "high"%string
            "start_time"%string Samples.passes_ref Samples.stored_passes))
    (fst (DerivedView.filteredAndSortedPasses
            MoreSamples.no_collation MoreSamples.parse_thirty false "high"%string
            "start_time"%string Samples.passes_ref Samples.stored_passes))
  = [].
Proof.
  destruct (pass_view_shows_the_selected
              MoreSamples.no_collation MoreSamples.parse_thirty false "30"%string
              "start_time"%string Samples.passes_ref Samples.stored_passes)
    as (_ & Hshown & _).
  destruct (pass_view_shows_the_selected
              MoreSamples.no_collation MoreSamples.parse_thirty false "high"%string
              "start_time"%string Samples.passes_ref Samples.stored_passes)
    as (_ & _ & Hnan).
  split.
  - apply Hshown. split; [left; reflexivity|]. split; [discriminate|].
    intros _. exists 30. split; [reflexivity|]. unfold Qle. cbn. lia.
  - apply Hnan; [discriminate|reflexivity].
Defined.

(** An unknown sort key shows the favourites as stored. *)
Lemma ties_and_unknown_keys_keep_collection_order_witness :
  DerivedView.read
    (snd (DerivedView.filteredAndSortedSatellites
            MoreSamples.same_text MoreSamples.no_collation ""%string "brightness"%string
            MoreSamples.favorites_ref MoreSamples.stored_favorites))
    (fst (DerivedView.filteredAndSortedSatellites
            MoreSamples.same_text MoreSamples.no_collation ""%string "brightness"%string
            MoreSamples.favorites_ref MoreSamples.stored_favorites))
  = [Samples.iss; MoreSamples.hubble].
Proof.
  destruct (ties_and_unknown_keys_keep_collection_order
              MoreSamples.same_text MoreSamples.no_collation MoreSamples.parse_thirty
              ""%string MoreSamples.favorites_ref MoreSamples.stored_favorites
              false "all"%string Samples.passes_ref Samples.stored_passes)
    as (_ & _ & Hunknown & _).
  rewrite (Hunknown "brightness"%string).
  - reflexivity.
  - cbn. intros [H|[H|[H|[H|[H|[]]]]]]; discriminate H.
Defined.

(** Rendering the default pass view twice. *)
Lemma unfiltered_pass_view_rerender_witness :
  snd (DerivedView.filteredAndSortedPasses
         MoreSamples.no_collation MoreSamples.parse_thirty false "all"%string "start_time"%string
         (fst (DerivedView.filteredAndSortedPasses
                 MoreSamples.no_collation MoreSamples.parse_thirty false "all"%string
                 "start_time"%string Samples.passes_ref Samples.stored_passes))
         (snd (DerivedView.filteredAndSortedPasses
                 MoreSamples.no_collation MoreSamples.parse_thirty false "all"%string
                 "start_time"%string Samples.passes_ref Samples.stored_passes)))
  = snd (DerivedView.filteredAndSortedPasses
           MoreSamples.no_collation MoreSamples.parse_thirty false "all"%string
           "start_time"%string Samples.passes_ref Samples.stored_passes).
Proof.
  assert (Hkey : "start_time"%string <> "satellite"%string) by discriminate.
  exact (proj1 (proj2 (unfiltered_pass_view_rerender
                         MoreSamples.no_collation MoreSamples.parse_thirty
                         "start_time"%string Samples.passes_ref Samples.stored_passes
                         Hkey))).
Defined.

(** 125 seconds are shown as 2 minutes and 5 seconds. *)
Lemma formatDuration_parts_witness :
  Format.formatDuration 125 = "2m 5s"%string /\
  60 * Format.duration_minutes 125 + Format.duration_seconds 125 = 125 /\
  60 * Format.duration_minutes (-30) + Format.duration_seconds (-30) = -30 - 60.
Proof.
  destruct (formatDuration_parts 125) as (_ & Hpos & _).
  destruct (formatDuration_parts (-30)) as (_ & _ & Hneg).
  split; [reflexivity|]. split.
  - apply Hpos. lia.
  - apply Hneg; [lia|discriminate].
Defined.
